(* ===== verification/_CoqProject ===== *)
-Q . S2P
Prelude.v
Float32.v
Card.v
Player.v
Hand.v
Game.v
Betting.v
Scenarios.v
Store.v
DB.v
UI.v
App.v
Lifecycle.v
Server.v
