(* ===== verification/Prelude.v ===== *)
(** * go-wasm-poker: a verification development of the Texas Hold'em program

    The program ([src/]) is a Go poker table compiled to WebAssembly.
    Its parts and how they call each other:
    - the engine ([src/pkg/game]): cards and the deck ([card.go]), the
      players ([player.go]), the hand evaluator ([hand.go]) and the
      table with its betting state machine ([game.go]);
    - the mock database ([src/pkg/db/mock_spacetime.go]), which stores
      game-state pointers, profiles and game histories in three maps;
    - the Gio user interface ([src/pkg/ui]), which draws the table and
      turns each clicked button into one [ProcessAction] call;
    - the application ([src/cmd/poker/main.go]): [main] connects the
      database, [run] builds a four-player table, starts a hand, saves
      the table pointer under "game-1", creates the UI on that same
      pointer and handles window events;
    - a static file server ([src/cmd/server/main.go]).

    Files, in dependency order ([_CoqProject]):
    - [Prelude]: Go slices and integers ([go_len], [go_index],
      [go_store], [go_rem]: a panic is [None]; [int64_range], the values
      of Go's 64-bit [int]), sums over slices, the
      [ThreeWay] class of comparators with its client lemmas, the hint
      database [poker] and the tactics [by_eval], [obtain], [go_simpl].
    - [Float32] ([Module Float32]): Go's [float32] as an integer number
      of units [2^-149]; [float32(int)] and the product round to nearest,
      ties to even, with 24 significant bits and subnormals, [int(f)]
      truncates.  It serves the bet amount of the user interface.
    - [Card] ([Module Deck]): [card.go].  [Shuffle] is the Fisher-Yates
      loop of [math/rand] with the source's swap closure; its random
      indices come from an argument [rnd : nat -> nat], taken modulo the
      size of the range Go draws from, so every theorem holds for every
      random source.
    - [Player] ([Module Action], [Module Player]): [player.go]; a method
      with a pointer receiver returns the updated player.
    - [Hand] ([Module Hand]): [hand.go], with its placeholder helpers.
    - [Game] ([Module Game]): the [GameState] struct and its methods
      from [game.go]; a method is a function from the state to the new
      state, in [option] when it can panic.
    - [Betting] ([Module Betting]): [ProcessAction] (the action switch as
      [applyAction], then the turn and the closing test) and its theorems.
    - [Scenarios]: sequences of actions ([run]) and the spec's scenarios.
    - [Store] ([Module Store]): the heap behind the shared
      [*GameState] pointer, and the two calls made through it.
    - [DB] ([Module DB]): the mock database over that heap, the spec's
      persistence contract as the class [Persistence] with its laws, the
      store of snapshots that implements it, and the event semantics
      [run_mock] / [run_spec] relating them.
    - [UI] ([Module UI]): [game_ui.go] and [player_ui.go]; each layout
      function is the list of drawing operations ([Op]) it records, and
      [handleButtonClicks] is six [press] steps then [updateBetAmount].
    - [App] ([Module App]): [main], [run] and the event loop over a list
      of window events.
    - [Lifecycle] ([Module Lifecycle]): the tables the program can
      reach ([reachable], by rule induction over [step]).
    - [Server] ([Module Server]): the handler of the file server.

    What the theorems show (the claims are numbered C1..C40 in their
    doc comments):
    - the chip ledger: [ProcessAction] conserves the stacks plus the pot,
      refuses exactly the spec's illegal actions but two (a check above
      the current bet and unknown action codes are accepted) without
      changing anything,
      never panics on a well-formed table and moves the hand by at most
      one street; [StartNewHand] keeps every chip in stacks and bets;
    - the dealing invariant: on every reachable table the deck, the
      board and the hands are distinct cards of [NewDeck];
    - refinement: the mock database implements the snapshot contract on
      every run in which nobody writes through a saved pointer, and
      differs from it (the saved pointer is the live table) otherwise;
    - the user interface: a frame's clicks each become one
      [ProcessAction] on the UI's table and touch nothing else, the bet
      amount is bounded by the big blind and the stack as [float32]
      rounds it (above [2^24] chips, more than the stack), the card
      border covers exactly the band along the four sides, and the
      player labels print [string(rune(n))], never the number;
    - functional behaviour of the deck, the players, the evaluator, the
      database's maps and the server's handler, errors included;
    - the findings of [PROJECT.json]: checks never close a street, calls
      after the flop refund, the pot is never paid out, the button
      ignores busted seats, unknown actions are accepted, a fold to one
      player pays nobody.

    Integers: a Go [int] is a [Z].  The equalities proved (chips
    conserved, stacks plus bets kept) hold as well in Go's wrapping
    64-bit arithmetic; where a decision depends on a sum that could
    wrap (the call and raise amounts of [ProcessAction]), the theorem
    assumes the sum is in [int64_range], the inputs on which the model
    and Go agree.

    Bounds and fuel: [findNextActivePosition] scans with fuel
    [len(Players)], exactly the number of iterations of the Go loop
    [for count < len(g.Players)] (count rises by one per iteration); [dealHoleCards] is the
    source's two passes; every other loop of the program is over a
    list and is structural.  No theorem needs more fuel than the loop
    itself has.

    Not modelled: [SerializeGameState] / [DeserializeGameState]
    ([encoding/json]), the mutex of the mock database, logging and
    sleeps, the JavaScript callback of [main] (it only logs), the
    placement that Gio's [layout.Flex] and [layout.Inset] add, fonts and
    text shaping, and the network side of the file server. *)

From stdpp Require Export base list decidable strings sets.
From Stdlib Require Export ZArith Lia.

(** ** Go slices and integers

    A Go [int] is a [Z]; a slice is a [list].  Indexing a slice out of
    range and taking a remainder by zero make a Go program panic: the
    model returns [None] there, so a function that may panic returns an
    [option] and is written in stdpp's option monad ([x ← m; k]). *)

Declare Scope go_scope.
Delimit Scope go_scope with go.
Open Scope go_scope.

(** [len(s)] *)
Definition go_len {A} (s : list A) : Z := Z.of_nat (length s).

(** [s[i]] as an rvalue: panics out of range. *)
Definition go_index {A} (s : list A) (i : Z) : option A :=
  if decide (0 <= i)%Z then s !! Z.to_nat i else None.

(** [s[i] = x] (or a method call through the pointer [s[i]]) at an index
    the code has just read successfully. *)
Definition go_store {A} (s : list A) (i : Z) (x : A) : list A :=
  <[Z.to_nat i := x]> s.

(** [a % b]: Go truncates towards zero, as [Z.rem] does; [b = 0] panics. *)
Definition go_rem (a b : Z) : option Z :=
  if decide (b = 0)%Z then None else Some (Z.rem a b).

(** A Go [int] on the [wasm] target has 64 bits.  The model computes in
    [Z]; a result in this range is the one Go computes, a result outside
    it is where Go wraps around. *)
Definition int64_range (z : Z) : Prop := (- 2 ^ 63 <= z < 2 ^ 63)%Z.

#[export] Instance int64_range_dec z : Decision (int64_range z).
Proof. unfold int64_range. apply _. Defined.

Notation "s .[ i ]" := (go_index s i)
  (at level 1, i at level 200, format "s .[ i ]") : go_scope.
Notation "s .[ i := x ]" := (go_store s i x)
  (at level 1, i at level 200, x at level 200, format "s .[ i  :=  x ]") : go_scope.

(** The values of [x] in [for x := lo; x <= hi; x++ { ... }]. *)
Fixpoint go_upto (lo : Z) (n : nat) : list Z :=
  match n with
  | O => []
  | S n' => lo :: go_upto (lo + 1)%Z n'
  end.

Definition go_range_incl (lo hi : Z) : list Z := go_upto lo (Z.to_nat (hi - lo + 1)).

(** The sum of an integer field over a slice (chips over the seats). *)
Fixpoint sumZ {A} (f : A -> Z) (l : list A) : Z :=
  match l with
  | [] => 0%Z
  | x :: l' => (f x + sumZ f l')%Z
  end.

(** ** Shared lemmas *)

Create HintDb poker discriminated.
Create Rewrite HintDb poker.

Section GoSlices.
Context {A : Type}.
Implicit Types (s : list A) (x y : A) (i j : Z).

Lemma go_index_Some s i x :
  s.[i] = Some x <-> (0 <= i < go_len s)%Z /\ s !! Z.to_nat i = Some x.
Proof.
  unfold go_index, go_len. case_decide; split; intros Hs.
  - split; [|done]. apply lookup_lt_Some in Hs. lia.
  - by destruct Hs.
  - done.
  - lia.
Qed.

Lemma go_index_in_range s i :
  (0 <= i < go_len s)%Z -> is_Some s.[i].
Proof.
  intros Hi. unfold go_index, go_len in *. rewrite decide_True by lia.
  apply lookup_lt_is_Some_2. lia.
Qed.

Lemma go_index_None s i :
  s.[i] = None <-> (i < 0 \/ go_len s <= i)%Z.
Proof.
  unfold go_index, go_len. case_decide; [|split; [lia|done]].
  rewrite lookup_ge_None. lia.
Qed.

Lemma length_go_store s i x : length (s.[i := x]) = length s.
Proof. apply length_insert. Qed.

Lemma go_len_store s i x : go_len (s.[i := x]) = go_len s.
Proof. unfold go_len. by rewrite length_go_store. Qed.

Lemma go_index_store_eq s i x y :
  s.[i] = Some y -> (s.[i := x]).[i] = Some x.
Proof.
  intros [Hi _]%go_index_Some. apply go_index_Some.
  rewrite go_len_store. split; [done|].
  apply list_lookup_insert_eq. unfold go_len in Hi. lia.
Qed.

Lemma go_index_store_ne s i j x :
  (0 <= i)%Z -> i <> j -> (s.[i := x]).[j] = s.[j].
Proof.
  intros Hi Hij. unfold go_index, go_store. case_decide; [|done].
  apply list_lookup_insert_ne. lia.
Qed.

Lemma go_store_same s i x :
  s.[i] = Some x -> s.[i := x] = s.
Proof. intros [_ Hs]%go_index_Some. by apply list_insert_id. Qed.

(** A store that keeps what [f] sees of the element keeps [f] of the slice. *)
Lemma fmap_go_store {B} (f : A -> B) s i x y :
  s.[i] = Some x -> f y = f x -> f <$> s.[i := y] = f <$> s.
Proof.
  intros [_ Hs]%go_index_Some Hf. unfold go_store.
  rewrite list_fmap_insert, Hf. apply list_insert_id. by rewrite list_lookup_fmap, Hs.
Qed.

Lemma sumZ_app (f : A -> Z) l1 l2 :
  sumZ f (l1 ++ l2) = (sumZ f l1 + sumZ f l2)%Z.
Proof. induction l1; simpl; lia. Qed.

Lemma sumZ_insert (f : A -> Z) s (n : nat) x y :
  s !! n = Some y -> sumZ f (<[n := x]> s) = (sumZ f s - f y + f x)%Z.
Proof.
  revert s. induction n as [|n IH]; intros [|z s] Hs; simplify_eq/=; [lia|].
  rewrite (IH s Hs). lia.
Qed.

Lemma sumZ_store (f : A -> Z) s i x y :
  s.[i] = Some y -> sumZ f (s.[i := x]) = (sumZ f s - f y + f x)%Z.
Proof. intros [_ Hs]%go_index_Some. by apply sumZ_insert. Qed.

Lemma sumZ_fmap_eq (f : A -> Z) l1 l2 : f <$> l1 = f <$> l2 -> sumZ f l1 = sumZ f l2.
Proof.
  revert l2. induction l1 as [|x l1 IH]; intros [|y l2] Heq; simplify_eq/=; [done|].
  rewrite (IH l2) by done. congruence.
Qed.

Lemma sumZ_add (f h : A -> Z) l : (sumZ f l + sumZ h l = sumZ (fun x => f x + h x) l)%Z.
Proof. induction l; simpl; lia. Qed.

Lemma sumZ_nonneg (f : A -> Z) s :
  Forall (fun x => 0 <= f x)%Z s -> (0 <= sumZ f s)%Z.
Proof. induction 1; simpl; lia. Qed.

Lemma sumZ_elem_le (f : A -> Z) s x :
  Forall (fun x => 0 <= f x)%Z s -> x ∈ s -> (f x <= sumZ f s)%Z.
Proof.
  induction 1 as [|z s Hz Hs IH]; [by intros ?%elem_of_nil|].
  intros [->|Hin]%elem_of_cons; simpl.
  - pose proof (sumZ_nonneg f s Hs). lia.
  - specialize (IH Hin). lia.
Qed.
End GoSlices.

Lemma filter_all_true {A} (P : A -> Prop) `{!forall x, Decision (P x)} (l : list A) :
  (forall x, x ∈ l -> P x) -> filter P l = l.
Proof.
  induction l as [|x l IH]; intros Hall; [done|].
  rewrite filter_cons_True by set_solver. f_equal. apply IH. set_solver.
Qed.

Lemma elem_of_go_upto (lo z : Z) (n : nat) :
  z ∈ go_upto lo n <-> (lo <= z < lo + Z.of_nat n)%Z.
Proof.
  revert lo. induction n as [|n IH]; intros lo; simpl.
  - rewrite elem_of_nil. lia.
  - rewrite elem_of_cons, IH. lia.
Qed.

Lemma elem_of_go_range_incl (lo hi z : Z) :
  z ∈ go_range_incl lo hi <-> (lo <= z <= hi)%Z.
Proof. unfold go_range_incl. rewrite elem_of_go_upto. lia. Qed.

Lemma NoDup_go_upto (lo : Z) (n : nat) : NoDup (go_upto lo n).
Proof.
  revert lo. induction n as [|n IH]; intros lo; simpl; constructor.
  - rewrite elem_of_go_upto. lia.
  - apply IH.
Qed.

(** ** Three-way comparators

    Go compares with functions returning [-1], [0] or [1]
    ([CompareHands]).  [ThreeWay cmp] is what such a comparator promises
    its clients: a total preorder, [0 <= cmp a b] reading "[a] is at
    least as good as [b]".  The showdown's choice of winners, [best_of],
    is written and proved against this interface only. *)

Class ThreeWay {A} (cmp : A -> A -> Z) : Prop := {
  three_way_range a b : cmp a b = (-1)%Z \/ cmp a b = 0%Z \/ cmp a b = 1%Z;
  three_way_antisym a b : cmp b a = (- cmp a b)%Z;
  three_way_ge_trans a b c : (0 <= cmp a b -> 0 <= cmp b c -> 0 <= cmp a c)%Z
}.

Section ThreeWayClient.
Context {A : Type} (cmp : A -> A -> Z) `{!ThreeWay cmp}.

Lemma three_way_refl a : cmp a a = 0%Z.
Proof. pose proof (three_way_antisym (cmp:=cmp) a a). lia. Qed.

Lemma three_way_total a b : (0 <= cmp a b \/ 0 <= cmp b a)%Z.
Proof. rewrite (three_way_antisym (cmp:=cmp) a b). lia. Qed.

(** The elements of [xs] at least as good as every element of [xs]:
    the winners of a showdown, ties included. *)
Definition best_of (xs : list A) : list A :=
  filter (fun x => Forall (fun y => 0 <= cmp x y)%Z xs) xs.

Lemma elem_of_best_of x xs :
  x ∈ best_of xs <-> x ∈ xs /\ forall y, y ∈ xs -> (0 <= cmp x y)%Z.
Proof. unfold best_of. rewrite list_elem_of_filter, Forall_forall. naive_solver. Qed.

Lemma best_exists xs :
  xs <> [] -> exists m, m ∈ xs /\ forall y, y ∈ xs -> (0 <= cmp m y)%Z.
Proof.
  induction xs as [|x xs IH]; [done|intros _].
  destruct xs as [|x' xs'].
  - exists x. split; [set_solver|]. intros y ->%list_elem_of_singleton.
    rewrite three_way_refl. lia.
  - destruct IH as (m & Hm & Hge); [done|].
    destruct (three_way_total x m) as [Hxm|Hmx].
    + exists x. split; [set_solver|]. intros y [->|Hy]%elem_of_cons.
      * rewrite three_way_refl. lia.
      * by apply (three_way_ge_trans (cmp:=cmp) x m y), Hge.
    + exists m. split; [set_solver|]. intros y [->|Hy]%elem_of_cons; auto.
Qed.

Lemma best_of_nonempty xs : xs <> [] -> best_of xs <> [].
Proof.
  intros (m & Hm & Hge)%best_exists Hnil.
  assert (m ∈ best_of xs) as Hin by (by apply elem_of_best_of).
  rewrite Hnil in Hin. set_solver.
Qed.

Lemma best_of_ties x y xs :
  x ∈ best_of xs -> y ∈ best_of xs -> cmp x y = 0%Z.
Proof.
  intros [Hx Hgx]%elem_of_best_of [Hy Hgy]%elem_of_best_of.
  specialize (Hgx y Hy). specialize (Hgy x Hx).
  rewrite (three_way_antisym (cmp:=cmp)) in Hgy. lia.
Qed.
End ThreeWayClient.

#[export] Hint Resolve go_index_in_range go_index_store_eq : poker.
#[export] Hint Rewrite @length_go_store @go_len_store @sumZ_app : poker.

(** [by_eval] proves a decidable proposition about closed terms by
    evaluating its decision procedure. *)
Ltac by_eval := apply (bool_decide_unpack _); vm_compute; reflexivity.

(** [obtain E t] names the value of a closed computation [t] that
    evaluates to [Some _], dismissing the [None] case by evaluation. *)
Ltac obtain E t :=
  let x := fresh "x" in
  destruct t as [x|] eqn:E; [|vm_compute in E; discriminate].

(** A decidable property of the value of a closed computation, checked
    by evaluating the computation. *)
Lemma option_check {A} (P : A -> Prop) `{!forall a, Decision (P a)} (o : option A) x :
  o = Some x -> (match o with Some a => bool_decide (P a) | None => false end) = true -> P x.
Proof. intros -> Hc. by apply bool_decide_eq_true in Hc. Qed.

(** [go_simpl] unfolds the slice helpers and splits on the integer tests
    the Go code makes, leaving arithmetic to [lia]. *)
Ltac go_simpl :=
  repeat first
    [ progress simplify_eq/=
    | progress autorewrite with poker in *
    | case_decide ].
