(* ===== verification/Float32.v ===== *)
(** * Go's [float32] arithmetic

    The user interface computes the bet amount as
    [int(ui.betSlider.Value * float32(player.Chips))]: an [int] converted
    to [float32], a [float32] product and a truncation back to [int].
    Every finite [float32] is an integer multiple of [2^-149], the least
    subnormal, so a [float32] is represented here by that integer: the
    value [v] is the [Z] [v * 2^149].

    IEEE 754 binary32 rounds to nearest, ties to even, with a 24-bit
    significand; below [2^-126] the spacing stays [2^-149] (subnormals).
    [round_pos N s] rounds the non-negative exact value [N * 2^-(149+s)]:
    it keeps the 24 leading bits of [N], or all bits down to [2^-149].
    The program's [float32] values are a slider value in [[0, 1]] times an
    [int] stack, below [2^64], so the exponent never reaches the
    [float32] ceiling [2^128]: infinities and NaNs are not modelled. *)

From S2P Require Import Prelude.

Module Float32.
Open Scope Z_scope.

(** ** Data *)

(** A [float32], in units of [2^-149]. *)
Definition float32 := Z.

(** ** Operations *)

(** [x / 2^k] rounded to the nearest integer, ties to even ([x, k >= 0]). *)
Definition rne_shift (x k : Z) : Z :=
  let q := Z.shiftr x k in
  let r := x - q * 2 ^ k in
  if decide (2 * r < 2 ^ k) then q
  else if decide (2 ^ k < 2 * r) then q + 1
  else if Z.even q then q else q + 1.

(** The exponent of the last kept bit of [N], in units of [2^-(149+s)]:
    24 significant bits, never below [2^-149]. *)
Definition round_exp (N s : Z) : Z := Z.max (Z.log2 N - 23) s.

(** The [float32] nearest to [N * 2^-(149+s)], for [N >= 0]. *)
Definition round_pos (N s : Z) : float32 :=
  let k := round_exp N s in rne_shift N k * 2 ^ (k - s).

(** Rounding is symmetric: [RNE(-x) = -RNE(x)]. *)
Definition round (N s : Z) : float32 :=
  if decide (N < 0) then - round_pos (- N) s else round_pos N s.

(** [float32(c)] for an [int] [c]. *)
Definition of_int (c : Z) : float32 := round (c * 2 ^ 149) 0.

(** [a * b] on [float32]: the exact product is [a * b * 2^-298]. *)
Definition mul (a b : float32) : float32 := round (a * b) 149.

(** [int(a)]: truncation towards zero. *)
Definition to_int (a : float32) : Z := Z.quot a (2 ^ 149).

(** [1.0] *)
Definition one : float32 := 2 ^ 149.

(** ** Lemmas *)

Section RoundLemmas.

Lemma pow2_pos k : 0 <= k -> 0 < 2 ^ k.
Proof. intros. apply Z.pow_pos_nonneg; lia. Qed.

(** The two parts of [x / 2^k]. *)
Lemma rne_shift_parts x k :
  0 <= x -> 0 <= k ->
  x = Z.shiftr x k * 2 ^ k + (x - Z.shiftr x k * 2 ^ k) /\
  0 <= x - Z.shiftr x k * 2 ^ k < 2 ^ k.
Proof.
  intros Hx Hk. rewrite Z.shiftr_div_pow2 by lia. pose proof (pow2_pos k Hk).
  split; [lia|]. rewrite <-Zmod_eq_full by lia. apply Z.mod_pos_bound; lia.
Qed.

Lemma rne_shift_bounds x k :
  0 <= x -> 0 <= k -> Z.shiftr x k <= rne_shift x k <= Z.shiftr x k + 1.
Proof. intros. unfold rne_shift. repeat case_decide; try destruct (Z.even _); lia. Qed.

(** Rounding is monotone. *)
Lemma rne_shift_mono x y k : 0 <= x <= y -> 0 <= k -> rne_shift x k <= rne_shift y k.
Proof.
  intros Hxy Hk.
  assert (Hq : Z.shiftr x k <= Z.shiftr y k).
  { rewrite !Z.shiftr_div_pow2 by lia. apply Z.div_le_mono; [by apply pow2_pos|lia]. }
  destruct (decide (Z.shiftr x k < Z.shiftr y k)).
  { pose proof (rne_shift_bounds x k). pose proof (rne_shift_bounds y k). lia. }
  assert (Heq : Z.shiftr x k = Z.shiftr y k) by lia.
  pose proof (rne_shift_parts x k) as [Hx Hrx]; [lia|done|].
  pose proof (rne_shift_parts y k) as [Hy Hry]; [lia|done|].
  unfold rne_shift. rewrite Heq in *. set (q := Z.shiftr y k) in *.
  repeat case_decide; destruct (Z.even q); lia.
Qed.

(** A multiple of [2^k] is kept exactly. *)
Lemma rne_shift_exact a k : 0 <= a -> 0 <= k -> rne_shift (a * 2 ^ k) k = a.
Proof.
  intros Ha Hk. pose proof (pow2_pos k Hk).
  unfold rne_shift. rewrite Z.shiftr_div_pow2, Z.div_mul by lia.
  rewrite Z.sub_diag, decide_True by lia. done.
Qed.

Lemma rne_shift_0 k : 0 <= k -> rne_shift 0 k = 0.
Proof. intros Hk. pose proof (rne_shift_exact 0 k) as H. rewrite Z.mul_0_l in H. lia. Qed.

Lemma rne_shift_nonneg x k : 0 <= x -> 0 <= k -> 0 <= rne_shift x k.
Proof. intros. rewrite <-(rne_shift_0 k) by lia. apply rne_shift_mono; lia. Qed.

(** Rounding the same value at a finer scale gives the same result. *)
Lemma rne_shift_scale x k a :
  0 <= x -> 0 <= k -> 0 <= a -> rne_shift (x * 2 ^ a) (k + a) = rne_shift x k.
Proof.
  intros Hx Hk Ha. pose proof (pow2_pos k Hk). pose proof (pow2_pos a Ha).
  unfold rne_shift. rewrite !Z.shiftr_div_pow2 by lia.
  rewrite Z.pow_add_r, Z.div_mul_cancel_r by lia.
  set (q := x / 2 ^ k).
  replace (x * 2 ^ a - q * (2 ^ k * 2 ^ a)) with ((x - q * 2 ^ k) * 2 ^ a) by ring.
  set (r := x - q * 2 ^ k).
  rewrite (decide_ext (2 * (r * 2 ^ a) < 2 ^ k * 2 ^ a) (2 * r < 2 ^ k)) by nia.
  rewrite (decide_ext (2 ^ k * 2 ^ a < 2 * (r * 2 ^ a)) (2 ^ k < 2 * r)) by nia.
  done.
Qed.

Lemma round_exp_ge N s : s <= round_exp N s.
Proof. unfold round_exp. lia. Qed.

(** A positive [N] has at most 24 bits above [2^round_exp]. *)
Lemma round_exp_top N s : 0 < N -> 0 <= s -> N < 2 ^ 24 * 2 ^ round_exp N s.
Proof.
  intros HN Hs. unfold round_exp. pose proof (Z.log2_spec N HN) as [_ Hhi].
  rewrite <-Z.pow_add_r by (pose proof (Z.log2_nonneg N); lia).
  eapply Z.lt_le_trans; [exact Hhi|]. apply Z.pow_le_mono_r; lia.
Qed.

Lemma round_pos_nonneg N s : 0 <= N -> 0 <= s -> 0 <= round_pos N s.
Proof.
  intros. unfold round_pos. pose proof (round_exp_ge N s).
  apply Z.mul_nonneg_nonneg; [apply rne_shift_nonneg; lia|]. apply Z.lt_le_incl, pow2_pos. lia.
Qed.

(** The rounded significand never exceeds [2^24]. *)
Lemma round_pos_significand N s : 0 <= N -> 0 <= s -> rne_shift N (round_exp N s) <= 2 ^ 24.
Proof.
  intros HN Hs. pose proof (round_exp_ge N s).
  destruct (decide (N = 0)) as [->|HN0].
  { rewrite rne_shift_0 by lia. lia. }
  rewrite <-(rne_shift_exact (2 ^ 24) (round_exp N s)) by lia.
  apply rne_shift_mono; [|lia]. pose proof (round_exp_top N s). lia.
Qed.

(** [float32] rounding is monotone (for a fixed scale). *)
Lemma round_pos_mono N M s : 0 <= N <= M -> 0 <= s -> round_pos N s <= round_pos M s.
Proof.
  intros HNM Hs. unfold round_pos.
  destruct (decide (N = 0)) as [->|HN0].
  { pose proof (round_pos_nonneg M s). unfold round_pos in *.
    rewrite rne_shift_0 by (pose proof (round_exp_ge 0 s); lia). lia. }
  assert (Hk : round_exp N s <= round_exp M s).
  { unfold round_exp. pose proof (Z.log2_le_mono N M). lia. }
  pose proof (round_exp_ge N s).
  destruct (decide (round_exp N s = round_exp M s)) as [Heq|Hlt].
  - rewrite Heq. apply Z.mul_le_mono_nonneg_r; [apply Z.lt_le_incl, pow2_pos; lia|].
    apply rne_shift_mono; lia.
  - set (kN := round_exp N s) in *. set (kM := round_exp M s) in *.
    (* [M] is normal: its top bit is [2^(kM+23)] *)
    assert (HkM : kM = Z.log2 M - 23) by (unfold kM, round_exp in *; lia).
    assert (HM : 2 ^ 23 * 2 ^ kM <= M).
    { rewrite <-Z.pow_add_r by lia. replace (23 + kM) with (Z.log2 M) by lia.
      apply Z.log2_spec. lia. }
    assert (HN : N <= 2 ^ (kM + 23 - kN) * 2 ^ kN).
    { assert (HNtop : N < 2 ^ 24 * 2 ^ kN) by (apply round_exp_top; lia).
      rewrite <-Z.pow_add_r in HNtop by lia. rewrite <-Z.pow_add_r by lia.
      assert (2 ^ (24 + kN) <= 2 ^ (kM + 23 - kN + kN)) by (apply Z.pow_le_mono_r; lia). lia. }
    assert (HMpos : 0 <= 2 ^ 23 * 2 ^ kM) by (apply Z.mul_nonneg_nonneg; apply Z.lt_le_incl, pow2_pos; lia).
    pose proof (rne_shift_mono N (2 ^ (kM + 23 - kN) * 2 ^ kN) kN ltac:(lia) ltac:(lia)) as HNr.
    rewrite rne_shift_exact in HNr by (try apply Z.lt_le_incl, pow2_pos; lia).
    pose proof (rne_shift_mono (2 ^ 23 * 2 ^ kM) M kM ltac:(lia) ltac:(lia)) as HMr.
    rewrite rne_shift_exact in HMr by (try apply Z.lt_le_incl, pow2_pos; lia).
    transitivity (2 ^ (kM + 23 - kN) * 2 ^ (kN - s)).
    + apply Z.mul_le_mono_nonneg_r; [apply Z.lt_le_incl, pow2_pos; lia|done].
    + rewrite <-Z.pow_add_r by lia. transitivity (2 ^ 23 * 2 ^ (kM - s)).
      * rewrite <-Z.pow_add_r by lia. apply Z.pow_le_mono_r; lia.
      * apply Z.mul_le_mono_nonneg_r; [apply Z.lt_le_incl, pow2_pos; lia|done].
Qed.

(** Rounding at scale [s + a] a value scaled by [2^a] is rounding it at [s]. *)
Lemma round_pos_scale N s a :
  0 <= N -> 0 <= s -> 0 <= a -> round_pos (N * 2 ^ a) (s + a) = round_pos N s.
Proof.
  intros HN Hs Ha. unfold round_pos.
  assert (Hk : round_exp (N * 2 ^ a) (s + a) = round_exp N s + a).
  { unfold round_exp. destruct (decide (N = 0)) as [->|HN0]; [simpl; lia|].
    rewrite Z.log2_mul_pow2 by lia. lia. }
  rewrite Hk, rne_shift_scale by (pose proof (round_exp_ge N s); lia). f_equal. f_equal. lia.
Qed.

(** A significand of at most 24 bits is kept exactly. *)
Lemma round_pos_exact a k : 0 <= a <= 2 ^ 24 -> 0 <= k -> round_pos (a * 2 ^ k) 0 = a * 2 ^ k.
Proof.
  intros Ha Hk. destruct (decide (a = 0)) as [->|Ha0].
  { unfold round_pos. cbv zeta. rewrite (Z.mul_0_l (2 ^ k)), rne_shift_0 by apply round_exp_ge. done. }
  unfold round_pos. cbv zeta. set (j := round_exp (a * 2 ^ k) 0).
  assert (Hj : j <= k + 1).
  { unfold j, round_exp. rewrite Z.log2_mul_pow2 by lia.
    assert (Z.log2 a <= 24).
    { pose proof (Z.log2_le_mono a (2 ^ 24) ltac:(lia)) as H. by rewrite Z.log2_pow2 in H by lia. }
    lia. }
  assert (Hj0 : 0 <= j) by apply round_exp_ge.
  destruct (decide (j = k + 1)) as [Hjk|Hjk].
  - (* the significand is exactly [2^24]: [a * 2^k = 2^23 * 2^j] *)
    assert (Ha24 : a = 2 ^ 24).
    { unfold j, round_exp in Hjk. rewrite Z.log2_mul_pow2 in Hjk by lia.
      assert (Hl : Z.log2 a = 24) by lia.
      pose proof (Z.log2_spec a ltac:(lia)) as [Hlo _]. rewrite Hl in Hlo. lia. }
    subst a. rewrite Hjk, Z.sub_0_r.
    replace (2 ^ 24 * 2 ^ k) with (2 ^ 23 * 2 ^ (k + 1)) by (rewrite !Z.pow_add_r by lia; lia).
    rewrite rne_shift_exact by lia. done.
  - replace (a * 2 ^ k) with ((a * 2 ^ (k - j)) * 2 ^ j) by (rewrite <-Z.mul_assoc, <-Z.pow_add_r by lia; do 2 f_equal; lia).
    rewrite rne_shift_exact, Z.sub_0_r by (try apply Z.mul_nonneg_nonneg; try apply Z.lt_le_incl, pow2_pos; lia).
    done.
Qed.

(** Rounding a [float32] again changes nothing. *)
Lemma round_pos_idem N : 0 <= N -> round_pos (round_pos N 0) 0 = round_pos N 0.
Proof.
  intros HN. unfold round_pos at 2 3. cbv zeta. rewrite !Z.sub_0_r.
  apply round_pos_exact; [split; [apply rne_shift_nonneg|apply round_pos_significand]|];
    pose proof (round_exp_ge N 0); lia.
Qed.

End RoundLemmas.

Section Operations.

Lemma of_int_pos c : 0 <= c -> of_int c = round_pos (c * 2 ^ 149) 0.
Proof. intros Hc. unfold of_int, round. by rewrite decide_False by lia. Qed.

Lemma of_int_nonneg c : 0 <= c -> 0 <= of_int c.
Proof. intros Hc. rewrite of_int_pos by done. apply round_pos_nonneg; lia. Qed.

(** An [int] of at most 24 bits converts exactly. *)
Lemma of_int_exact c : 0 <= c <= 2 ^ 24 -> of_int c = c * 2 ^ 149.
Proof. intros Hc. rewrite of_int_pos by lia. apply round_pos_exact; lia. Qed.

(** A product by a factor in [[0, 1]] is at most the other factor. *)
Lemma mul_unit_le v c : 0 <= v <= one -> 0 <= c -> 0 <= mul v (of_int c) <= of_int c.
Proof.
  intros Hv Hc. pose proof (of_int_nonneg c Hc) as HC.
  unfold mul, round. rewrite decide_False by nia. split; [apply round_pos_nonneg; nia|].
  transitivity (round_pos (of_int c * 2 ^ 149) (0 + 149)).
  - apply round_pos_mono; [unfold one in Hv; nia|lia].
  - rewrite round_pos_scale by lia. rewrite of_int_pos by done. rewrite round_pos_idem by lia. lia.
Qed.

Lemma to_int_mono a b : 0 <= a <= b -> to_int a <= to_int b.
Proof.
  intros Hab. unfold to_int. rewrite !Z.quot_div_nonneg by lia.
  apply Z.div_le_mono; lia.
Qed.

Lemma to_int_nonneg a : 0 <= a -> 0 <= to_int a.
Proof. intros Ha. unfold to_int. rewrite Z.quot_div_nonneg by lia. apply Z.div_pos; lia. Qed.

Lemma to_int_of_int_exact c : 0 <= c <= 2 ^ 24 -> to_int (of_int c) = c.
Proof. intros Hc. rewrite of_int_exact by done. unfold to_int. apply Z.quot_mul. lia. Qed.

End Operations.

End Float32.
