(* ===== verification/Card.v ===== *)
(** * Cards and the deck ([src/pkg/game/card.go])

    [Suit] and [Rank] are Go [int] types with named constants; a [Card]
    is their pair; a [Deck] holds a slice of cards.  [NewDeck] is the
    nested loop of the source, [Shuffle] is the Fisher-Yates loop of
    [math/rand]'s [Shuffle] with the swap closure of the source, its
    random indices drawn from an injected source [rnd], and [Draw] /
    [DrawOne] take cards from the front of the slice. *)

From S2P Require Import Prelude.

Module Deck.
Open Scope Z_scope.

(** ** Data *)

Definition Suit := Z.
Definition Spades : Suit := 0.
Definition Hearts : Suit := 1.
Definition Diamonds : Suit := 2.
Definition Clubs : Suit := 3.

Definition Rank := Z.
Definition Two : Rank := 2.
Definition Three : Rank := 3.
Definition Four : Rank := 4.
Definition Five : Rank := 5.
Definition Six : Rank := 6.
Definition Seven : Rank := 7.
Definition Eight : Rank := 8.
Definition Nine : Rank := 9.
Definition Ten : Rank := 10.
Definition Jack : Rank := 11.
Definition Queen : Rank := 12.
Definition King : Rank := 13.
Definition Ace : Rank := 14.

(** [func (s Suit) String() string] *)
Definition Suit_String (s : Suit) : string :=
  if decide (s = Spades) then "♠"
  else if decide (s = Hearts) then "♥"
  else if decide (s = Diamonds) then "♦"
  else if decide (s = Clubs) then "♣"
  else "?".

(** [func (r Rank) String() string] *)
Definition Rank_String (r : Rank) : string :=
  if decide (r = Two) then "2"
  else if decide (r = Three) then "3"
  else if decide (r = Four) then "4"
  else if decide (r = Five) then "5"
  else if decide (r = Six) then "6"
  else if decide (r = Seven) then "7"
  else if decide (r = Eight) then "8"
  else if decide (r = Nine) then "9"
  else if decide (r = Ten) then "10"
  else if decide (r = Jack) then "J"
  else if decide (r = Queen) then "Q"
  else if decide (r = King) then "K"
  else if decide (r = Ace) then "A"
  else "?".

(** [type Card struct { Rank Rank; Suit Suit }]; the fields are renamed
    because [Rank] and [Suit] already name the types. *)
Record Card := MkCard { CardRank : Rank; CardSuit : Suit }.

#[export] Instance Card_eq_dec : EqDecision Card.
Proof. solve_decision. Defined.

(** [func (c Card) String() string]: [fmt.Sprintf("%s%s", rank, suit)]. *)
Definition Card_String (c : Card) : string :=
  Rank_String (CardRank c) +:+ Suit_String (CardSuit c).

(** The zero value [Card{}]. *)
Definition ZeroCard : Card := MkCard 0 0.

#[export] Instance Card_inhabited : Inhabited Card := populate ZeroCard.

(** [type Deck struct { Cards []Card }] *)
Record Deck := MkDeck { Cards : list Card }.

(** ** Operations *)

(** [NewDeck]: suits outermost, ranks innermost, each card appended. *)
Definition NewDeck : Deck :=
  MkDeck (fold_left
    (fun cards suit =>
       fold_left (fun cards rank => cards ++ [MkCard rank suit])
         (go_range_incl Two Ace) cards)
    (go_range_incl Spades Clubs) []).

(** The closure [d.Cards[i], d.Cards[j] = d.Cards[j], d.Cards[i]]:
    both right-hand sides are read before [d.Cards[i]] and then
    [d.Cards[j]] are assigned. *)
Definition swap (cards : list Card) (i j : nat) : list Card :=
  match cards !! i, cards !! j with
  | Some ci, Some cj => <[j := ci]> (<[i := cj]> cards)
  | _, _ => cards
  end.

(** The loop of [rand.Shuffle(n, swap)]: for [i] from [n-1] down to [1],
    [j] is drawn in [[0, i]] and [swap(i, j)] is called.  [rnd i] is the
    raw value the source yields at index [i]; reducing it modulo [i+1]
    covers every value the source may return. *)
Fixpoint fisher_yates (rnd : nat -> nat) (i : nat) (cards : list Card)
    : list Card :=
  match i with
  | O => cards
  | S i' => fisher_yates rnd i' (swap cards i (rnd i mod S i))
  end.

(** [func (d *Deck) Shuffle()]; the time-seeded source is [rnd]. *)
Definition Shuffle (rnd : nat -> nat) (d : Deck) : Deck :=
  MkDeck (fisher_yates rnd (length (Cards d) - 1) (Cards d)).

(** [func (d *Deck) Draw(n int) []Card]: [n] is clamped to the deck size;
    a negative [n] makes the slice expression [d.Cards[:n]] panic. *)
Definition Draw (n : Z) (d : Deck) : option (list Card * Deck) :=
  let n := if decide (go_len (Cards d) < n) then go_len (Cards d) else n in
  if decide (n < 0) then None
  else Some (take (Z.to_nat n) (Cards d), MkDeck (drop (Z.to_nat n) (Cards d))).

(** [func (d *Deck) DrawOne() (Card, bool)] *)
Definition DrawOne (d : Deck) : (Card * bool) * Deck :=
  match Cards d with
  | [] => ((ZeroCard, false), d)
  | card :: rest => ((card, true), MkDeck rest)
  end.

(** A card of the game: a rank in [Two..Ace] and a suit in [Spades..Clubs]. *)
Definition valid_card (c : Card) : Prop :=
  Two <= CardRank c <= Ace /\ Spades <= CardSuit c <= Clubs.

#[export] Instance valid_card_dec c : Decision (valid_card c).
Proof. unfold valid_card. apply _. Defined.

(** ** Lemmas *)

Lemma fold_left_snoc {A B} (f : A -> B) (l : list A) (acc : list B) :
  fold_left (fun acc x => acc ++ [f x]) l acc = acc ++ (f <$> l).
Proof.
  revert acc. induction l as [|x l IH]; intros acc; simpl.
  - by rewrite app_nil_r.
  - rewrite IH, <-app_assoc. done.
Qed.

Lemma fold_left_app_bind {A B} (g : A -> list B) (l : list A) (acc : list B) :
  fold_left (fun acc x => acc ++ g x) l acc = acc ++ (l ≫= g).
Proof.
  revert acc. induction l as [|x l IH]; intros acc; simpl.
  - by rewrite app_nil_r.
  - rewrite IH, <-app_assoc. done.
Qed.

Lemma fold_left_ext_fun {A B} (f g : A -> B -> A) (l : list B) (a : A) :
  (forall acc x, f acc x = g acc x) -> fold_left f l a = fold_left g l a.
Proof. intros Hfg. revert a. induction l as [|x l IH]; intros a; simpl; by rewrite ?Hfg, ?IH. Qed.

(** [NewDeck] lists, suit by suit, the thirteen ranks of each suit. *)
Lemma NewDeck_Cards :
  Cards NewDeck =
  go_range_incl Spades Clubs ≫= (fun suit => (fun rank => MkCard rank suit) <$> go_range_incl Two Ace).
Proof.
  unfold NewDeck; cbn [Cards].
  rewrite (fold_left_ext_fun _
    (fun acc suit => acc ++ ((fun rank => MkCard rank suit) <$> go_range_incl Two Ace))).
  - by rewrite fold_left_app_bind.
  - intros acc suit. apply (fold_left_snoc (fun rank => MkCard rank suit)).
Qed.

Lemma swap_perm (cards : list Card) (i j : nat) : swap cards i j ≡ₚ cards.
Proof.
  unfold swap. destruct (cards !! i) eqn:Hi, (cards !! j) eqn:Hj; try done.
  by apply Permutation_insert_swap.
Qed.

Lemma fisher_yates_perm rnd i (cards : list Card) : fisher_yates rnd i cards ≡ₚ cards.
Proof.
  revert cards. induction i as [|i IH]; intros cards; simpl; [done|].
  by rewrite IH, swap_perm.
Qed.

Lemma DrawOne_cases d c ok d' :
  DrawOne d = ((c, ok), d') ->
  (ok = true /\ Cards d = c :: Cards d') \/
  (ok = false /\ Cards d = [] /\ d' = d /\ c = ZeroCard).
Proof. unfold DrawOne. destruct (Cards d) eqn:E; intros; simplify_eq/=; auto. Qed.

Lemma DrawOne_length d :
  length (Cards (snd (DrawOne d))) = (length (Cards d) - 1)%nat.
Proof. unfold DrawOne. destruct (Cards d) eqn:E; simpl; rewrite ?E; simpl; lia. Qed.

#[export] Hint Resolve swap_perm fisher_yates_perm : poker.

Lemma NewDeck_NoDup : NoDup (Cards NewDeck).
Proof. apply (bool_decide_unpack _). vm_compute. reflexivity. Qed.

(** ** Theorems *)

(** C18: [NewDeck] yields exactly 52 cards, no two of them equal. *)
Theorem NewDeck_52_unique :
  length (Cards NewDeck) = 52%nat /\ NoDup (Cards NewDeck).
Proof. split; [reflexivity|apply NewDeck_NoDup]. Qed.

(** C28: a card is in [NewDeck] exactly when its rank is in [Two..Ace]
    and its suit in [Spades..Clubs]. *)
Theorem NewDeck_complete c : c ∈ Cards NewDeck <-> valid_card c.
Proof.
  rewrite NewDeck_Cards, list_elem_of_bind. destruct c as [r su]. unfold valid_card; cbn [CardRank CardSuit].
  setoid_rewrite list_elem_of_fmap. setoid_rewrite elem_of_go_range_incl.
  naive_solver.
Qed.

(** The text of a card identifies it: the 52 cards of the game print
    as 52 different strings, none of them with the ["?"] of an unknown
    rank or suit. *)
Theorem Card_String_injective :
  NoDup (Card_String <$> Cards NewDeck) /\
  Forall (fun c => Rank_String (CardRank c) <> "?" /\ Suit_String (CardSuit c) <> "?")
    (Cards NewDeck).
Proof. split; by_eval. Qed.

(** C17: [Shuffle] permutes the cards of the deck: the multiset of cards is
    unchanged, whatever the random source yields. *)
Theorem Shuffle_perm rnd d : Cards (Shuffle rnd d) ≡ₚ Cards d.
Proof. apply fisher_yates_perm. Qed.

(** C19: [Draw n] with [n >= 0] returns the first [min n len] cards and leaves
    the rest in the deck: the two parts put back together are the deck. *)
Theorem Draw_split n d :
  (0 <= n)%Z ->
  exists cs d', Draw n d = Some (cs, d') /\
    cs ++ Cards d' = Cards d /\
    length cs = Z.to_nat (Z.min n (go_len (Cards d))).
Proof.
  intros Hn. unfold Draw, go_len in *.
  repeat case_decide; try lia; (eexists _, _; split; [reflexivity|]);
    (split; [apply take_drop|]); rewrite length_take; lia.
Qed.

(** C20: a negative [n] makes [Draw] panic (the slice bound is negative). *)
Theorem Draw_negative_panics n d : (n < 0)%Z -> Draw n d = None.
Proof.
  intros Hn. unfold Draw, go_len. repeat case_decide; done || lia.
Qed.

(** Witnesses. *)
Lemma Draw_split_witness :
  (0 <= 5)%Z /\ exists cs d', Draw 5 NewDeck = Some (cs, d') /\
    cs ++ Cards d' = Cards NewDeck /\ length cs = Z.to_nat (Z.min 5 (go_len (Cards NewDeck))).
Proof. split; [lia|]. apply Draw_split. lia. Defined.

Lemma Draw_negative_panics_witness : (-1 < 0)%Z /\ Draw (-1) NewDeck = None.
Proof. split; [lia|]. apply Draw_negative_panics. lia. Defined.

End Deck.
