(* ===== verification/Player.v ===== *)
(** * Players ([src/pkg/game/player.go])

    [PlayerAction] and [PlayerStatus] are Go [int] types with named
    constants; [Player] is the struct; the pointer-receiver methods
    ([PlaceBet], [Fold], [ResetForNewHand], [CollectWinnings]) return the
    updated player (and the boolean result of [PlaceBet]).  The action
    constants live in [Module Action] because [Fold] and [Bet] also name
    a method and a field of the player. *)

From S2P Require Import Prelude Card.

Module Action.
Open Scope Z_scope.

(** [type PlayerAction int] *)
Definition PlayerAction := Z.
Definition Fold : PlayerAction := 0.
Definition Check : PlayerAction := 1.
Definition Call : PlayerAction := 2.
Definition Bet : PlayerAction := 3.
Definition Raise : PlayerAction := 4.
Definition AllIn : PlayerAction := 5.

(** [func (a PlayerAction) String() string] *)
Definition String (a : PlayerAction) : string :=
  if decide (a = Fold) then "Fold"
  else if decide (a = Check) then "Check"
  else if decide (a = Call) then "Call"
  else if decide (a = Bet) then "Bet"
  else if decide (a = Raise) then "Raise"
  else if decide (a = AllIn) then "All-In"
  else "Unknown".

End Action.

Module Player.
Open Scope Z_scope.

(** [type PlayerStatus int] *)
Definition PlayerStatus := Z.
Definition Active : PlayerStatus := 0.
Definition Folded : PlayerStatus := 1.
Definition AllInStatus : PlayerStatus := 2.
Definition Out : PlayerStatus := 3.

(** [type Player struct] *)
Record Player := MkPlayer {
  ID : string;
  Name : string;
  Chips : Z;
  Cards : list Deck.Card;
  Bet : Z;
  Status : PlayerStatus;
  Position : Z
}.

Definition set_Chips (v : Z) (p : Player) : Player :=
  MkPlayer (ID p) (Name p) v (Cards p) (Bet p) (Status p) (Position p).
Definition set_Cards (v : list Deck.Card) (p : Player) : Player :=
  MkPlayer (ID p) (Name p) (Chips p) v (Bet p) (Status p) (Position p).
Definition set_Bet (v : Z) (p : Player) : Player :=
  MkPlayer (ID p) (Name p) (Chips p) (Cards p) v (Status p) (Position p).
Definition set_Status (v : PlayerStatus) (p : Player) : Player :=
  MkPlayer (ID p) (Name p) (Chips p) (Cards p) (Bet p) v (Position p).

(** [func NewPlayer(id, name string, chips int, position int) *Player] *)
Definition NewPlayer (id name : string) (chips position : Z) : Player :=
  MkPlayer id name chips [] 0 Active position.

(** [func (p *Player) PlaceBet(amount int) bool] *)
Definition PlaceBet (amount : Z) (p : Player) : bool * Player :=
  if decide (Chips p < amount) then (false, p)
  else
    let p := set_Bet (Bet p + amount) p in
    let p := set_Chips (Chips p - amount) p in
    if decide (Chips p = 0) then (true, set_Status AllInStatus p) else (true, p).

(** [func (p *Player) CollectWinnings(amount int)] *)
Definition CollectWinnings (amount : Z) (p : Player) : Player :=
  set_Chips (Chips p + amount) p.

(** [func (p *Player) Fold()] *)
Definition Fold (p : Player) : Player := set_Status Folded p.

(** [func (p *Player) ResetForNewHand()] *)
Definition ResetForNewHand (p : Player) : Player :=
  let p := set_Cards [] p in
  let p := set_Bet 0 p in
  if decide (0 < Chips p) then set_Status Active p else set_Status Out p.

(** [func (p *Player) IsActive() bool] *)
Definition IsActive (p : Player) : bool := bool_decide (Status p = Active).

(** [func (p *Player) CanAct() bool] *)
Definition CanAct (p : Player) : bool :=
  bool_decide (Status p = Active) || bool_decide (Status p = AllInStatus).

(** The per-seat invariant of the spec (section 3): the stack is never
    negative, an all-in player has no chips left, and a player who may
    still act has some. *)
Definition player_wf (p : Player) : Prop :=
  0 <= Chips p /\
  (Status p = AllInStatus -> Chips p = 0) /\
  (Status p = Active -> 0 < Chips p).

#[export] Instance player_wf_dec p : Decision (player_wf p).
Proof. unfold player_wf. apply _. Defined.

(** ** Lemmas *)

Lemma PlaceBet_reject amount p : Chips p < amount -> PlaceBet amount p = (false, p).
Proof. intros H. unfold PlaceBet. by rewrite decide_True. Qed.

(** The fields of the player after an accepted bet. *)
Lemma PlaceBet_accept amount p :
  amount <= Chips p ->
  exists p', PlaceBet amount p = (true, p') /\
    Chips p' = Chips p - amount /\ Bet p' = Bet p + amount /\
    Status p' = (if decide (Chips p - amount = 0) then AllInStatus else Status p) /\
    Cards p' = Cards p /\ ID p' = ID p /\ Name p' = Name p /\ Position p' = Position p.
Proof.
  intros H. unfold PlaceBet. rewrite decide_False by lia. simpl.
  case_decide; eexists; split; [reflexivity| |reflexivity|]; simpl; auto 10.
Qed.

Lemma PlaceBet_cases amount p ok p' :
  PlaceBet amount p = (ok, p') ->
  (ok = false /\ p' = p /\ Chips p < amount) \/
  (ok = true /\ amount <= Chips p /\
    Chips p' = Chips p - amount /\ Bet p' = Bet p + amount /\
    Status p' = (if decide (Chips p - amount = 0) then AllInStatus else Status p) /\
    Cards p' = Cards p /\ ID p' = ID p /\ Name p' = Name p /\ Position p' = Position p).
Proof.
  intros Hpb. destruct (decide (Chips p < amount)) as [Hlt|Hge].
  - rewrite PlaceBet_reject in Hpb by done. simplify_eq. auto.
  - destruct (PlaceBet_accept amount p) as (p'' & Heq & ?); [lia|].
    rewrite Heq in Hpb. simplify_eq. right. destruct_and!. split_and!; done || lia.
Qed.

(** [PlaceBet] moves chips between the stack and the bet: their sum is
    unchanged, whatever the amount and the outcome. *)
Lemma PlaceBet_conserves amount p :
  Chips (snd (PlaceBet amount p)) + Bet (snd (PlaceBet amount p)) = Chips p + Bet p.
Proof.
  destruct (PlaceBet amount p) as [ok p'] eqn:E; simpl.
  apply PlaceBet_cases in E as [(_ & -> & _)|(_ & _ & -> & -> & _)]; lia.
Qed.

Lemma PlaceBet_Cards amount p : Cards (snd (PlaceBet amount p)) = Cards p.
Proof.
  destruct (PlaceBet amount p) as [ok p'] eqn:E; simpl.
  by apply PlaceBet_cases in E as [(_ & -> & _)|(_ & _ & _ & _ & _ & -> & _)].
Qed.

#[export] Hint Resolve PlaceBet_conserves PlaceBet_Cards : poker.

(** ** Theorems *)

(** C15: [PlaceBet] refuses an amount larger than the stack and leaves the
    player unchanged; otherwise it moves [amount] from the stack to the
    bet, flips the status to all-in exactly when the stack reaches zero,
    and changes nothing else. *)
Theorem PlaceBet_spec amount p ok p' :
  PlaceBet amount p = (ok, p') ->
  (ok = false <-> Chips p < amount) /\
  (ok = false -> p' = p) /\
  (ok = true ->
    Chips p' = Chips p - amount /\ Bet p' = Bet p + amount /\
    (Chips p' = 0 -> Status p' = AllInStatus) /\
    (Chips p' <> 0 -> Status p' = Status p) /\
    Cards p' = Cards p /\ ID p' = ID p /\ Name p' = Name p /\ Position p' = Position p).
Proof.
  intros [(-> & -> & Hlt)|(-> & Hle & Hc & Hb & Hs & Hrest)]%PlaceBet_cases.
  - split_and!; [split; [done|lia]|done|discriminate].
  - split_and!; [split; [discriminate|lia]|discriminate|].
    intros _. rewrite Hc. destruct_and!.
    split_and!; auto; intros Hz; rewrite Hs; case_decide; done || lia.
Qed.

(** C16: a non-negative bet preserves the per-seat invariant. *)
Theorem PlaceBet_wf amount p :
  0 <= amount -> player_wf p -> player_wf (snd (PlaceBet amount p)).
Proof.
  intros Ha (Hc & Hall & Hact). destruct (PlaceBet amount p) as [ok p'] eqn:E; simpl.
  apply PlaceBet_cases in E as [(_ & -> & _)|(_ & Hle & Hc' & _ & Hs & _)];
    simpl; [split_and!; auto|].
  unfold player_wf. rewrite Hc', Hs. case_decide; split_and!; try lia;
    unfold AllInStatus, Active in *; intros; lia.
Qed.

(** [ResetForNewHand] empties the hand and the bet and marks the
    player active exactly when the stack is positive, [Out] otherwise;
    from a non-negative stack it re-establishes the per-seat invariant. *)
Theorem ResetForNewHand_spec p :
  let p' := ResetForNewHand p in
  Cards p' = [] /\ Bet p' = 0 /\ Chips p' = Chips p /\
  (IsActive p' = true <-> 0 < Chips p) /\
  (Status p' = Out <-> Chips p <= 0) /\
  (0 <= Chips p -> player_wf p').
Proof.
  unfold ResetForNewHand, IsActive, player_wf, Active, Out, AllInStatus.
  case_decide; rewrite ?bool_decide_eq_true; simpl in *; split_and!; try done; intros; lia.
Qed.

(** Witnesses. *)
Definition sample_player : Player := NewPlayer "1" "Player 1" 1000 0.

Lemma PlaceBet_spec_witness :
  exists ok p', PlaceBet 10 sample_player = (ok, p') /\
  (ok = false <-> Chips sample_player < 10) /\ (ok = false -> p' = sample_player) /\
  (ok = true ->
    Chips p' = Chips sample_player - 10 /\ Bet p' = Bet sample_player + 10 /\
    (Chips p' = 0 -> Status p' = AllInStatus) /\
    (Chips p' <> 0 -> Status p' = Status sample_player) /\
    Cards p' = Cards sample_player /\ ID p' = ID sample_player /\
    Name p' = Name sample_player /\ Position p' = Position sample_player).
Proof.
  destruct (PlaceBet 10 sample_player) as [ok p'] eqn:E. exists ok, p'. split; [done|].
  exact (PlaceBet_spec 10 sample_player ok p' E).
Defined.

Lemma PlaceBet_wf_witness :
  0 <= 1000 /\ player_wf sample_player /\ player_wf (snd (PlaceBet 1000 sample_player)).
Proof.
  assert (Hwf : player_wf sample_player) by by_eval.
  split_and!; [lia|exact Hwf|]. apply PlaceBet_wf; [lia|exact Hwf].
Defined.

End Player.
