(* ===== verification/Hand.v ===== *)
(** * Hand evaluation ([src/pkg/game/hand.go])

    [HandRank] is a Go [int] type with the ten categories as constants;
    [HandEvaluation] is the struct.  [EvaluateHand] tries the categories
    from [RoyalFlush] down to [Pair] and falls back to [checkHighCard];
    every [check*] helper of the source is a placeholder returning
    [HighCard] with value 0, and is modelled as such.  [CompareHands]
    orders evaluations by category, then by [Value]. *)

From S2P Require Import Prelude Card.

Module Hand.
Open Scope Z_scope.

(** [type HandRank int] *)
Definition HandRank := Z.
Definition HighCard : HandRank := 0.
Definition Pair : HandRank := 1.
Definition TwoPair : HandRank := 2.
Definition ThreeOfAKind : HandRank := 3.
Definition Straight : HandRank := 4.
Definition Flush : HandRank := 5.
Definition FullHouse : HandRank := 6.
Definition FourOfAKind : HandRank := 7.
Definition StraightFlush : HandRank := 8.
Definition RoyalFlush : HandRank := 9.

(** [func (h HandRank) String() string] *)
Definition String (h : HandRank) : string :=
  if decide (h = HighCard) then "High Card"
  else if decide (h = Pair) then "Pair"
  else if decide (h = TwoPair) then "Two Pair"
  else if decide (h = ThreeOfAKind) then "Three of a Kind"
  else if decide (h = Straight) then "Straight"
  else if decide (h = Flush) then "Flush"
  else if decide (h = FullHouse) then "Full House"
  else if decide (h = FourOfAKind) then "Four of a Kind"
  else if decide (h = StraightFlush) then "Straight Flush"
  else if decide (h = RoyalFlush) then "Royal Flush"
  else "Unknown".

(** [type HandEvaluation struct { Rank HandRank; Cards []Card; Value int }] *)
Record HandEvaluation := MkHandEvaluation {
  Rank : HandRank;
  Cards : list Deck.Card;
  Value : Z
}.

(** The ten helpers, each a placeholder in the source. *)
Definition checkRoyalFlush (cards : list Deck.Card) : HandEvaluation :=
  MkHandEvaluation HighCard cards 0.
Definition checkStraightFlush (cards : list Deck.Card) : HandEvaluation :=
  MkHandEvaluation HighCard cards 0.
Definition checkFourOfAKind (cards : list Deck.Card) : HandEvaluation :=
  MkHandEvaluation HighCard cards 0.
Definition checkFullHouse (cards : list Deck.Card) : HandEvaluation :=
  MkHandEvaluation HighCard cards 0.
Definition checkFlush (cards : list Deck.Card) : HandEvaluation :=
  MkHandEvaluation HighCard cards 0.
Definition checkStraight (cards : list Deck.Card) : HandEvaluation :=
  MkHandEvaluation HighCard cards 0.
Definition checkThreeOfAKind (cards : list Deck.Card) : HandEvaluation :=
  MkHandEvaluation HighCard cards 0.
Definition checkTwoPair (cards : list Deck.Card) : HandEvaluation :=
  MkHandEvaluation HighCard cards 0.
Definition checkPair (cards : list Deck.Card) : HandEvaluation :=
  MkHandEvaluation HighCard cards 0.
Definition checkHighCard (cards : list Deck.Card) : HandEvaluation :=
  MkHandEvaluation HighCard cards 0.

(** [func EvaluateHand(cards []Card) HandEvaluation]: the first helper
    whose result carries its own category wins. *)
Definition EvaluateHand (cards : list Deck.Card) : HandEvaluation :=
  if decide (length cards < 5)%nat then MkHandEvaluation HighCard cards 0 else
  let royal := checkRoyalFlush cards in
  if decide (Rank royal = RoyalFlush) then royal else
  let straightFlush := checkStraightFlush cards in
  if decide (Rank straightFlush = StraightFlush) then straightFlush else
  let fourOfAKind := checkFourOfAKind cards in
  if decide (Rank fourOfAKind = FourOfAKind) then fourOfAKind else
  let fullHouse := checkFullHouse cards in
  if decide (Rank fullHouse = FullHouse) then fullHouse else
  let flush := checkFlush cards in
  if decide (Rank flush = Flush) then flush else
  let straight := checkStraight cards in
  if decide (Rank straight = Straight) then straight else
  let threeOfAKind := checkThreeOfAKind cards in
  if decide (Rank threeOfAKind = ThreeOfAKind) then threeOfAKind else
  let twoPair := checkTwoPair cards in
  if decide (Rank twoPair = TwoPair) then twoPair else
  let pair := checkPair cards in
  if decide (Rank pair = Pair) then pair else
  checkHighCard cards.

(** [func CompareHands(hand1, hand2 HandEvaluation) int] *)
Definition CompareHands (hand1 hand2 : HandEvaluation) : Z :=
  if decide (Rank hand1 > Rank hand2) then 1
  else if decide (Rank hand1 < Rank hand2) then -1
  else if decide (Value hand1 > Value hand2) then 1
  else if decide (Value hand1 < Value hand2) then -1
  else 0.

(** ** Lemmas *)

Lemma CompareHands_cases a b :
  (CompareHands a b = 1 <-> Rank a > Rank b \/ Rank a = Rank b /\ Value a > Value b) /\
  (CompareHands a b = -1 <-> Rank a < Rank b \/ Rank a = Rank b /\ Value a < Value b) /\
  (CompareHands a b = 0 <-> Rank a = Rank b /\ Value a = Value b).
Proof. unfold CompareHands. repeat case_decide; lia. Qed.

#[export] Instance CompareHands_ThreeWay : ThreeWay CompareHands.
Proof.
  split.
  - intros a b. unfold CompareHands. repeat case_decide; lia.
  - intros a b. unfold CompareHands. repeat case_decide; lia.
  - intros a b c. unfold CompareHands. repeat case_decide; lia.
Qed.

(** ** Theorems *)

(** C35: [CompareHands] is the lexicographic order on (category, value):
    it answers [1] when the first hand has the higher category, or the
    same category and the higher value, [-1] symmetrically, and [0]
    exactly when both category and value agree. *)
Theorem CompareHands_lex a b :
  (CompareHands a b = 1 <-> Rank a > Rank b \/ Rank a = Rank b /\ Value a > Value b) /\
  (CompareHands a b = -1 <-> Rank b > Rank a \/ Rank a = Rank b /\ Value b > Value a) /\
  (CompareHands a b = 0 <-> Rank a = Rank b /\ Value a = Value b).
Proof. destruct (CompareHands_cases a b) as (H1 & H2 & H3). rewrite H1, H2, H3. lia. Qed.


(** C34: every hand-ranking helper of the source is a placeholder, so
    [EvaluateHand] answers [HighCard] with value 0 for every input. *)
Theorem EvaluateHand_placeholder cards :
  EvaluateHand cards = MkHandEvaluation HighCard cards 0.
Proof. unfold EvaluateHand. by repeat case_decide. Qed.

(** As a consequence, a showdown that picks the best evaluations with
    [CompareHands] declares every player a winner: all hands tie. *)
Theorem showdown_everyone_ties (hands : list (list Deck.Card)) :
  best_of CompareHands (EvaluateHand <$> hands) = EvaluateHand <$> hands.
Proof.
  unfold best_of. apply filter_all_true. intros x Hx. apply Forall_forall.
  intros y Hy. apply list_elem_of_fmap in Hx as (cx & -> & _).
  apply list_elem_of_fmap in Hy as (cy & -> & _).
  unfold CompareHands, EvaluateHand. repeat case_decide; simpl in *; lia.
Qed.


End Hand.
