(* ===== verification/Game.v ===== *)
(** * The table and its betting state machine ([src/pkg/game/game.go])

    [GameState] is the struct of the source; its [Players] slice of
    pointers is a list of players (the engine reaches a player only
    through [g.Players[i]], so a method call through that pointer is a
    store at index [i]); its [*Deck] is the deck value.  Every method is
    a function from the state to the new state; a method that can panic
    (an index out of range, [% 0] on an empty table) returns [option],
    [None] being the panic.  [ProcessAction], which builds on these
    operations, is in [Betting]. *)

From S2P Require Import Prelude Card Player Hand.

Module Game.
Open Scope Z_scope.

(** [type GamePhase int] *)
Definition GamePhase := Z.
Definition PreFlop : GamePhase := 0.
Definition Flop : GamePhase := 1.
Definition Turn : GamePhase := 2.
Definition River : GamePhase := 3.
Definition Showdown : GamePhase := 4.

(** [func (p GamePhase) String() string] *)
Definition String (p : GamePhase) : string :=
  if decide (p = PreFlop) then "Pre-Flop"
  else if decide (p = Flop) then "Flop"
  else if decide (p = Turn) then "Turn"
  else if decide (p = River) then "River"
  else if decide (p = Showdown) then "Showdown"
  else "Unknown".

(** [type GameState struct] *)
Record GameState := MkGameState {
  Players : list Player.Player;
  Deck : Deck.Deck;
  CommunityCards : list Deck.Card;
  CurrentPhase : GamePhase;
  Pot : Z;
  CurrentBet : Z;
  SmallBlind : Z;
  BigBlind : Z;
  DealerPos : Z;
  CurrentPos : Z;
  LastRaisePos : Z;
  MinRaise : Z
}.

(** Field assignments [g.F = v]. *)
Definition set_Players v g := MkGameState v (Deck g) (CommunityCards g) (CurrentPhase g) (Pot g)
  (CurrentBet g) (SmallBlind g) (BigBlind g) (DealerPos g) (CurrentPos g) (LastRaisePos g) (MinRaise g).
Definition set_Deck v g := MkGameState (Players g) v (CommunityCards g) (CurrentPhase g) (Pot g)
  (CurrentBet g) (SmallBlind g) (BigBlind g) (DealerPos g) (CurrentPos g) (LastRaisePos g) (MinRaise g).
Definition set_CommunityCards v g := MkGameState (Players g) (Deck g) v (CurrentPhase g) (Pot g)
  (CurrentBet g) (SmallBlind g) (BigBlind g) (DealerPos g) (CurrentPos g) (LastRaisePos g) (MinRaise g).
Definition set_CurrentPhase v g := MkGameState (Players g) (Deck g) (CommunityCards g) v (Pot g)
  (CurrentBet g) (SmallBlind g) (BigBlind g) (DealerPos g) (CurrentPos g) (LastRaisePos g) (MinRaise g).
Definition set_Pot v g := MkGameState (Players g) (Deck g) (CommunityCards g) (CurrentPhase g) v
  (CurrentBet g) (SmallBlind g) (BigBlind g) (DealerPos g) (CurrentPos g) (LastRaisePos g) (MinRaise g).
Definition set_CurrentBet v g := MkGameState (Players g) (Deck g) (CommunityCards g) (CurrentPhase g)
  (Pot g) v (SmallBlind g) (BigBlind g) (DealerPos g) (CurrentPos g) (LastRaisePos g) (MinRaise g).
Definition set_DealerPos v g := MkGameState (Players g) (Deck g) (CommunityCards g) (CurrentPhase g)
  (Pot g) (CurrentBet g) (SmallBlind g) (BigBlind g) v (CurrentPos g) (LastRaisePos g) (MinRaise g).
Definition set_CurrentPos v g := MkGameState (Players g) (Deck g) (CommunityCards g) (CurrentPhase g)
  (Pot g) (CurrentBet g) (SmallBlind g) (BigBlind g) (DealerPos g) v (LastRaisePos g) (MinRaise g).
Definition set_LastRaisePos v g := MkGameState (Players g) (Deck g) (CommunityCards g) (CurrentPhase g)
  (Pot g) (CurrentBet g) (SmallBlind g) (BigBlind g) (DealerPos g) (CurrentPos g) v (MinRaise g).
Definition set_MinRaise v g := MkGameState (Players g) (Deck g) (CommunityCards g) (CurrentPhase g)
  (Pot g) (CurrentBet g) (SmallBlind g) (BigBlind g) (DealerPos g) (CurrentPos g) (LastRaisePos g) v.

(** A method call through the pointer [g.Players[i]]. *)
Definition set_player (i : Z) (p : Player.Player) (g : GameState) : GameState :=
  set_Players ((Players g).[i := p]) g.

(** [func NewGameState(players []*Player, smallBlind, bigBlind int) *GameState] *)
Definition NewGameState (players : list Player.Player) (smallBlind bigBlind : Z) : GameState :=
  MkGameState players Deck.NewDeck [] PreFlop 0 0 smallBlind bigBlind 0 0 (-1) bigBlind.

(** The loop of [findNextActivePosition]: at most [len(g.Players)] seats
    are inspected, clockwise from [nextPos]. *)
Fixpoint scan_active (ps : list Player.Player) (n nextPos : Z) (fuel : nat) (pos : Z)
    : option Z :=
  match fuel with
  | O => Some pos
  | S fuel' =>
      p ← ps.[nextPos];
      if Player.IsActive p then Some nextPos
      else nextPos' ← go_rem (nextPos + 1) n; scan_active ps n nextPos' fuel' pos
  end.

(** [func (g *GameState) findNextActivePosition(pos int) int] *)
Definition findNextActivePosition (g : GameState) (pos : Z) : option Z :=
  let n := go_len (Players g) in
  nextPos ← go_rem (pos + 1) n;
  scan_active (Players g) n nextPos (length (Players g)) pos.

(** [func (g *GameState) countActivePlayers() int] *)
Definition countActivePlayers (g : GameState) : Z :=
  sumZ (fun p => if Player.IsActive p then 1 else 0) (Players g).

(** [_, _ = g.Deck.DrawOne()] *)
Definition burn (g : GameState) : GameState := set_Deck (snd (Deck.DrawOne (Deck g))) g.

(** [card, ok := g.Deck.DrawOne(); if ok { g.CommunityCards = append(g.CommunityCards, card) }] *)
Definition drawCommunity (g : GameState) : GameState :=
  let '((card, ok), d) := Deck.DrawOne (Deck g) in
  let g := set_Deck d g in
  if ok then set_CommunityCards (CommunityCards g ++ [card]) g else g.

(** The common tail of [DealFlop], [DealTurn] and [DealRiver]. *)
Definition openStreet (phase : GamePhase) (g : GameState) : option GameState :=
  let g := set_CurrentPhase phase g in
  let g := set_CurrentBet 0 g in
  let g := set_LastRaisePos (-1) g in
  pos ← findNextActivePosition g (DealerPos g);
  Some (set_CurrentPos pos g).

(** [func (g *GameState) DealFlop()] *)
Definition DealFlop (g : GameState) : option GameState :=
  if decide (CurrentPhase g <> PreFlop) then Some g else
  let g := burn g in
  let g := Nat.iter 3 drawCommunity g in
  openStreet Flop g.

(** [func (g *GameState) DealTurn()] *)
Definition DealTurn (g : GameState) : option GameState :=
  if decide (CurrentPhase g <> Flop) then Some g else
  let g := burn g in
  let g := drawCommunity g in
  openStreet Turn g.

(** [func (g *GameState) DealRiver()] *)
Definition DealRiver (g : GameState) : option GameState :=
  if decide (CurrentPhase g <> Turn) then Some g else
  let g := burn g in
  let g := drawCommunity g in
  openStreet River g.

(** [func (g *GameState) determineWinners()]: a placeholder in the source. *)
Definition determineWinners (g : GameState) : GameState := g.

(** [func (g *GameState) advancePhase()] *)
Definition advancePhase (g : GameState) : option GameState :=
  if decide (CurrentPhase g = PreFlop) then DealFlop g
  else if decide (CurrentPhase g = Flop) then DealTurn g
  else if decide (CurrentPhase g = Turn) then DealRiver g
  else if decide (CurrentPhase g = River) then
    Some (determineWinners (set_CurrentPhase Showdown g))
  else Some g.

(** One pass of the dealing loop: [for _, p := range g.Players]. *)
Fixpoint dealPass (d : Deck.Deck) (ps : list Player.Player) : Deck.Deck * list Player.Player :=
  match ps with
  | [] => (d, [])
  | p :: ps' =>
      if Player.IsActive p || bool_decide (Player.Status p = Player.AllInStatus) then
        let '((card, ok), d) := Deck.DrawOne d in
        let p := if ok then Player.set_Cards (Player.Cards p ++ [card]) p else p in
        let '(d, ps') := dealPass d ps' in (d, p :: ps')
      else let '(d, ps') := dealPass d ps' in (d, p :: ps')
  end.

(** [for i := 0; i < 2; i++ { ... }]: two passes, one card per player per pass. *)
Definition dealHoleCards (g : GameState) : GameState :=
  let '(d, ps) := Nat.iter 2 (fun st => dealPass st.1 st.2) (Deck g, Players g) in
  set_Players ps (set_Deck d g).

(** The "Reset game state" and "Reset players for new hand" blocks of
    [StartNewHand], for the deck that [NewDeck(); Shuffle()] produced. *)
Definition resetHand (deck : Deck.Deck) (g : GameState) : GameState :=
  let g := set_Deck deck g in
  let g := set_CommunityCards [] g in
  let g := set_CurrentPhase PreFlop g in
  let g := set_Pot 0 g in
  let g := set_CurrentBet 0 g in
  let g := set_LastRaisePos (-1) g in
  let g := set_MinRaise (BigBlind g) g in
  set_Players (Player.ResetForNewHand <$> Players g) g.

(** [g.Players[pos].PlaceBet(amount)]: the index panics out of range and
    the boolean result is dropped. *)
Definition postBlind (pos amount : Z) (g : GameState) : option GameState :=
  p ← (Players g).[pos];
  Some (set_player pos (snd (Player.PlaceBet amount p)) g).

(** [func (g *GameState) StartNewHand()]; [rnd] is the shuffle's random source. *)
Definition StartNewHand (rnd : nat -> nat) (g : GameState) : option GameState :=
  let g := resetHand (Deck.Shuffle rnd Deck.NewDeck) g in
  dealer ← go_rem (DealerPos g + 1) (go_len (Players g));
  let g := set_DealerPos dealer g in
  sbPos ← findNextActivePosition g (DealerPos g);
  g ← postBlind sbPos (SmallBlind g) g;
  bbPos ← findNextActivePosition g sbPos;
  g ← postBlind bbPos (BigBlind g) g;
  let g := set_CurrentBet (BigBlind g) g in
  let g := dealHoleCards g in
  pos ← findNextActivePosition g bbPos;
  Some (set_CurrentPos pos g).

(** [func (g *GameState) GetCurrentPlayer() *Player] *)
Definition GetCurrentPlayer (g : GameState) : option Player.Player := (Players g).[CurrentPos g].

(** [func (g *GameState) IsHandOver() bool] *)
Definition IsHandOver (g : GameState) : bool :=
  bool_decide (CurrentPhase g = Showdown) || bool_decide (countActivePlayers g <= 1).

(** ** Seats and the clockwise scan *)

(** Whether seat [i] holds an active player. *)
Definition seat_active (ps : list Player.Player) (i : Z) : bool :=
  match ps.[i] with Some p => Player.IsActive p | None => false end.

Lemma go_rem_pos a n : 0 <= a -> 0 < n -> go_rem a n = Some (a mod n).
Proof. intros Ha Hn. unfold go_rem. rewrite decide_False by lia. f_equal. by apply Z.rem_mod_nonneg. Qed.

Lemma scan_active_spec ps n q f pos :
  n = go_len ps -> 0 <= q < n ->
  exists r, scan_active ps n q f pos = Some r /\
   ((exists k, (k < f)%nat /\ r = (q + Z.of_nat k) mod n /\ seat_active ps r = true /\
       forall k', (k' < k)%nat -> seat_active ps ((q + Z.of_nat k') mod n) = false)
    \/ (r = pos /\ forall k, (k < f)%nat -> seat_active ps ((q + Z.of_nat k) mod n) = false)).
Proof.
  intros Hn. revert q. induction f as [|f IH]; intros q Hq; simpl.
  - eexists; split; [done|]. right. split; [done|lia].
  - destruct (go_index_in_range ps q) as [p Hp]; [lia|]. rewrite Hp. simpl.
    assert (Hq0 : (q + Z.of_nat 0) mod n = q) by (rewrite Z.add_0_r; apply Z.mod_small; lia).
    destruct (Player.IsActive p) eqn:Ha.
    + eexists; split; [done|]. left. exists 0%nat. split_and!; [lia|by rewrite Hq0|..].
      * unfold seat_active. by rewrite Hp.
      * lia.
    + rewrite go_rem_pos by lia. simpl.
      assert (Hshift : forall k, ((q + 1) mod n + Z.of_nat k) mod n = (q + Z.of_nat (S k)) mod n).
      { intros k. rewrite Z.add_mod_idemp_l by lia. f_equal. lia. }
      assert (Hnq : seat_active ps ((q + Z.of_nat 0) mod n) = false).
      { rewrite Hq0. unfold seat_active. by rewrite Hp. }
      destruct (IH ((q + 1) mod n)) as (r & Hr & Hcase); [apply Z.mod_pos_bound; lia|].
      exists r. split; [done|].
      destruct Hcase as [(k & Hk & Hreq & Hact & Hbefore)|(Hreq & Hnone)].
      * left. exists (S k). rewrite <-Hshift. split_and!; [lia|done|done|].
        intros [|k'] Hk'; [done|]. rewrite <-Hshift. apply Hbefore. lia.
      * right. split; [done|]. intros [|k] Hk; [done|]. rewrite <-Hshift. apply Hnone. lia.
Qed.

(** C13: [findNextActivePosition pos] is the first active seat strictly
    clockwise from [pos] within one rotation, or [pos] itself when no
    seat is active; it panics only on an empty table. *)
Lemma findNextActivePosition_spec g pos :
  0 < go_len (Players g) -> -1 <= pos ->
  exists r, findNextActivePosition g pos = Some r /\
   ((exists k, 1 <= k <= go_len (Players g) /\ r = (pos + k) mod go_len (Players g) /\
       seat_active (Players g) r = true /\
       forall k', 1 <= k' < k -> seat_active (Players g) ((pos + k') mod go_len (Players g)) = false)
    \/ (r = pos /\ forall k, 1 <= k <= go_len (Players g) ->
          seat_active (Players g) ((pos + k) mod go_len (Players g)) = false)).
Proof.
  intros Hn Hpos. unfold findNextActivePosition. rewrite go_rem_pos by lia. simpl.
  set (n := go_len (Players g)) in *.
  assert (Hshift : forall k, ((pos + 1) mod n + k) mod n = (pos + (k + 1)) mod n).
  { intros k. rewrite Z.add_mod_idemp_l by lia. f_equal. lia. }
  destruct (scan_active_spec (Players g) n ((pos + 1) mod n) (length (Players g)) pos)
    as (r & Hr & Hcase); [done|apply Z.mod_pos_bound; lia|].
  exists r. split; [done|].
  destruct Hcase as [(k & Hk & -> & Hact & Hbefore)|(-> & Hnone)].
  - left. exists (Z.of_nat k + 1). rewrite <-Hshift.
    split; [unfold n, go_len in *; lia|]. split; [done|]. split; [done|].
    intros k' Hk'. replace k' with (Z.of_nat (Z.to_nat (k' - 1)) + 1) by lia.
    rewrite <-Hshift. apply Hbefore. lia.
  - right. split; [done|]. intros k Hk.
    replace k with (Z.of_nat (Z.to_nat (k - 1)) + 1) by lia.
    rewrite <-Hshift. apply Hnone. unfold n, go_len in *. lia.
Qed.

Lemma findNextActivePosition_range g pos :
  0 < go_len (Players g) -> 0 <= pos < go_len (Players g) ->
  exists r, findNextActivePosition g pos = Some r /\ 0 <= r < go_len (Players g).
Proof.
  intros Hn Hpos. unfold findNextActivePosition. rewrite go_rem_pos by lia. simpl.
  destruct (scan_active_spec (Players g) (go_len (Players g)) ((pos + 1) mod go_len (Players g))
    (length (Players g)) pos) as (r & Hr & Hcase); [done|apply Z.mod_pos_bound; lia|].
  exists r. split; [done|].
  destruct Hcase as [(k & _ & -> & _)|(-> & _)]; [apply Z.mod_pos_bound|]; lia.
Qed.

(** [findNextActivePosition] reads only the seats. *)
Lemma findNextActivePosition_players g g' pos :
  Players g' = Players g -> findNextActivePosition g' pos = findNextActivePosition g pos.
Proof. intros H. unfold findNextActivePosition. by rewrite H. Qed.

(** ** The street transitions *)

(** The transition table of [advancePhase] (spec, section 9): each
    street leads to the next one, [Showdown] (and any other value) stays. *)
Definition next_phase (p : GamePhase) : GamePhase :=
  if decide (p = PreFlop) then Flop
  else if decide (p = Flop) then Turn
  else if decide (p = Turn) then River
  else if decide (p = River) then Showdown
  else p.

(** What dealing a street leaves alone: the seats, the pot, the blinds
    and the button. *)
Definition chips_frame (g g' : GameState) : Prop :=
  Players g' = Players g /\ Pot g' = Pot g /\ SmallBlind g' = SmallBlind g /\
  BigBlind g' = BigBlind g /\ DealerPos g' = DealerPos g.

#[export] Instance chips_frame_preorder : PreOrder chips_frame.
Proof.
  split; [intros g; by split_and!|].
  intros g1 g2 g3 (?&?&?&?&?) (?&?&?&?&?). split_and!; congruence.
Qed.

Lemma burn_frame g : chips_frame g (burn g) /\ CommunityCards (burn g) = CommunityCards g.
Proof. done. Qed.

Lemma drawCommunity_frame g :
  chips_frame g (drawCommunity g) /\ CurrentPhase (drawCommunity g) = CurrentPhase g.
Proof. unfold drawCommunity. destruct (Deck.DrawOne (Deck g)) as [[c []] d]; done. Qed.

Lemma drawCommunity_proj g :
  Players (drawCommunity g) = Players g /\ Pot (drawCommunity g) = Pot g /\
  DealerPos (drawCommunity g) = DealerPos g /\ CurrentPos (drawCommunity g) = CurrentPos g /\
  CurrentPhase (drawCommunity g) = CurrentPhase g /\ CurrentBet (drawCommunity g) = CurrentBet g /\
  LastRaisePos (drawCommunity g) = LastRaisePos g /\ MinRaise (drawCommunity g) = MinRaise g.
Proof. unfold drawCommunity. destruct (Deck.DrawOne (Deck g)) as [[c []] d]; done. Qed.

Lemma drawCommunity_Players g : Players (drawCommunity g) = Players g.
Proof. apply drawCommunity_proj. Qed.
Lemma drawCommunity_Pot g : Pot (drawCommunity g) = Pot g.
Proof. apply drawCommunity_proj. Qed.
Lemma drawCommunity_DealerPos g : DealerPos (drawCommunity g) = DealerPos g.
Proof. apply drawCommunity_proj. Qed.
Lemma drawCommunity_CurrentPos g : CurrentPos (drawCommunity g) = CurrentPos g.
Proof. apply drawCommunity_proj. Qed.
Lemma drawCommunity_CurrentPhase g : CurrentPhase (drawCommunity g) = CurrentPhase g.
Proof. apply drawCommunity_proj. Qed.
Lemma drawCommunity_CurrentBet g : CurrentBet (drawCommunity g) = CurrentBet g.
Proof. apply drawCommunity_proj. Qed.
Lemma drawCommunity_LastRaisePos g : LastRaisePos (drawCommunity g) = LastRaisePos g.
Proof. apply drawCommunity_proj. Qed.
Lemma drawCommunity_MinRaise g : MinRaise (drawCommunity g) = MinRaise g.
Proof. apply drawCommunity_proj. Qed.

#[export] Hint Rewrite drawCommunity_Players drawCommunity_Pot drawCommunity_DealerPos
  drawCommunity_CurrentPos drawCommunity_CurrentPhase drawCommunity_CurrentBet
  drawCommunity_LastRaisePos drawCommunity_MinRaise : poker.

Lemma iter_drawCommunity_frame k g :
  chips_frame g (Nat.iter k drawCommunity g) /\
  CurrentPhase (Nat.iter k drawCommunity g) = CurrentPhase g.
Proof.
  induction k as [|k [IHf IHp]]; simpl; [done|].
  destruct (drawCommunity_frame (Nat.iter k drawCommunity g)) as [Hf Hp].
  split; [by etrans|congruence].
Qed.

Lemma openStreet_spec phase g g' :
  openStreet phase g = Some g' ->
  chips_frame g g' /\ CurrentPhase g' = phase /\ CurrentBet g' = 0 /\
  LastRaisePos g' = -1 /\ MinRaise g' = MinRaise g /\
  Deck g' = Deck g /\ CommunityCards g' = CommunityCards g /\
  findNextActivePosition g (DealerPos g) = Some (CurrentPos g').
Proof.
  unfold openStreet. intros Hg'.
  destruct (findNextActivePosition _ _) as [pos|] eqn:Hpos; simplify_eq/=.
  split_and!; done.
Qed.

(** The common shape of [DealFlop], [DealTurn] and [DealRiver]: a no-op
    off their street; on it, the next street is opened after burning and
    drawing [k] cards. *)
Lemma deal_street_spec (from to : GamePhase) (k : nat) (deal : GameState -> option GameState) g g' :
  (forall g, deal g = if decide (CurrentPhase g <> from) then Some g
                      else openStreet to (Nat.iter k drawCommunity (burn g))) ->
  deal g = Some g' ->
  chips_frame g g' /\
  CurrentPhase g' = (if decide (CurrentPhase g = from) then to else CurrentPhase g).
Proof.
  intros Hdeal. rewrite Hdeal. case_decide as Hph.
  - intros [=<-]. rewrite decide_False by done. done.
  - intros (Hf & Hp & _)%openStreet_spec. rewrite decide_True by tauto.
    split; [|done]. etrans; [apply burn_frame|]. etrans; [apply iter_drawCommunity_frame|done].
Qed.

Lemma DealFlop_spec g g' :
  DealFlop g = Some g' ->
  chips_frame g g' /\ CurrentPhase g' = (if decide (CurrentPhase g = PreFlop) then Flop else CurrentPhase g).
Proof. apply (deal_street_spec PreFlop Flop 3). done. Qed.

Lemma DealTurn_spec g g' :
  DealTurn g = Some g' ->
  chips_frame g g' /\ CurrentPhase g' = (if decide (CurrentPhase g = Flop) then Turn else CurrentPhase g).
Proof. apply (deal_street_spec Flop Turn 1). done. Qed.

Lemma DealRiver_spec g g' :
  DealRiver g = Some g' ->
  chips_frame g g' /\ CurrentPhase g' = (if decide (CurrentPhase g = Turn) then River else CurrentPhase g).
Proof. apply (deal_street_spec Turn River 1). done. Qed.

(** [advancePhase] follows the transition table and moves no chips. *)
Lemma advancePhase_spec g g' :
  advancePhase g = Some g' ->
  chips_frame g g' /\ CurrentPhase g' = next_phase (CurrentPhase g).
Proof.
  unfold advancePhase, next_phase. case_decide as H1.
  { intros (? & ->)%DealFlop_spec. by rewrite !decide_True. }
  case_decide as H2.
  { intros (? & ->)%DealTurn_spec. by rewrite !decide_True. }
  case_decide as H3.
  { intros (? & ->)%DealRiver_spec. by rewrite !decide_True. }
  case_decide; intros [=<-]; done.
Qed.

(** When the phase does not move, [advancePhase] did nothing. *)
Lemma advancePhase_same g g' :
  advancePhase g = Some g' -> CurrentPhase g' = CurrentPhase g -> g' = g.
Proof.
  intros Hadv Hph. pose proof (advancePhase_spec g g' Hadv) as [_ Hn].
  revert Hadv. unfold advancePhase. unfold next_phase in Hn.
  repeat case_decide; unfold PreFlop, Flop, Turn, River, Showdown in *; try lia.
  by intros [=<-].
Qed.

(** ** Well-formed tables

    The seats are non-empty and the button is a seat ([seats_wf]); the
    acting seat is a seat too ([table_wf]).  Under this invariant no
    method of the table panics. *)
Definition seats_wf (g : GameState) : Prop :=
  0 < go_len (Players g) /\ 0 <= DealerPos g < go_len (Players g).

Definition table_wf (g : GameState) : Prop :=
  seats_wf g /\ 0 <= CurrentPos g < go_len (Players g).

Lemma chips_frame_seats_wf g g' : chips_frame g g' -> seats_wf g -> seats_wf g'.
Proof. intros (Hp & _ & _ & _ & Hd). unfold seats_wf. by rewrite Hp, Hd. Qed.

Lemma openStreet_total phase g :
  seats_wf g -> exists g', openStreet phase g = Some g' /\ table_wf g'.
Proof.
  intros [Hn Hd].
  destruct (findNextActivePosition_range g (DealerPos g)) as (r & Hr & Hrange); [done|done|].
  unfold openStreet. simpl. rewrite (findNextActivePosition_players g) by done.
  rewrite Hr. eexists; split; [done|]. unfold table_wf, seats_wf; simpl. auto.
Qed.

Lemma deal_street_total (from to : GamePhase) (k : nat) (deal : GameState -> option GameState) g :
  (forall g, deal g = if decide (CurrentPhase g <> from) then Some g
                      else openStreet to (Nat.iter k drawCommunity (burn g))) ->
  table_wf g -> exists g', deal g = Some g' /\ table_wf g'.
Proof.
  intros Hdeal [Hs Hc]. rewrite Hdeal. case_decide; [by eexists|].
  apply openStreet_total. eapply chips_frame_seats_wf; [|eapply chips_frame_seats_wf; [|exact Hs]].
  - apply iter_drawCommunity_frame.
  - apply burn_frame.
Qed.

(** [advancePhase] never panics on a well-formed table, and keeps it so. *)
Lemma advancePhase_total g :
  table_wf g -> exists g', advancePhase g = Some g' /\ table_wf g'.
Proof.
  intros Hwf. unfold advancePhase.
  case_decide; [by apply (deal_street_total PreFlop Flop 3)|].
  case_decide; [by apply (deal_street_total Flop Turn 1)|].
  case_decide; [by apply (deal_street_total Turn River 1)|].
  case_decide; by eexists.
Qed.

#[export] Instance seats_wf_dec g : Decision (seats_wf g).
Proof. unfold seats_wf. apply _. Defined.
#[export] Instance table_wf_dec g : Decision (table_wf g).
Proof. unfold table_wf. apply _. Defined.

(** ** The table of [run] ([src/cmd/poker/main.go])

    Four players with 1000 chips each, blinds 5 and 10, and the first
    hand dealt with the shuffle's random source [rnd]. *)
Definition sample_players : list Player.Player :=
  [Player.NewPlayer "1" "Player 1" 1000 0; Player.NewPlayer "2" "Player 2" 1000 1;
   Player.NewPlayer "3" "Player 3" 1000 2; Player.NewPlayer "4" "Player 4" 1000 3].

Definition sample_game : GameState := NewGameState sample_players 5 10.

(** The first hand of [run] under a fixed random source. *)
Definition sample_hand : GameState :=
  default sample_game (StartNewHand (fun _ => 0%nat) sample_game).

(** A table whose second seat has busted: its stack is 0. *)
Definition busted_game : GameState :=
  NewGameState [Player.NewPlayer "1" "Player 1" 1000 0; Player.NewPlayer "2" "Player 2" 0 1;
                Player.NewPlayer "3" "Player 3" 1000 2; Player.NewPlayer "4" "Player 4" 1000 3] 5 10.

Definition busted_hand : GameState :=
  default busted_game (StartNewHand (fun _ => 0%nat) busted_game).

(** ** Starting a hand *)

(** Dealing touches only the hole cards and the deck. *)
Lemma dealPass_keeps {B} (h : Player.Player -> B) d ps :
  (forall p cs, h (Player.set_Cards cs p) = h p) -> h <$> (dealPass d ps).2 = h <$> ps.
Proof.
  intros Hh. revert d. induction ps as [|p ps IH]; intros d; [done|]. simpl.
  destruct (Player.IsActive p || _).
  - destruct (Deck.DrawOne d) as [[c ok] d1]. specialize (IH d1).
    destruct (dealPass d1 ps) as [d2 ps']. simpl in *. f_equal; [|exact IH].
    destruct ok; [apply Hh|done].
  - specialize (IH d). destruct (dealPass d ps) as [d2 ps']. simpl in *. f_equal. exact IH.
Qed.

Lemma dealHoleCards_keeps {B} (h : Player.Player -> B) g :
  (forall p cs, h (Player.set_Cards cs p) = h p) ->
  h <$> Players (dealHoleCards g) = h <$> Players g.
Proof.
  intros Hh. unfold dealHoleCards. simpl.
  destruct (dealPass (Deck g) (Players g)) as [d1 ps1] eqn:E1. simpl.
  destruct (dealPass d1 ps1) as [d2 ps2] eqn:E2. simpl.
  pose proof (dealPass_keeps h d1 ps1 Hh) as H2. rewrite E2 in H2.
  pose proof (dealPass_keeps h (Deck g) (Players g) Hh) as H1. rewrite E1 in H1.
  simpl in *. congruence.
Qed.

Lemma dealHoleCards_proj g :
  Pot (dealHoleCards g) = Pot g /\ DealerPos (dealHoleCards g) = DealerPos g /\
  CurrentPhase (dealHoleCards g) = CurrentPhase g /\ CommunityCards (dealHoleCards g) = CommunityCards g /\
  length (Players (dealHoleCards g)) = length (Players g).
Proof.
  unfold dealHoleCards. simpl.
  pose proof (dealHoleCards_keeps (fun _ => tt) g (fun _ _ => eq_refl)) as Hl.
  unfold dealHoleCards in Hl. simpl in Hl.
  destruct (dealPass (dealPass (Deck g) (Players g)).1 (dealPass (Deck g) (Players g)).2) as [d ps].
  simpl in *. split_and!; try done. by rewrite <-(length_fmap (fun _ => tt)), Hl, length_fmap.
Qed.

(** Opens the six steps of [StartNewHand] in a hypothesis [H] introduced
    after unfolding it in the goal (unfolding it in [H] instead leaves the
    kernel a conversion it is slow to check); the shuffled deck, on which
    none of these proofs depends, is generalised. *)
Ltac intros_StartNewHand H :=
  unfold StartNewHand;
  match goal with |- context [Deck.Shuffle ?r Deck.NewDeck] => generalize (Deck.Shuffle r Deck.NewDeck) end;
  let deck := fresh "deck" in intros deck H;
  apply bind_Some in H as (dealer & Hdealer & H);
  apply bind_Some in H as (sbPos & HsbPos & H);
  apply bind_Some in H as (g1 & Hsb & H);
  apply bind_Some in H as (bbPos & HbbPos & H);
  apply bind_Some in H as (g2 & Hbb & H);
  apply bind_Some in H as (pos & Hpos & H); injection H as <-.

Lemma postBlind_inv i amount g g' :
  postBlind i amount g = Some g' ->
  exists p, (Players g).[i] = Some p /\ g' = set_player i (snd (Player.PlaceBet amount p)) g.
Proof. unfold postBlind. intros (p & ? & [= <-])%bind_Some. eauto. Qed.

Definition stake (p : Player.Player) : Z := Player.Chips p + Player.Bet p.

(** Posting a blind moves chips from a stack to the same player's bet. *)
Lemma postBlind_stake i amount g g' :
  postBlind i amount g = Some g' -> sumZ stake (Players g') = sumZ stake (Players g).
Proof.
  intros (p & Hp & ->)%postBlind_inv. unfold set_player. simpl. rewrite (sumZ_store _ _ _ _ p) by done.
  unfold stake. pose proof (Player.PlaceBet_conserves amount p). lia.
Qed.

Lemma resetHand_stake deck g :
  sumZ stake (Players (resetHand deck g)) = sumZ Player.Chips (Players g).
Proof.
  cbn [resetHand Players set_Players set_MinRaise set_LastRaisePos set_CurrentBet set_Pot
    set_CurrentPhase set_CommunityCards set_Deck]. induction (Players g) as [|p ps IH]; [done|].
  rewrite fmap_cons; cbn [sumZ]; rewrite IH. unfold stake, Player.ResetForNewHand. case_decide; simpl; lia.
Qed.

(** C6: [StartNewHand] empties the pot (an undistributed pot is lost) and
    posts the blinds into the players' bets but never into the pot: after
    it, the stacks plus the bets equal the stacks before it, and the pot
    is zero, so the chips of the blinds are in no pot to be won. *)
Theorem StartNewHand_blinds_outside_pot rnd g g' :
  StartNewHand rnd g = Some g' ->
  Pot g' = 0 /\ sumZ Player.Chips (Players g') + sumZ Player.Bet (Players g') =
                 sumZ Player.Chips (Players g).
Proof.
  intros_StartNewHand H. split.
  - cbn [Pot set_CurrentPos]. rewrite (proj1 (dealHoleCards_proj _)).
    apply postBlind_inv in Hbb as (? & _ & ->). apply postBlind_inv in Hsb as (? & _ & ->). reflexivity.
  - cbn [Players set_CurrentPos]. rewrite sumZ_add. fold stake.
    rewrite (sumZ_fmap_eq stake _ _ (dealHoleCards_keeps stake _ (fun _ _ => eq_refl))).
    cbn [Players set_CurrentBet]. rewrite (postBlind_stake _ _ _ _ Hbb), (postBlind_stake _ _ _ _ Hsb).
    cbn [Players set_DealerPos]. apply resetHand_stake.
Qed.

(** C14: the button moves one seat clockwise, [(DealerPos+1) % len], whatever
    the status of that seat: a busted ([Out]) seat still gets the button,
    where the comment "Move dealer button" and the rules move it to the
    next player still in the game. *)
Theorem StartNewHand_button_ignores_status rnd g g' :
  StartNewHand rnd g = Some g' ->
  go_rem (DealerPos g + 1) (go_len (Players g)) = Some (DealerPos g').
Proof.
  intros_StartNewHand H.
  cbn [DealerPos set_CurrentPos]. rewrite (proj1 (proj2 (dealHoleCards_proj _))).
  apply postBlind_inv in Hbb as (? & _ & ->). apply postBlind_inv in Hsb as (? & _ & ->).
  cbn [DealerPos set_CurrentBet set_player set_Players set_DealerPos].
  rewrite <-Hdealer. unfold go_len. cbn [resetHand Players set_Players DealerPos set_MinRaise
    set_LastRaisePos set_CurrentBet set_Pot set_CurrentPhase set_CommunityCards set_Deck].
  by rewrite length_fmap.
Qed.

(** Witnesses. *)
Lemma StartNewHand_blinds_outside_pot_witness :
  StartNewHand (fun _ => 0%nat) sample_game = Some sample_hand /\
  Pot sample_hand = 0 /\ sumZ Player.Chips (Players sample_hand) + sumZ Player.Bet (Players sample_hand) =
                        sumZ Player.Chips (Players sample_game).
Proof.
  assert (E : StartNewHand (fun _ => 0%nat) sample_game = Some sample_hand) by (vm_compute; reflexivity).
  split; [exact E | exact (StartNewHand_blinds_outside_pot _ _ _ E)].
Defined.

(** The button lands on the busted seat 1, whose player is [Out]. *)
Lemma StartNewHand_button_ignores_status_witness :
  StartNewHand (fun _ => 0%nat) busted_game = Some busted_hand /\
  go_rem (DealerPos busted_game + 1) (go_len (Players busted_game)) = Some (DealerPos busted_hand) /\
  DealerPos busted_hand = 1 /\ option_map Player.Status (Players busted_hand).[1] = Some Player.Out.
Proof.
  assert (E : StartNewHand (fun _ => 0%nat) busted_game = Some busted_hand) by (vm_compute; reflexivity).
  split; [exact E|]. split; [exact (StartNewHand_button_ignores_status _ _ _ E)|].
  split; vm_compute; reflexivity.
Defined.

Lemma findNextActivePosition_spec_witness :
  0 < go_len (Players sample_hand) /\ -1 <= 1 /\
  exists r, findNextActivePosition sample_hand 1 = Some r /\
   ((exists k, 1 <= k <= go_len (Players sample_hand) /\ r = (1 + k) mod go_len (Players sample_hand) /\
       seat_active (Players sample_hand) r = true /\
       forall k', 1 <= k' < k -> seat_active (Players sample_hand) ((1 + k') mod go_len (Players sample_hand)) = false)
    \/ (r = 1 /\ forall k, 1 <= k <= go_len (Players sample_hand) ->
          seat_active (Players sample_hand) ((1 + k) mod go_len (Players sample_hand)) = false)).
Proof.
  assert (Hn : 0 < go_len (Players sample_hand)) by by_eval.
  split_and!; [exact Hn|lia|]. apply findNextActivePosition_spec; [exact Hn|lia].
Defined.

End Game.
