(* ===== verification/Betting.v ===== *)
(** * Betting: properties of [ProcessAction] ([src/pkg/game/game.go])

    The chip ledger ([total_chips]: the stacks plus the pot), the
    refusal of the spec's illegal actions, the safety of the acting seat, the
    street transitions a betting action can trigger, and the scenarios
    of the spec's section 8, each on the model of [Game]. *)

From S2P Require Import Prelude Card Player Hand Game.

Module Betting.
Import Game.
Open Scope Z_scope.

(** ** The action handler *)

(** The [switch action] of [ProcessAction], for [player = g.Players[g.CurrentPos]]:
    [None] is an early [return false] (the state is then unchanged),
    [Some g'] the state after the case. *)
Definition applyAction (action amount : Z) (g : GameState) (player : Player.Player)
    : option GameState :=
  let pos := CurrentPos g in
  if decide (action = Action.Fold) then Some (set_player pos (Player.Fold player) g)
  else if decide (action = Action.Check) then
    if decide (CurrentBet g > Player.Bet player) then None else Some g
  else if decide (action = Action.Call) then
    let callAmount := CurrentBet g - Player.Bet player in
    let '(ok, player) := Player.PlaceBet callAmount player in
    if negb ok then None else
    Some (set_Pot (Pot g + callAmount) (set_player pos player g))
  else if decide (action = Action.Bet) then
    if decide (CurrentBet g > 0) then None
    else if decide (amount < BigBlind g) then None else
    let '(ok, player) := Player.PlaceBet amount player in
    if negb ok then None else
    let g := set_player pos player g in
    let g := set_Pot (Pot g + amount) g in
    let g := set_CurrentBet amount g in
    let g := set_LastRaisePos pos g in
    Some (set_MinRaise amount g)
  else if decide (action = Action.Raise) then
    let raiseAmount := CurrentBet g - Player.Bet player + amount in
    if decide (amount < MinRaise g) then None else
    let '(ok, player) := Player.PlaceBet raiseAmount player in
    if negb ok then None else
    let g := set_player pos player g in
    let g := set_Pot (Pot g + raiseAmount) g in
    let g := set_CurrentBet (Player.Bet player) g in
    let g := set_LastRaisePos pos g in
    Some (set_MinRaise amount g)
  else if decide (action = Action.AllIn) then
    let allInAmount := Player.Chips player in
    let player := snd (Player.PlaceBet allInAmount player) in
    let g := set_player pos player g in
    let g := set_Pot (Pot g + allInAmount) g in
    if decide (Player.Bet player > CurrentBet g) then
      let g := set_CurrentBet (Player.Bet player) g in
      let g := set_LastRaisePos pos g in
      Some (set_MinRaise (CurrentBet g - (CurrentBet g - allInAmount)) g)
    else Some g
  else Some g.

(** [func (g *GameState) ProcessAction(action PlayerAction, amount int) bool] *)
Definition ProcessAction (action amount : Z) (g : GameState) : option (bool * GameState) :=
  player ← (Players g).[CurrentPos g];
  match applyAction action amount g player with
  | None => Some (false, g)
  | Some g =>
      pos ← findNextActivePosition g (CurrentPos g);
      let g := set_CurrentPos pos g in
      if bool_decide (CurrentPos g = LastRaisePos g) || bool_decide (countActivePlayers g <= 1)
      then g ← advancePhase g; Some (true, g)
      else Some (true, g)
  end.

(** Chips on the table: every stack and the pot. *)
Definition total_chips (g : GameState) : Z := sumZ Player.Chips (Players g) + Pot g.

Ltac unfold_enums :=
  unfold Action.Fold, Action.Check, Action.Call, Action.Bet, Action.Raise, Action.AllIn,
    Player.Active, Player.Folded, Player.AllInStatus, Player.Out,
    PreFlop, Flop, Turn, River, Showdown in *.

(** Split an accepted or refused [PlaceBet] in the goal. *)
Ltac destruct_PlaceBet :=
  match goal with
  | |- context [Player.PlaceBet ?a ?p] =>
      let ok := fresh "ok" in let p' := fresh "p'" in let E := fresh "Hpb" in
      destruct (Player.PlaceBet a p) as [ok p'] eqn:E;
      pose proof (Player.PlaceBet_cases _ _ _ _ E)
  end.

(** ** Lemmas on the action switch *)

Lemma set_player_chips g i p p' :
  (Players g).[i] = Some p ->
  sumZ Player.Chips (Players (set_player i p' g)) =
  sumZ Player.Chips (Players g) - Player.Chips p + Player.Chips p'.
Proof. intros Hp. unfold set_player. simpl. by rewrite (sumZ_store _ _ _ _ p). Qed.

Lemma set_player_len g i p :
  go_len (Players (set_player i p g)) = go_len (Players g).
Proof. apply go_len_store. Qed.

#[export] Hint Rewrite set_player_len : poker.

(** What the switch leaves alone: the seats' count, the acting seat, the
    button, the street, the cards and the blinds. *)
Definition switch_frame (g g1 : GameState) : Prop :=
  go_len (Players g1) = go_len (Players g) /\ CurrentPos g1 = CurrentPos g /\
  DealerPos g1 = DealerPos g /\ CurrentPhase g1 = CurrentPhase g /\
  Deck g1 = Deck g /\ CommunityCards g1 = CommunityCards g /\
  SmallBlind g1 = SmallBlind g /\ BigBlind g1 = BigBlind g.

Lemma applyAction_frame action amount g p g1 :
  applyAction action amount g p = Some g1 -> switch_frame g g1.
Proof.
  unfold applyAction, switch_frame.
  repeat case_decide; repeat destruct_PlaceBet; destruct_or?; destruct_and?; simplify_eq/=;
    intros; simplify_eq/=; autorewrite with poker; auto 10.
Qed.

(** Each case of the switch moves chips from the acting stack to the pot
    and nowhere else. *)
Lemma applyAction_conserves action amount g p g1 :
  (Players g).[CurrentPos g] = Some p ->
  applyAction action amount g p = Some g1 -> total_chips g1 = total_chips g.
Proof.
  intros Hp. unfold applyAction, total_chips.
  repeat case_decide; repeat destruct_PlaceBet; destruct_or?; destruct_and?; simplify_eq/=;
    intros; simplify_eq/=; rewrite ?(sumZ_store Player.Chips _ _ _ _ Hp); simpl; lia.
Qed.

(** The cases in which the switch returns [false]. *)
Lemma applyAction_None action amount g p :
  applyAction action amount g p = None <->
  (action = Action.Check /\ Player.Bet p < CurrentBet g) \/
  (action = Action.Call /\ Player.Chips p < CurrentBet g - Player.Bet p) \/
  (action = Action.Bet /\ (0 < CurrentBet g \/ amount < BigBlind g \/ Player.Chips p < amount)) \/
  (action = Action.Raise /\ (amount < MinRaise g \/ Player.Chips p < CurrentBet g - Player.Bet p + amount)).
Proof.
  unfold applyAction.
  repeat case_decide; repeat destruct_PlaceBet; destruct_or?; destruct_and?; simplify_eq/=;
    unfold_enums; split; intros; try done; lia.
Qed.

(** Whether the betting round closes after the switch, the acting seat
    having moved to [pos] (the test at the end of [ProcessAction]). *)
Definition closes (g1 : GameState) (pos : Z) : bool :=
  bool_decide (pos = LastRaisePos g1) || bool_decide (countActivePlayers g1 <= 1).

Lemma ProcessAction_cases action amount g b g' :
  ProcessAction action amount g = Some (b, g') ->
  exists p, (Players g).[CurrentPos g] = Some p /\
  ((b = false /\ g' = g /\ applyAction action amount g p = None) \/
   (b = true /\ exists g1 pos, applyAction action amount g p = Some g1 /\
      findNextActivePosition g1 (CurrentPos g1) = Some pos /\
      if closes g1 pos then advancePhase (set_CurrentPos pos g1) = Some g'
      else g' = set_CurrentPos pos g1)).
Proof.
  unfold ProcessAction. intros H.
  destruct ((Players g).[CurrentPos g]) as [p|] eqn:Hp; [|done].
  cbn [mbind option_bind] in H. exists p. split; [done|].
  destruct (applyAction action amount g p) as [g1|] eqn:Ha; [|simplify_eq; by left].
  destruct (findNextActivePosition g1 (CurrentPos g1)) as [pos|] eqn:Hpos; [|done].
  cbn [mbind option_bind] in H. right.
  change (bool_decide _ || bool_decide _) with (closes g1 pos) in H.
  destruct (closes g1 pos) eqn:Hcl.
  - destruct (advancePhase _) eqn:Hadv; cbn [mbind option_bind] in H; simplify_eq.
    split; [done|]. exists g1, pos. rewrite Hcl. by split_and!.
  - simplify_eq. split; [done|]. exists g1, pos. rewrite Hcl. by split_and!.
Qed.

Lemma ProcessAction_step action amount g p g1 pos :
  (Players g).[CurrentPos g] = Some p ->
  applyAction action amount g p = Some g1 ->
  findNextActivePosition g1 (CurrentPos g1) = Some pos ->
  ProcessAction action amount g =
    if closes g1 pos then (fun g' => (true, g')) <$> advancePhase (set_CurrentPos pos g1)
    else Some (true, set_CurrentPos pos g1).
Proof.
  intros Hp Ha Hpos. unfold ProcessAction, closes. rewrite Hp. simpl. rewrite Ha, Hpos. simpl.
  destruct (bool_decide _ || bool_decide _); simpl; [|done].
  by destruct (advancePhase _).
Qed.

(** ** The cases of the switch, one by one *)

Lemma applyAction_Fold amount g p :
  applyAction Action.Fold amount g p = Some (set_player (CurrentPos g) (Player.Fold p) g).
Proof. reflexivity. Qed.

Lemma applyAction_Check amount g p :
  applyAction Action.Check amount g p =
  if decide (CurrentBet g > Player.Bet p) then None else Some g.
Proof. unfold applyAction. by rewrite decide_False, decide_True. Qed.

Lemma applyAction_Call amount g p :
  applyAction Action.Call amount g p =
  match Player.PlaceBet (CurrentBet g - Player.Bet p) p with
  | (true, p') => Some (set_Pot (Pot g + (CurrentBet g - Player.Bet p)) (set_player (CurrentPos g) p' g))
  | (false, _) => None
  end.
Proof.
  unfold applyAction. rewrite decide_False, decide_False, decide_True by (unfold_enums; lia).
  by destruct (Player.PlaceBet _ _) as [[] p'].
Qed.

Lemma applyAction_AllIn amount g p :
  applyAction Action.AllIn amount g p =
  let p' := snd (Player.PlaceBet (Player.Chips p) p) in
  let g1 := set_Pot (Pot g + Player.Chips p) (set_player (CurrentPos g) p' g) in
  Some (if decide (Player.Bet p' > CurrentBet g) then
          set_MinRaise (Player.Bet p' - (Player.Bet p' - Player.Chips p))
            (set_LastRaisePos (CurrentPos g) (set_CurrentBet (Player.Bet p') g1))
        else g1).
Proof.
  unfold applyAction. rewrite !decide_False by (unfold_enums; lia).
  rewrite decide_True by (unfold_enums; lia). simpl. by case_decide.
Qed.

Lemma applyAction_other action amount g p :
  (action < Action.Fold \/ Action.AllIn < action) -> applyAction action amount g p = Some g.
Proof. intros Ha. unfold applyAction. rewrite !decide_False by (unfold_enums; lia). done. Qed.

(** An all-in always goes through: the whole stack moves to the bet. *)
Lemma PlaceBet_all p :
  0 <= Player.Chips p ->
  exists p', Player.PlaceBet (Player.Chips p) p = (true, p') /\
    Player.Chips p' = 0 /\ Player.Status p' = Player.AllInStatus /\
    Player.Bet p' = Player.Bet p + Player.Chips p.
Proof.
  intros Hc. destruct (Player.PlaceBet_accept (Player.Chips p) p) as (p' & Hpb & Hc' & Hb & Hs & _); [lia|].
  exists p'. rewrite Hs, decide_True by lia. split_and!; auto; lia.
Qed.

(** What an accepted action leaves after the street check: the seats and
    the pot of the switch's result, and, when the street did not change,
    its betting fields too. *)
Lemma ProcessAction_accepted action amount g p g1 b g' :
  (Players g).[CurrentPos g] = Some p ->
  applyAction action amount g p = Some g1 ->
  ProcessAction action amount g = Some (b, g') ->
  b = true /\ Players g' = Players g1 /\ Pot g' = Pot g1 /\
  (CurrentPhase g' = CurrentPhase g ->
     CurrentBet g' = CurrentBet g1 /\ LastRaisePos g' = LastRaisePos g1 /\ MinRaise g' = MinRaise g1).
Proof.
  intros Hp Ha (p0 & Hp0 & Hcases)%ProcessAction_cases.
  rewrite Hp in Hp0. injection Hp0 as <-.
  destruct Hcases as [(_ & _ & Ha0)|(-> & g2 & pos & Ha2 & _ & Hcl)]; [congruence|].
  rewrite Ha in Ha2. injection Ha2 as <-.
  destruct (applyAction_frame _ _ _ _ _ Ha) as (_ & _ & _ & Hph & _).
  destruct (closes g1 pos).
  - pose proof (advancePhase_spec _ _ Hcl) as [(HP & HPot & _) _].
    split_and!; auto. intros Hsame.
    rewrite (advancePhase_same _ _ Hcl) by (simpl; congruence). done.
  - subst. done.
Qed.

Lemma Check_step amount g b g' :
  table_wf g -> LastRaisePos g = -1 -> 1 < countActivePlayers g ->
  ProcessAction Action.Check amount g = Some (b, g') ->
  CurrentPhase g' = CurrentPhase g /\ LastRaisePos g' = -1 /\
  countActivePlayers g' = countActivePlayers g /\ table_wf g' /\
  Players g' = Players g /\ Pot g' = Pot g.
Proof.
  intros Hwf Hl Hc (p & Hp & [(_ & -> & _)|(-> & g1 & pos & Ha & Hpos & Hcl)])%ProcessAction_cases;
    [done|].
  rewrite applyAction_Check in Ha. case_decide; simplify_eq.
  destruct Hwf as ([Hn Hd] & Hcp).
  destruct (findNextActivePosition_range g1 (CurrentPos g1)) as (pos' & Hpos' & Hr); [lia|lia|].
  rewrite Hpos in Hpos'. simplify_eq.
  unfold closes in Hcl. rewrite Hl, bool_decide_false, bool_decide_false in Hcl by lia.
  simpl in Hcl. subst. unfold table_wf, seats_wf. simpl. split_and!; auto; lia.
Qed.

(** ** Theorems *)

(** C1: no action moves a chip off the table: the stacks plus the pot are
    the same after [ProcessAction], whatever the action, the amount and
    the outcome. *)
Theorem ProcessAction_conserves_chips action amount g b g' :
  ProcessAction action amount g = Some (b, g') -> total_chips g' = total_chips g.
Proof.
  intros (p & Hp & [(_ & -> & _)|(_ & g1 & pos & Ha & _ & Hcl)])%ProcessAction_cases; [done|].
  rewrite <-(applyAction_conserves _ _ _ _ _ Hp Ha).
  destruct (closes g1 pos); [|by subst].
  apply advancePhase_spec in Hcl as [(HP & HPot & _) _].
  unfold total_chips. rewrite HP, HPot. done.
Qed.

(** Once the switch has run, passing the turn and closing the round do
    not panic on a well-formed table, and the table stays well formed. *)
Lemma ProcessAction_after_switch action amount g p g1 :
  table_wf g -> (Players g).[CurrentPos g] = Some p -> applyAction action amount g p = Some g1 ->
  exists b g', ProcessAction action amount g = Some (b, g') /\ table_wf g'.
Proof.
  intros Hwf Hp Ha. pose proof Hwf as ([Hn Hd] & Hc).
  destruct (applyAction_frame _ _ _ _ _ Ha) as (Hl & Hcp & Hdp & _).
  destruct (findNextActivePosition_range g1 (CurrentPos g1)) as (pos & Hpos & Hr); [lia|lia|].
  assert (Hwf2 : table_wf (set_CurrentPos pos g1)).
  { unfold table_wf, seats_wf. simpl. lia. }
  rewrite (ProcessAction_step _ _ _ _ _ _ Hp Ha Hpos).
  destruct (closes g1 pos).
  - destruct (advancePhase_total _ Hwf2) as (g' & -> & ?). eauto.
  - eauto.
Qed.

(** C4: on a well-formed table (seats present, acting seat and button in
    range) [ProcessAction] never panics, whatever the action and amount,
    and the table stays well formed. *)
Theorem ProcessAction_total action amount g :
  table_wf g ->
  exists b g', ProcessAction action amount g = Some (b, g') /\ table_wf g'.
Proof.
  intros Hwf. pose proof Hwf as ([Hn Hd] & Hc).
  destruct (go_index_in_range (Players g) (CurrentPos g)) as [p Hp]; [done|].
  destruct (applyAction action amount g p) as [g1|] eqn:Ha.
  - exact (ProcessAction_after_switch _ _ _ _ _ Hwf Hp Ha).
  - exists false, g. unfold ProcessAction. rewrite Hp. simpl. by rewrite Ha.
Qed.

(** The illegal actions of the spec (sections 4.4 and 7): a check unless
    the player's bet equals the current bet, a call beyond the stack, a
    bet when one is open, below the big blind or beyond the stack, a
    raise below the minimum raise or beyond the stack, and any action
    outside the six of [PlayerAction]. *)
Definition spec_illegal (action amount : Z) (g : GameState) (p : Player.Player) : Prop :=
  (action = Action.Check /\ CurrentBet g <> Player.Bet p) \/
  (action = Action.Call /\ Player.Chips p < CurrentBet g - Player.Bet p) \/
  (action = Action.Bet /\ (CurrentBet g <> 0 \/ amount < BigBlind g \/ Player.Chips p < amount)) \/
  (action = Action.Raise /\ (amount < MinRaise g \/ Player.Chips p < CurrentBet g - Player.Bet p + amount)) \/
  (action < Action.Fold \/ Action.AllIn < action).

(** C5: on a well-formed table with a non-negative current bet, and for
    amounts whose call sum ([callAmount], line 204) and raise sum
    ([raiseAmount], line 224) fit in Go's 64-bit [int], [ProcessAction]
    answers [false] exactly for the spec's illegal actions but two: a
    check by a player whose bet is above the current bet, and an action
    code outside [Fold..AllIn], are accepted.  A refused action changes
    nothing. *)
Theorem ProcessAction_refusal action amount g p :
  table_wf g -> (Players g).[CurrentPos g] = Some p -> 0 <= CurrentBet g ->
  int64_range (CurrentBet g - Player.Bet p) -> int64_range (CurrentBet g - Player.Bet p + amount) ->
  (ProcessAction action amount g = Some (false, g) <->
     spec_illegal action amount g p /\ Action.Fold <= action <= Action.AllIn /\
     ~ (action = Action.Check /\ CurrentBet g < Player.Bet p)) /\
  (forall g', ProcessAction action amount g = Some (false, g') -> g' = g).
Proof.
  intros Hwf Hp Hbet _ _. split.
  - transitivity (applyAction action amount g p = None).
    + split.
      * intros (p' & Hp' & [(_ & _ & Ha)|(? & _)])%ProcessAction_cases; [|done].
        rewrite Hp in Hp'. by simplify_eq.
      * intros Ha. unfold ProcessAction. rewrite Hp. simpl. by rewrite Ha.
    + rewrite applyAction_None. unfold spec_illegal. unfold_enums.
      destruct (decide (action = 1)) as [->|?]; [lia|].
      destruct (decide (action = 2)) as [->|?]; [lia|].
      destruct (decide (action = 3)) as [->|?]; [lia|].
      destruct (decide (action = 4)) as [->|?]; lia.
  - intros g' (p' & _ & [(_ & -> & _)|(? & _)])%ProcessAction_cases; done.
Qed.

(** C12: minimum-raise enforcement (spec, section 8): a raise below
    [MinRaise] is refused and leaves the state, hence the pot, the
    current bet and the acting seat, unchanged. *)
Theorem Raise_below_min_refused amount g :
  0 <= CurrentPos g < go_len (Players g) -> amount < MinRaise g ->
  ProcessAction Action.Raise amount g = Some (false, g).
Proof.
  intros Hc Hlt. destruct (go_index_in_range (Players g) (CurrentPos g)) as [p Hp]; [done|].
  unfold ProcessAction. rewrite Hp. simpl.
  assert (applyAction Action.Raise amount g p = None) as -> by (apply applyAction_None; tauto).
  done.
Qed.

(** C11: a betting action moves the hand along the transition table by at
    most one street: the phase after [ProcessAction] is the phase before
    or the next one (no street is skipped, none is dealt twice). *)
Theorem ProcessAction_phase action amount g b g' :
  ProcessAction action amount g = Some (b, g') ->
  CurrentPhase g' = CurrentPhase g \/ CurrentPhase g' = next_phase (CurrentPhase g).
Proof.
  intros (p & Hp & [(_ & -> & _)|(_ & g1 & pos & Ha & _ & Hcl)])%ProcessAction_cases; [by left|].
  destruct (applyAction_frame _ _ _ _ _ Ha) as (_ & _ & _ & Hph & _).
  destruct (closes g1 pos).
  - apply advancePhase_spec in Hcl as [_ ->]. right. simpl. by rewrite Hph.
  - subst. left. simpl. done.
Qed.

(** C7: the closing rule (spec, section 4.4): on a street before the
    showdown, an accepted action moves the hand to the next street exactly
    when the seat to act next is the last aggressor or at most one active
    player is left. *)
Theorem ProcessAction_closing_rule action amount g p g1 pos g' :
  (Players g).[CurrentPos g] = Some p ->
  applyAction action amount g p = Some g1 ->
  findNextActivePosition g1 (CurrentPos g1) = Some pos ->
  PreFlop <= CurrentPhase g <= River ->
  ProcessAction action amount g = Some (true, g') ->
  (CurrentPhase g' = next_phase (CurrentPhase g) <->
   pos = LastRaisePos g1 \/ countActivePlayers g1 <= 1).
Proof.
  intros Hp Ha Hpos Hph. rewrite (ProcessAction_step _ _ _ _ _ _ Hp Ha Hpos).
  destruct (applyAction_frame _ _ _ _ _ Ha) as (_ & _ & _ & Hph1 & _).
  assert (Hcl : closes g1 pos = true <-> pos = LastRaisePos g1 \/ countActivePlayers g1 <= 1).
  { unfold closes. rewrite orb_true_iff, !bool_decide_eq_true. done. }
  destruct (closes g1 pos).
  - destruct (advancePhase _) as [g2|] eqn:Hadv; [|done]. intros [=<-].
    apply advancePhase_spec in Hadv as [_ ->]. simpl. rewrite Hph1.
    split; [intros _; by apply Hcl|done].
  - intros [=<-]. simpl. rewrite Hph1.
    split; [|intros H; apply Hcl in H; discriminate]. intros Hn. exfalso. revert Hn.
    unfold next_phase, PreFlop, Flop, Turn, River, Showdown in *. repeat case_decide; lia.
Qed.

(** C36: a call on a street whose current bet is below the caller's bet
    (every street after the first: [DealFlop], [DealTurn] and [DealRiver]
    reset [CurrentBet] but not the players' bets) has a negative call
    amount; it is accepted and pays the difference back from the pot. *)
Theorem Call_refunds_surplus amount g p b g' :
  (Players g).[CurrentPos g] = Some p -> 0 <= Player.Chips p -> CurrentBet g < Player.Bet p ->
  ProcessAction Action.Call amount g = Some (b, g') ->
  b = true /\ Pot g' = Pot g - (Player.Bet p - CurrentBet g) /\
  exists p', (Players g').[CurrentPos g] = Some p' /\
    Player.Chips p' = Player.Chips p + (Player.Bet p - CurrentBet g) /\
    Player.Bet p' = CurrentBet g.
Proof.
  intros Hp Hc Hlt Hrun.
  destruct (Player.PlaceBet_accept (CurrentBet g - Player.Bet p) p) as (p' & Hpb & Hc' & Hb' & _); [lia|].
  assert (Ha : applyAction Action.Call amount g p =
    Some (set_Pot (Pot g + (CurrentBet g - Player.Bet p)) (set_player (CurrentPos g) p' g)))
    by (rewrite applyAction_Call, Hpb; done).
  destruct (ProcessAction_accepted _ _ _ _ _ _ _ Hp Ha Hrun) as (-> & HP & HPot & _).
  split; [done|]. split; [rewrite HPot; simpl; lia|].
  exists p'. rewrite HP. split; [by eapply go_index_store_eq|]. lia.
Qed.

(** C37: a short all-in (spec, section 8): a player whose stack does not
    cover the call commits exactly the stack, ends all-in with no chips,
    and, while the street lasts, the current bet, the last aggressor and
    the minimum raise are unchanged. *)
Theorem AllIn_short_call amount g p b g' :
  (Players g).[CurrentPos g] = Some p -> 0 <= Player.Chips p ->
  Player.Bet p + Player.Chips p <= CurrentBet g ->
  ProcessAction Action.AllIn amount g = Some (b, g') ->
  b = true /\ Pot g' = Pot g + Player.Chips p /\
  (exists p', (Players g').[CurrentPos g] = Some p' /\ Player.Chips p' = 0 /\
     Player.Status p' = Player.AllInStatus /\ Player.Bet p' = Player.Bet p + Player.Chips p) /\
  (CurrentPhase g' = CurrentPhase g ->
     CurrentBet g' = CurrentBet g /\ LastRaisePos g' = LastRaisePos g /\ MinRaise g' = MinRaise g).
Proof.
  intros Hp Hc Hle Hrun. destruct (PlaceBet_all p Hc) as (p' & Hpb & Hc' & Hs' & Hb').
  pose proof (applyAction_AllIn amount g p) as Ha. rewrite Hpb in Ha. simpl in Ha.
  rewrite decide_False in Ha by lia.
  destruct (ProcessAction_accepted _ _ _ _ _ _ _ Hp Ha Hrun) as (-> & HP & HPot & Hsame).
  split_and!; [done|rewrite HPot; simpl; lia| |exact Hsame].
  exists p'. rewrite HP. split_and!; [by eapply go_index_store_eq|done..].
Qed.

(** C38: an all-in that raises sets [MinRaise] to the whole stack the
    player committed ([CurrentBet - (CurrentBet - allInAmount)]), not to
    the size of the raise over the previous bet. *)
Theorem AllIn_raise_MinRaise amount g p b g' :
  (Players g).[CurrentPos g] = Some p -> 0 <= Player.Chips p ->
  CurrentBet g < Player.Bet p + Player.Chips p ->
  ProcessAction Action.AllIn amount g = Some (b, g') ->
  CurrentPhase g' = CurrentPhase g ->
  CurrentBet g' = Player.Bet p + Player.Chips p /\ LastRaisePos g' = CurrentPos g /\
  MinRaise g' = Player.Chips p.
Proof.
  intros Hp Hc Hlt Hrun Hph. destruct (PlaceBet_all p Hc) as (p' & Hpb & Hc' & Hs' & Hb').
  pose proof (applyAction_AllIn amount g p) as Ha. rewrite Hpb in Ha. simpl in Ha.
  rewrite decide_True in Ha by lia.
  destruct (ProcessAction_accepted _ _ _ _ _ _ _ Hp Ha Hrun) as (_ & _ & _ & Hsame).
  destruct (Hsame Hph) as (-> & -> & ->). simpl. split_and!; lia.
Qed.

(** C39: an action code outside [Fold..AllIn] is not refused: the switch
    has no default case, so [ProcessAction] answers [true], passes the
    turn and moves no chip. *)
Theorem unknown_action_accepted action amount g :
  table_wf g -> (action < Action.Fold \/ Action.AllIn < action) ->
  exists g', ProcessAction action amount g = Some (true, g') /\
    Players g' = Players g /\ Pot g' = Pot g.
Proof.
  intros Hwf Hact. pose proof Hwf as ([Hn Hd] & Hc).
  destruct (go_index_in_range (Players g) (CurrentPos g)) as [p Hp]; [done|].
  pose proof (applyAction_other action amount g p Hact) as Ha.
  destruct (ProcessAction_after_switch _ _ _ _ _ Hwf Hp Ha) as (b & g' & Hrun & _).
  exists g'.
  destruct (ProcessAction_accepted _ _ _ _ _ _ _ Hp Ha Hrun) as (-> & HP & HPot & _). done.
Qed.

(** C40: fold to one pays nobody (spec, section 8, where the sole
    remaining player receives the entire pot): when a [Fold] leaves at
    most one active player the hand is over, yet the pot stays where it
    was and no player's stack changes. *)
Theorem fold_to_one_pays_nobody g b g' :
  ProcessAction Action.Fold 0 g = Some (b, g') -> countActivePlayers g' <= 1 ->
  IsHandOver g' = true /\ Pot g' = Pot g /\ Player.Chips <$> Players g' = Player.Chips <$> Players g.
Proof.
  intros Hrun Hc. split.
  { unfold IsHandOver. rewrite (bool_decide_eq_true_2 (countActivePlayers g' <= 1)) by done.
    apply orb_true_r. }
  destruct (ProcessAction_cases _ _ _ _ _ Hrun) as (p & Hp & _).
  destruct (ProcessAction_accepted _ _ _ _ _ _ _ Hp (applyAction_Fold 0 g p) Hrun) as (_ & -> & -> & _).
  split; [done|]. by apply (fmap_go_store _ _ _ p).
Qed.

(** Witnesses. *)
Lemma ProcessAction_conserves_chips_witness :
  exists b g', ProcessAction Action.Raise 20 sample_hand = Some (b, g') /\
  total_chips g' = total_chips sample_hand.
Proof.
  destruct (ProcessAction Action.Raise 20 sample_hand) as [[b g']|] eqn:E;
    [|vm_compute in E; discriminate].
  exists b, g'. split; [done|]. exact (ProcessAction_conserves_chips _ _ _ _ _ E).
Defined.

Lemma ProcessAction_total_witness :
  table_wf sample_hand /\
  exists b g', ProcessAction Action.Call 0 sample_hand = Some (b, g') /\ table_wf g'.
Proof.
  assert (Hwf : table_wf sample_hand) by by_eval.
  split; [exact Hwf|]. apply ProcessAction_total. exact Hwf.
Defined.

Lemma ProcessAction_refusal_witness :
  exists p, table_wf sample_hand /\ (Players sample_hand).[CurrentPos sample_hand] = Some p /\
  0 <= CurrentBet sample_hand /\ int64_range (CurrentBet sample_hand - Player.Bet p) /\
  int64_range (CurrentBet sample_hand - Player.Bet p + 0) /\
  (ProcessAction Action.Check 0 sample_hand = Some (false, sample_hand) <->
     spec_illegal Action.Check 0 sample_hand p /\ Action.Fold <= Action.Check <= Action.AllIn /\
     ~ (Action.Check = Action.Check /\ CurrentBet sample_hand < Player.Bet p)) /\
  (forall g', ProcessAction Action.Check 0 sample_hand = Some (false, g') -> g' = sample_hand).
Proof.
  assert (Hwf : table_wf sample_hand) by by_eval.
  destruct ((Players sample_hand).[CurrentPos sample_hand]) as [p|] eqn:Hp;
    [|vm_compute in Hp; discriminate].
  assert (Hb : 0 <= CurrentBet sample_hand) by (vm_compute; discriminate).
  assert (Hbp : Player.Bet p = 0) by (revert Hp; vm_compute; intros [= <-]; reflexivity).
  assert (H1 : int64_range (CurrentBet sample_hand - Player.Bet p)) by
    (unfold int64_range; rewrite Hbp; vm_compute; split; [discriminate|reflexivity]).
  assert (H2 : int64_range (CurrentBet sample_hand - Player.Bet p + 0)) by
    (unfold int64_range; rewrite Hbp; vm_compute; split; [discriminate|reflexivity]).
  pose proof (ProcessAction_refusal Action.Check 0 sample_hand p Hwf Hp Hb H1 H2) as [H3 H4].
  exists p. split_and!; [exact Hwf|done|exact Hb|exact H1|exact H2|exact H3|exact H4].
Defined.

Lemma Raise_below_min_refused_witness :
  0 <= CurrentPos sample_hand < go_len (Players sample_hand) /\ 5 < MinRaise sample_hand /\
  ProcessAction Action.Raise 5 sample_hand = Some (false, sample_hand).
Proof.
  assert (Hc : 0 <= CurrentPos sample_hand < go_len (Players sample_hand)) by by_eval.
  assert (Hm : 5 < MinRaise sample_hand) by by_eval.
  split; [exact Hc|]. split; [exact Hm|]. apply Raise_below_min_refused; [exact Hc|exact Hm].
Defined.

Lemma ProcessAction_phase_witness :
  exists b g', ProcessAction Action.Call 0 sample_hand = Some (b, g') /\
  (CurrentPhase g' = CurrentPhase sample_hand \/
   CurrentPhase g' = next_phase (CurrentPhase sample_hand)).
Proof.
  destruct (ProcessAction Action.Call 0 sample_hand) as [[b g']|] eqn:E;
    [|vm_compute in E; discriminate].
  exists b, g'. split; [done|]. exact (ProcessAction_phase _ _ _ _ _ E).
Defined.

(** Tables for the witnesses: the acting seat facing no bet while its
    own bet is 10 (the big blind's seat on a later street), and a seat
    whose stack does not cover the big blind. *)
Definition refund_table : GameState := set_CurrentPos 3 (set_CurrentBet 0 sample_hand).
Definition short_stack_table : GameState :=
  set_player 0 (Player.NewPlayer "1" "Player 1" 4 0) sample_hand.

(** The acting player of [sample_hand] and the table after its raise. *)
Definition sample_actor : Player.Player :=
  Eval vm_compute in default (Player.NewPlayer "" "" 0 0) ((Players sample_hand).[CurrentPos sample_hand]).
Definition sample_raised : GameState :=
  Eval vm_compute in default sample_hand (applyAction Action.Raise 20 sample_hand sample_actor).

Lemma ProcessAction_closing_rule_witness :
  exists pos g',
    (Players sample_hand).[CurrentPos sample_hand] = Some sample_actor /\
    applyAction Action.Raise 20 sample_hand sample_actor = Some sample_raised /\
    findNextActivePosition sample_raised (CurrentPos sample_raised) = Some pos /\
    PreFlop <= CurrentPhase sample_hand <= River /\
    ProcessAction Action.Raise 20 sample_hand = Some (true, g') /\
    (CurrentPhase g' = next_phase (CurrentPhase sample_hand) <->
     pos = LastRaisePos sample_raised \/ countActivePlayers sample_raised <= 1).
Proof.
  assert (Hp : (Players sample_hand).[CurrentPos sample_hand] = Some sample_actor)
    by (vm_compute; reflexivity).
  assert (Ha : applyAction Action.Raise 20 sample_hand sample_actor = Some sample_raised)
    by (vm_compute; reflexivity).
  assert (Hph : PreFlop <= CurrentPhase sample_hand <= River) by by_eval.
  obtain Hpos (findNextActivePosition sample_raised (CurrentPos sample_raised)).
  destruct (ProcessAction Action.Raise 20 sample_hand) as [[[] g']|] eqn:E;
    [|vm_compute in E; discriminate..].
  exists x, g'. split; [exact Hp|]. split; [exact Ha|]. split; [reflexivity|].
  split; [exact Hph|]. split; [reflexivity|].
  exact (ProcessAction_closing_rule _ _ _ _ _ _ _ Hp Ha Hpos Hph E).
Defined.

Lemma Call_refunds_surplus_witness :
  exists p b g', (Players refund_table).[CurrentPos refund_table] = Some p /\
    0 <= Player.Chips p /\ CurrentBet refund_table < Player.Bet p /\
    ProcessAction Action.Call 0 refund_table = Some (b, g') /\
    b = true /\ Pot g' = Pot refund_table - (Player.Bet p - CurrentBet refund_table) /\
    exists p', (Players g').[CurrentPos refund_table] = Some p' /\
      Player.Chips p' = Player.Chips p + (Player.Bet p - CurrentBet refund_table) /\
      Player.Bet p' = CurrentBet refund_table.
Proof.
  obtain Hp ((Players refund_table).[CurrentPos refund_table]).
  destruct (ProcessAction Action.Call 0 refund_table) as [[b g']|] eqn:E;
    [|vm_compute in E; discriminate].
  pose proof (option_check (fun p => 0 <= Player.Chips p /\ CurrentBet refund_table < Player.Bet p) _ _ Hp) as Hx.
  specialize (Hx ltac:(vm_compute; reflexivity)) as [Hc Hlt].
  exists x, b, g'. split; [reflexivity|]. split; [exact Hc|]. split; [exact Hlt|].
  split; [reflexivity|]. exact (Call_refunds_surplus _ _ _ _ _ Hp Hc Hlt E).
Defined.

Lemma AllIn_short_call_witness :
  exists p b g', (Players short_stack_table).[CurrentPos short_stack_table] = Some p /\
    0 <= Player.Chips p /\ Player.Bet p + Player.Chips p <= CurrentBet short_stack_table /\
    ProcessAction Action.AllIn 0 short_stack_table = Some (b, g') /\
    b = true /\ Pot g' = Pot short_stack_table + Player.Chips p /\
    (exists p', (Players g').[CurrentPos short_stack_table] = Some p' /\ Player.Chips p' = 0 /\
       Player.Status p' = Player.AllInStatus /\ Player.Bet p' = Player.Bet p + Player.Chips p) /\
    (CurrentPhase g' = CurrentPhase short_stack_table ->
       CurrentBet g' = CurrentBet short_stack_table /\
       LastRaisePos g' = LastRaisePos short_stack_table /\ MinRaise g' = MinRaise short_stack_table).
Proof.
  obtain Hp ((Players short_stack_table).[CurrentPos short_stack_table]).
  destruct (ProcessAction Action.AllIn 0 short_stack_table) as [[b g']|] eqn:E;
    [|vm_compute in E; discriminate].
  pose proof (option_check
    (fun p => 0 <= Player.Chips p /\ Player.Bet p + Player.Chips p <= CurrentBet short_stack_table) _ _ Hp) as Hx.
  specialize (Hx ltac:(vm_compute; reflexivity)) as [Hc Hle].
  exists x, b, g'. split; [reflexivity|]. split; [exact Hc|]. split; [exact Hle|].
  split; [reflexivity|]. exact (AllIn_short_call _ _ _ _ _ Hp Hc Hle E).
Defined.

Lemma AllIn_raise_MinRaise_witness :
  exists p b g', (Players sample_hand).[CurrentPos sample_hand] = Some p /\
    0 <= Player.Chips p /\ CurrentBet sample_hand < Player.Bet p + Player.Chips p /\
    ProcessAction Action.AllIn 0 sample_hand = Some (b, g') /\
    CurrentPhase g' = CurrentPhase sample_hand /\
    CurrentBet g' = Player.Bet p + Player.Chips p /\ LastRaisePos g' = CurrentPos sample_hand /\
    MinRaise g' = Player.Chips p.
Proof.
  obtain Hp ((Players sample_hand).[CurrentPos sample_hand]).
  destruct (ProcessAction Action.AllIn 0 sample_hand) as [[b g']|] eqn:E;
    [|vm_compute in E; discriminate].
  pose proof (option_check
    (fun p => 0 <= Player.Chips p /\ CurrentBet sample_hand < Player.Bet p + Player.Chips p) _ _ Hp) as Hx.
  specialize (Hx ltac:(vm_compute; reflexivity)) as [Hc Hlt].
  pose proof (option_check (fun r => CurrentPhase r.2 = CurrentPhase sample_hand) _ _ E) as Hph.
  specialize (Hph ltac:(vm_compute; reflexivity)). cbn [snd] in Hph.
  exists x, b, g'. split; [reflexivity|]. split; [exact Hc|]. split; [exact Hlt|].
  split; [reflexivity|]. split; [exact Hph|].
  exact (AllIn_raise_MinRaise _ _ _ _ _ Hp Hc Hlt E Hph).
Defined.

Lemma unknown_action_accepted_witness :
  table_wf sample_hand /\ (7 < Action.Fold \/ Action.AllIn < 7) /\
  exists g', ProcessAction 7 0 sample_hand = Some (true, g') /\
    Players g' = Players sample_hand /\ Pot g' = Pot sample_hand.
Proof.
  assert (Hwf : table_wf sample_hand) by by_eval.
  assert (Ha : 7 < Action.Fold \/ Action.AllIn < 7) by (unfold_enums; lia).
  split; [exact Hwf|]. split; [exact Ha|]. exact (unknown_action_accepted 7 0 sample_hand Hwf Ha).
Defined.

(** The first hand of [run] after a raise of 20 and two folds: the next
    fold leaves one player and a pot of 30. *)
Definition two_folded : GameState :=
  default sample_hand
    (r1 ← ProcessAction Action.Raise 20 sample_hand;
     r2 ← ProcessAction Action.Fold 0 r1.2;
     r3 ← ProcessAction Action.Fold 0 r2.2;
     Some r3.2).

Lemma fold_to_one_pays_nobody_witness :
  exists b g', ProcessAction Action.Fold 0 two_folded = Some (b, g') /\ countActivePlayers g' <= 1 /\
  Pot g' = 30 /\ IsHandOver g' = true /\ Pot g' = Pot two_folded /\
  Player.Chips <$> Players g' = Player.Chips <$> Players two_folded.
Proof.
  obtain E (ProcessAction Action.Fold 0 two_folded). destruct x as [b g'].
  assert (Hc : countActivePlayers g' <= 1) by (revert E; vm_compute; intros [= _ <-]; discriminate).
  assert (Hp : Pot g' = 30) by (revert E; vm_compute; intros [= _ <-]; reflexivity).
  exists b, g'. split; [reflexivity|]. split; [exact Hc|]. split; [exact Hp|].
  exact (fold_to_one_pays_nobody _ _ _ E Hc).
Defined.

End Betting.
