(* ===== verification/Scenarios.v ===== *)
(** * Sequences of actions: the spec's scenarios ([src/pkg/game/game.go])

    The presentation layer submits one [ProcessAction] per decision
    (spec, section 6; [handleButtonClicks] in [src/pkg/ui/game_ui.go]).
    [run] plays a list of decisions and keeps each result; the theorems
    are about such sequences: a betting round in which everybody checks,
    and the spec's section 8 scenarios on the table of [run] in
    [src/cmd/poker/main.go]. *)

From S2P Require Import Prelude Card Player Hand Game Betting.

Module Scenarios.
Import Game Betting.
Open Scope Z_scope.

(** Each decision's result: the boolean answer and the table after it. *)
Fixpoint run (acts : list (Z * Z)) (g : GameState) : option (list (bool * GameState)) :=
  match acts with
  | [] => Some []
  | (a, amt) :: acts' =>
      match ProcessAction a amt g with
      | Some (b, g1) =>
          match run acts' g1 with
          | Some tr => Some ((b, g1) :: tr)
          | None => None
          end
      | None => None
      end
  end.

(** The table after the last decision. *)
Definition final (g : GameState) (tr : list (bool * GameState)) : GameState :=
  default g (snd <$> last tr).

(** The flop of the first hand of [run]: the first player calls, the
    second calls, the small blind raises by 20 and everyone calls. *)
Definition sample_flop : GameState :=
  final sample_hand (default [] (run [(Action.Call, 0); (Action.Call, 0); (Action.Raise, 20);
    (Action.Call, 0); (Action.Call, 0); (Action.Call, 0)] sample_hand)).

(** ** Theorems *)

(** C8: a betting round in which every player checks never ends: when no
    one has bet or raised on the street ([LastRaisePos = -1], as after
    [StartNewHand] and after each [Deal*]) and two or more players are
    active, the test [CurrentPos == LastRaisePos] never holds, so however
    many checks are played the phase stays where it was. *)
Theorem checks_never_close n g tr :
  table_wf g -> LastRaisePos g = -1 -> 1 < countActivePlayers g ->
  run (replicate n (Action.Check, 0)) g = Some tr ->
  Forall (fun r : bool * GameState => CurrentPhase r.2 = CurrentPhase g) tr.
Proof.
  revert g tr. induction n as [|n IH]; intros g tr Hwf Hl Hc; simpl; [intros [=<-]; constructor|].
  destruct (ProcessAction Action.Check 0 g) as [[b g1]|] eqn:E; [|done].
  destruct (run (replicate n (Action.Check, 0)) g1) as [tr'|] eqn:Etr; [|done]. intros [=<-].
  destruct (Check_step 0 g b g1 Hwf Hl Hc E) as (Hph & Hl1 & Hc1 & Hwf1 & _).
  constructor; [done|]. rewrite <-Hph.
  apply (IH g1); [done|done|lia|done].
Qed.

(** The spec's closing scenario (section 8) on the flop of the first
    hand: the player after the button bets 20, the three others call, and
    the street changes exactly once, when the action is back on the
    bettor (seat 2): the phases are Flop, Flop, Flop, then Turn. *)
Theorem bet_then_calls_close_at_aggressor :
  (fun tr : list (bool * GameState) => (fun r : bool * GameState => (r.1, CurrentPhase r.2, CurrentPos r.2)) <$> tr) <$>
    run [(Action.Bet, 20); (Action.Call, 0); (Action.Call, 0); (Action.Call, 0)] sample_flop =
  Some [(true, Flop, 3); (true, Flop, 0); (true, Flop, 1); (true, Turn, 2)].
Proof. vm_compute. reflexivity. Qed.

(** In that same round the players' preflop bets of 30 are still
    counted, so each call of the 20 bet is a call of [20 - 30 = -10]:
    after the bet the pot holds 125 and every call takes 10 out of it. *)
Theorem calls_after_flop_drain_pot :
  (fun tr : list (bool * GameState) => (fun r : bool * GameState => Pot r.2) <$> tr) <$>
    run [(Action.Bet, 20); (Action.Call, 0); (Action.Call, 0); (Action.Call, 0)] sample_flop =
  Some [125; 115; 105; 95].
Proof. vm_compute. reflexivity. Qed.

Lemma checks_never_close_witness :
  table_wf sample_flop /\ LastRaisePos sample_flop = -1 /\ 1 < countActivePlayers sample_flop /\
  exists tr, run (replicate 8 (Action.Check, 0)) sample_flop = Some tr /\
    fst <$> tr = replicate 8 true /\
    Forall (fun r : bool * GameState => CurrentPhase r.2 = CurrentPhase sample_flop) tr.
Proof.
  assert (Hwf : table_wf sample_flop) by by_eval.
  assert (Hl : LastRaisePos sample_flop = -1) by by_eval.
  assert (Hc : 1 < countActivePlayers sample_flop) by by_eval.
  split; [exact Hwf|]. split; [exact Hl|]. split; [exact Hc|].
  obtain E (run (replicate 8 (Action.Check, 0)) sample_flop).
  exists x. split; [reflexivity|]. split.
  - pose proof (option_check (fun tr : list (bool * GameState) => fst <$> tr = replicate 8 true) _ _ E) as Hb.
    exact (Hb ltac:(vm_compute; reflexivity)).
  - exact (checks_never_close 8 sample_flop x Hwf Hl Hc E).
Defined.

End Scenarios.
