(* ===== verification/Store.v ===== *)
(** * The shared store: pointers to game states

    The Go program passes one [*game.GameState] around: [run] in
    [src/cmd/poker/main.go] hands the same pointer to the mock database
    ([SaveGameState]) and to the user interface ([NewGameUI]), and the
    methods of [GameState] mutate the object behind it.  This file models
    that sharing: a heap from locations to game states, the two method
    calls that mutate a table through a pointer ([ProcessAction] from the
    buttons, [StartNewHand] from [run]), and the frame lemmas saying a
    call through one pointer leaves every other location alone. *)

From stdpp Require Import gmap.
From S2P Require Import Prelude Card Player Hand Game Betting.

Module Store.
Import Game.
Open Scope Z_scope.

(** ** Data *)

(** A [*game.GameState]: a location of the heap. *)
Definition loc := positive.

Definition Heap := gmap loc GameState.

(** ** Operations *)

(** [new(GameState)] / [&GameState{...}]: a location not yet in use. *)
Definition alloc (h : Heap) (g : GameState) : loc * Heap :=
  let l := fresh (dom h) in (l, <[l := g]> h).

(** [gs.ProcessAction(action, amount)] through the pointer [l]: a nil
    pointer or a panic inside the method is [None]. *)
Definition ProcessAction_at (h : Heap) (l : loc) (action amount : Z) : option (bool * Heap) :=
  g ← h !! l;
  '(ok, g') ← Betting.ProcessAction action amount g;
  Some (ok, <[l := g']> h).

(** [gs.StartNewHand()] through the pointer [l]. *)
Definition StartNewHand_at (rnd : nat -> nat) (h : Heap) (l : loc) : option Heap :=
  g ← h !! l;
  g' ← StartNewHand rnd g;
  Some (<[l := g']> h).

(** ** Lemmas *)

Lemma alloc_fresh h g : h !! (alloc h g).1 = None.
Proof. apply not_elem_of_dom, is_fresh. Qed.

Lemma alloc_lookup h g : (alloc h g).2 !! (alloc h g).1 = Some g.
Proof. apply lookup_insert_eq. Qed.

Lemma alloc_lookup_ne h g l : h !! l <> None -> (alloc h g).2 !! l = h !! l.
Proof.
  intros Hl. apply lookup_insert_ne. intros Heq. apply Hl. rewrite <-Heq. apply (alloc_fresh h g).
Qed.

Lemma ProcessAction_at_inv h l action amount ok h' :
  ProcessAction_at h l action amount = Some (ok, h') ->
  exists g g', h !! l = Some g /\ Betting.ProcessAction action amount g = Some (ok, g') /\
               h' = <[l := g']> h.
Proof.
  unfold ProcessAction_at. intros (g & Hg & H)%bind_Some.
  apply bind_Some in H as ([ok' g'] & Hp & [= -> <-]). eauto.
Qed.

(** A method call through [l] writes [l] and nothing else. *)
Lemma ProcessAction_at_frame h l l' action amount ok h' :
  ProcessAction_at h l action amount = Some (ok, h') -> l' <> l -> h' !! l' = h !! l'.
Proof.
  intros (g & g' & _ & _ & ->)%ProcessAction_at_inv Hne. by apply lookup_insert_ne.
Qed.

Lemma StartNewHand_at_frame rnd h l l' h' :
  StartNewHand_at rnd h l = Some h' -> l' <> l -> h' !! l' = h !! l'.
Proof.
  unfold StartNewHand_at. intros (g & _ & (g' & _ & [= <-])%bind_Some)%bind_Some Hne.
  by apply lookup_insert_ne.
Qed.

End Store.
