(* ===== verification/DB.v ===== *)
(** * Persistence: the mock SpaceTimeDB ([src/pkg/db/mock_spacetime.go])

    [MockSpaceTimeDB] holds three Go maps: game states (by pointer),
    player profiles and game-history lists.  Its methods take the
    mutex, read or write one map and return a Go [error]; the model
    is sequential (the mutex only serialises calls) and a Go
    [(value, error)] result is a [Result].

    The spec's persistence collaborator (section 6) saves a snapshot of a
    table under a game id and loads it back, [NotFound] on a miss.  That
    contract is the class [Persistence] with its laws; the map of
    snapshots [SnapshotStore] is its reference instance.  The mock
    refines it ([Save_refines], [Load_refines]) as long as no one writes
    through a saved pointer; [SaveGameState] keeps the caller's pointer,
    not a copy, so a later write through that pointer changes what
    [LoadGameState] returns. *)

From stdpp Require Import gmap.
From S2P Require Import Prelude Card Player Hand Game Betting Store.

Module DB.
Import Game Store.
Open Scope Z_scope.

(** ** Data *)

(** A Go result [(v, err)]: [Ok v] when [err == nil], [Err msg] for
    [errors.New(msg)]. *)
Inductive Result (A : Type) :=
| Ok (a : A)
| Err (msg : string).
Arguments Ok {A} a.
Arguments Err {A} msg.

(** [type PlayerProfile struct]; [time.Time] is kept as an integer. *)
Record PlayerProfile := MkPlayerProfile {
  ProfileID : string;
  ProfileName : string;
  TotalChips : Z;
  GamesPlayed : Z;
  GamesWon : Z;
  BiggestPot : Z;
  LastLoginTime : Z
}.

(** [type GameHistoryEntry struct] *)
Record GameHistoryEntry := MkGameHistoryEntry {
  GameID : string;
  Timestamp : Z;
  EntryPlayers : list string;
  Winner : string;
  PotSize : Z;
  HandSummary : string
}.

(** [type MockSpaceTimeDB struct]: the game states are pointers into the
    shared heap of [Store]; no code of the repository writes through a
    profile or history pointer, so those are kept as values. *)
Record MockSpaceTimeDB := MkMockSpaceTimeDB {
  gameStates : gmap string loc;
  playerProfiles : gmap string PlayerProfile;
  gameHistory : gmap string (list GameHistoryEntry)
}.

Definition set_gameStates v db := MkMockSpaceTimeDB v (playerProfiles db) (gameHistory db).
Definition set_playerProfiles v db := MkMockSpaceTimeDB (gameStates db) v (gameHistory db).
Definition set_gameHistory v db := MkMockSpaceTimeDB (gameStates db) (playerProfiles db) v.

(** ** Operations *)

(** [func NewMockSpaceTimeDB() *MockSpaceTimeDB]: three empty maps. *)
Definition NewMockSpaceTimeDB : MockSpaceTimeDB := MkMockSpaceTimeDB ∅ ∅ ∅.

(** [func (db) SaveGameState(gameID string, state *game.GameState) error]:
    stores the pointer itself ([db.gameStates[gameID] = state]). *)
Definition SaveGameState (gameID : string) (state : loc) (db : MockSpaceTimeDB)
    : MockSpaceTimeDB * Result unit :=
  (set_gameStates (<[gameID := state]> (gameStates db)) db, Ok tt).

(** [func (db) LoadGameState(gameID string) ( *game.GameState, error)] *)
Definition LoadGameState (gameID : string) (db : MockSpaceTimeDB) : Result loc :=
  match gameStates db !! gameID with
  | Some state => Ok state
  | None => Err "game state not found"
  end.

(** [func (db) SavePlayerProfile(profile *PlayerProfile) error] *)
Definition SavePlayerProfile (profile : PlayerProfile) (db : MockSpaceTimeDB)
    : MockSpaceTimeDB * Result unit :=
  (set_playerProfiles (<[ProfileID profile := profile]> (playerProfiles db)) db, Ok tt).

(** [func (db) LoadPlayerProfile(playerID string) ( *PlayerProfile, error)] *)
Definition LoadPlayerProfile (playerID : string) (db : MockSpaceTimeDB) : Result PlayerProfile :=
  match playerProfiles db !! playerID with
  | Some profile => Ok profile
  | None => Err "player profile not found"
  end.

(** [func (db) AddGameHistoryEntry(gameID string, entry *GameHistoryEntry) error]:
    creates the empty slice when the id is new, then appends; reading a
    missing key of a Go map gives the zero value [nil]. *)
Definition AddGameHistoryEntry (gameID : string) (entry : GameHistoryEntry) (db : MockSpaceTimeDB)
    : MockSpaceTimeDB * Result unit :=
  let hist := gameHistory db in
  let hist := match hist !! gameID with
              | Some _ => hist
              | None => <[gameID := []]> hist
              end in
  let hist := <[gameID := default [] (hist !! gameID) ++ [entry]]> hist in
  (set_gameHistory hist db, Ok tt).

(** [func (db) GetGameHistory(gameID string) ([]*GameHistoryEntry, error)] *)
Definition GetGameHistory (gameID : string) (db : MockSpaceTimeDB) : Result (list GameHistoryEntry) :=
  match gameHistory db !! gameID with
  | Some history => Ok history
  | None => Err "game history not found"
  end.

(** [Connect] and [Disconnect] log, sleep and return [nil]. *)
Definition Connect (db : MockSpaceTimeDB) : Result unit := Ok tt.
Definition Disconnect (db : MockSpaceTimeDB) : Result unit := Ok tt.

(** [LoadGameState] followed by the dereference its caller makes. *)
Definition load_snapshot (h : Heap) (gameID : string) (db : MockSpaceTimeDB) : option GameState :=
  match LoadGameState gameID db with
  | Ok l => h !! l
  | Err _ => None
  end.

(** ** The persistence contract of the spec *)

(** What the engine asks of its persistence collaborator: a store of
    snapshots keyed by game id. *)
Class Persistence (S : Type) := {
  p_empty : S;
  p_save : string -> GameState -> S -> S;
  p_load : string -> S -> option GameState
}.

(** Its laws: nothing is found in the empty store, a load returns the
    last snapshot saved under that id, and saving under one id leaves
    the others alone. *)
Class PersistenceLaws (S : Type) `{Persistence S} := {
  p_load_empty id : p_load id p_empty = None;
  p_load_save_eq id g s : p_load id (p_save id g s) = Some g;
  p_load_save_ne id id' g s : id' <> id -> p_load id' (p_save id g s) = p_load id' s
}.

(** The reference instance: a map from ids to snapshot values. *)
Definition SnapshotStore := gmap string GameState.

#[export] Instance SnapshotStore_Persistence : Persistence SnapshotStore := {
  p_empty := ∅;
  p_save id g s := <[id := g]> s;
  p_load id s := s !! id
}.

#[export] Instance SnapshotStore_laws : PersistenceLaws SnapshotStore.
Proof.
  split; simpl; intros.
  - apply lookup_empty.
  - apply lookup_insert_eq.
  - by apply lookup_insert_ne.
Qed.

(** The abstraction relation: the snapshot saved under [id] is what the
    mock's pointer for [id] points to now. *)
Definition abstracts (s : SnapshotStore) (h : Heap) (db : MockSpaceTimeDB) : Prop :=
  forall id, s !! id = load_snapshot h id db.

(** The locations the mock holds as saved states. *)
Definition saved (db : MockSpaceTimeDB) : gset loc := map_img (gameStates db).

(** A run of the program against the store: saves of a pointer, loads,
    and writes through a pointer by the rest of the program (a method of
    [GameState] called on it). *)
Inductive Event :=
| ESave (gameID : string) (state : loc)
| ELoad (gameID : string)
| EWrite (l : loc) (g : GameState).

(** The results of the loads of a run on the mock. *)
Fixpoint run_mock (h : Heap) (db : MockSpaceTimeDB) (es : list Event) : list (option GameState) :=
  match es with
  | [] => []
  | ESave id l :: es => run_mock h (SaveGameState id l db).1 es
  | ELoad id :: es => load_snapshot h id db :: run_mock h db es
  | EWrite l g :: es => run_mock (<[l := g]> h) db es
  end.

(** The same run against the contract: a save records the value behind
    the pointer at the time of the save (a nil pointer records nothing). *)
Fixpoint run_spec (h : Heap) (s : SnapshotStore) (es : list Event) : list (option GameState) :=
  match es with
  | [] => []
  | ESave id l :: es =>
      run_spec h (match h !! l with Some g => p_save id g s | None => delete id s end) es
  | ELoad id :: es => p_load id s :: run_spec h s es
  | EWrite l g :: es => run_spec (<[l := g]> h) s es
  end.

(** No write goes through a pointer the mock holds at that time. *)
Fixpoint no_aliased_write (db : MockSpaceTimeDB) (es : list Event) : Prop :=
  match es with
  | [] => True
  | ESave id l :: es => no_aliased_write (SaveGameState id l db).1 es
  | ELoad _ :: es => no_aliased_write db es
  | EWrite l _ :: es => (l ∉ saved db) /\ no_aliased_write db es
  end.

#[export] Instance no_aliased_write_dec db es : Decision (no_aliased_write db es).
Proof. revert db. induction es as [|[] es IH]; intros db; simpl; apply _. Defined.

(** ** Lemmas *)

Section MockLemmas.
Implicit Types (h : Heap) (db : MockSpaceTimeDB) (s : SnapshotStore).

Lemma load_snapshot_save_eq h db id l : load_snapshot h id (SaveGameState id l db).1 = h !! l.
Proof. unfold load_snapshot, LoadGameState. simpl. by rewrite lookup_insert_eq. Qed.

Lemma load_snapshot_save_ne h db id id' l :
  id' <> id -> load_snapshot h id' (SaveGameState id l db).1 = load_snapshot h id' db.
Proof. intros Hne. unfold load_snapshot, LoadGameState. simpl. by rewrite lookup_insert_ne. Qed.

Lemma load_snapshot_write h db id l g :
  l ∉ saved db -> load_snapshot (<[l := g]> h) id db = load_snapshot h id db.
Proof.
  intros Hl. unfold load_snapshot, LoadGameState.
  destruct (gameStates db !! id) as [l'|] eqn:E; [|done].
  apply lookup_insert_ne. intros ->. apply Hl, elem_of_map_img. eauto.
Qed.

Lemma abstracts_save h db s id l :
  abstracts s h db ->
  abstracts (match h !! l with Some g => p_save id g s | None => delete id s end) h (SaveGameState id l db).1.
Proof.
  intros Hs id'. destruct (decide (id' = id)) as [->|Hne].
  - rewrite load_snapshot_save_eq. destruct (h !! l); simpl; [apply lookup_insert_eq | apply lookup_delete_eq].
  - rewrite load_snapshot_save_ne by done. rewrite <-Hs.
    destruct (h !! l); simpl; [by apply lookup_insert_ne | by apply lookup_delete_ne].
Qed.

Lemma abstracts_write h db s l g :
  abstracts s h db -> l ∉ saved db -> abstracts s (<[l := g]> h) db.
Proof. intros Hs Hl id. by rewrite load_snapshot_write. Qed.

Lemma history_add id e db :
  gameHistory (AddGameHistoryEntry id e db).1 !! id = Some (default [] (gameHistory db !! id) ++ [e]).
Proof.
  cbn [AddGameHistoryEntry fst gameHistory set_gameHistory]. rewrite lookup_insert_eq.
  by destruct (gameHistory db !! id) eqn:E; rewrite ?E, ?lookup_insert_eq.
Qed.

Lemma history_adds id e es db :
  gameHistory (foldl (fun db e => (AddGameHistoryEntry id e db).1) (AddGameHistoryEntry id e db).1 es) !! id =
  Some (default [] (gameHistory db !! id) ++ e :: es).
Proof.
  revert e db. induction es as [|e' es IH]; intros e db; cbn [foldl].
  - apply history_add.
  - rewrite IH, history_add. simpl. by rewrite <-app_assoc.
Qed.

End MockLemmas.

#[export] Hint Resolve abstracts_save abstracts_write : poker.

(** ** Properties *)

(** C3: the mock refines the persistence contract (spec, section 6): on a
    run in which the rest of the program never writes through a pointer
    the mock holds, every load returns what the contract's store of
    snapshots returns, starting from related states. *)
Theorem mock_refines_snapshots h db s es :
  abstracts s h db -> no_aliased_write db es -> run_mock h db es = run_spec h s es.
Proof.
  revert h db s. induction es as [|[id l|id|l g] es IH]; intros h db s Hs Hw;
    cbn [run_mock run_spec no_aliased_write] in *.
  - done.
  - apply IH; auto with poker.
  - f_equal; [symmetry; apply Hs | by apply IH].
  - destruct Hw. apply IH; auto with poker.
Qed.

(** C21: [SaveGameState] keeps the caller's pointer, so a table saved and
    then played on (a write through the same pointer, which every
    button of the UI makes) loads as the table after the play, where the
    contract returns the snapshot taken at the save. *)
Theorem SaveGameState_aliases h db s id l g g' :
  h !! l = Some g ->
  run_mock h db [ESave id l; EWrite l g'; ELoad id] = [Some g'] /\
  run_spec h s [ESave id l; EWrite l g'; ELoad id] = [Some g].
Proof.
  intros Hl. simpl. rewrite Hl. unfold load_snapshot, LoadGameState. simpl.
  rewrite !lookup_insert_eq. simpl. split; f_equal; apply lookup_insert_eq.
Qed.

(** C22: a missing key is the error path of [LoadGameState]: it fails with
    "game state not found" exactly when no state was saved under the id,
    and so for every id on a fresh database. *)
Theorem LoadGameState_not_found id db :
  (LoadGameState id db = Err "game state not found" <-> gameStates db !! id = None) /\
  LoadGameState id NewMockSpaceTimeDB = Err "game state not found".
Proof.
  unfold LoadGameState. split; [|done]. by destruct (gameStates db !! id).
Qed.

(** C23: history round trip: after appending a list of entries to a game's
    history, [GetGameHistory] returns the earlier history followed by
    the entries in the order they were added; it fails only when the id
    has no history and nothing was added. *)
Theorem GetGameHistory_after_adds id es db :
  GetGameHistory id (foldl (fun db e => (AddGameHistoryEntry id e db).1) db es) =
  match gameHistory db !! id, es with
  | None, [] => Err "game history not found"
  | o, _ => Ok (default [] o ++ es)
  end.
Proof.
  unfold GetGameHistory. destruct es as [|e es]; cbn [foldl].
  - by destruct (gameHistory db !! id); rewrite ?app_nil_r.
  - rewrite history_adds. by destruct (gameHistory db !! id).
Qed.

(** C24: profile round trip: a saved profile loads back under its id, and
    saving it leaves every other player's profile as it was. *)
Theorem PlayerProfile_roundtrip p db id :
  LoadPlayerProfile (ProfileID p) (SavePlayerProfile p db).1 = Ok p /\
  (id <> ProfileID p -> LoadPlayerProfile id (SavePlayerProfile p db).1 = LoadPlayerProfile id db).
Proof.
  unfold LoadPlayerProfile. simpl. rewrite lookup_insert_eq. split; [done|].
  intros Hne. by rewrite lookup_insert_ne.
Qed.

(** ** Witnesses *)

Definition sample_heap : Heap := {[1%positive := sample_game]}.

(** A save, a write through another pointer, a load. *)
Lemma mock_refines_snapshots_witness :
  abstracts ∅ sample_heap NewMockSpaceTimeDB /\
  no_aliased_write NewMockSpaceTimeDB [ESave "game-1" 1%positive; EWrite 2%positive sample_hand; ELoad "game-1"] /\
  run_mock sample_heap NewMockSpaceTimeDB [ESave "game-1" 1%positive; EWrite 2%positive sample_hand; ELoad "game-1"] =
  run_spec sample_heap ∅ [ESave "game-1" 1%positive; EWrite 2%positive sample_hand; ELoad "game-1"].
Proof.
  assert (Hs : abstracts ∅ sample_heap NewMockSpaceTimeDB) by (intros id; reflexivity).
  assert (Hw : no_aliased_write NewMockSpaceTimeDB [ESave "game-1" 1%positive; EWrite 2%positive sample_hand; ELoad "game-1"])
    by (apply (bool_decide_unpack _); vm_compute; reflexivity).
  split; [exact Hs|]. split; [exact Hw|]. exact (mock_refines_snapshots _ _ _ _ Hs Hw).
Defined.

(** The table saved by [run] before its first hand, then played on. *)
Lemma SaveGameState_aliases_witness :
  sample_heap !! 1%positive = Some sample_game /\
  run_mock sample_heap NewMockSpaceTimeDB [ESave "game-1" 1%positive; EWrite 1%positive sample_hand; ELoad "game-1"] = [Some sample_hand] /\
  run_spec sample_heap ∅ [ESave "game-1" 1%positive; EWrite 1%positive sample_hand; ELoad "game-1"] = [Some sample_game].
Proof.
  assert (Hl : sample_heap !! 1%positive = Some sample_game) by reflexivity.
  split; [exact Hl | exact (SaveGameState_aliases _ _ _ _ _ _ _ Hl)].
Defined.

(** A profile saved on a fresh database; another id still has none. *)
Definition sample_profile : PlayerProfile := MkPlayerProfile "1" "Player 1" 1000 0 0 0 0.

Lemma PlayerProfile_roundtrip_witness :
  LoadPlayerProfile "1" (SavePlayerProfile sample_profile NewMockSpaceTimeDB).1 = Ok sample_profile /\
  LoadPlayerProfile "2" (SavePlayerProfile sample_profile NewMockSpaceTimeDB).1 = Err "player profile not found".
Proof.
  destruct (PlayerProfile_roundtrip sample_profile NewMockSpaceTimeDB "2") as [H1 H2].
  split; [exact H1|]. rewrite H2 by discriminate. reflexivity.
Defined.

End DB.
