(* ===== verification/UI.v ===== *)
(** * Presentation: the Gio user interface ([src/pkg/ui/game_ui.go], [src/pkg/ui/player_ui.go])

    [GameUI] holds a pointer to the live table, six buttons, a slider
    and the bet amount.  Every frame [Layout] records the drawing
    operations of the table (community cards, the acting player's
    labels, the buttons and the slider) and then runs
    [handleButtonClicks], which calls [ProcessAction] through the
    pointer once per clicked button and recomputes the bet amount from
    the slider.  [PlayerUI] draws one seat.

    The model keeps the operations the code records ([paint.FillShape],
    [op.Offset], [paint.ColorOp], text labels, buttons and the slider) in
    the order it records them, as a list of [Op]; the placement that
    Gio's [layout.Flex] and [layout.Inset] add around each child is not
    modelled.  A [widget.Clickable] is its count of pending clicks,
    [Clicked] takes one.  [float32] values are those of [Float32]:
    [float32(player.Chips)] and the product by the slider's value are
    rounded to the nearest [float32], and [int(...)] truncates towards
    zero.  [string(rune(n))] is modelled as Go defines
    it: [n] wraps to 32 bits and the rune is encoded in UTF-8, invalid
    code points as U+FFFD. *)

From stdpp Require Import gmap pretty.
From S2P Require Import Prelude Float32 Card Player Hand Game Betting Store.

Module UI.
Import Game Store.
Open Scope Z_scope.
#[local] Existing Instance Deck.Card_inhabited.

(** ** Colours and geometry *)

(** [color.NRGBA] *)
Record NRGBA := MkNRGBA { R : Z; G : Z; B : Z; A : Z }.

#[export] Instance NRGBA_eq_dec : EqDecision NRGBA.
Proof. solve_decision. Defined.

(** [image.Point] *)
Record Point := MkPoint { X : Z; Y : Z }.

#[export] Instance Point_eq_dec : EqDecision Point.
Proof. solve_decision. Defined.

(** [clip.Rect{Min, Max}] *)
Record Rect := MkRect { Min : Point; Max : Point }.

#[export] Instance Rect_eq_dec : EqDecision Rect.
Proof. solve_decision. Defined.

Definition origin : Point := MkPoint 0 0.

(** [type Theme struct]; the embedded [*material.Theme] (fonts and
    shaper) is not modelled. *)
Record Theme := MkTheme {
  CardBack : NRGBA;
  CardFront : NRGBA;
  TableColor : NRGBA;
  ButtonColor : NRGBA;
  PlayerColor : NRGBA;
  ActivePlayer : NRGBA
}.

(** [func NewTheme() *Theme] *)
Definition NewTheme : Theme :=
  MkTheme (MkNRGBA 32 32 128 255) (MkNRGBA 255 255 255 255) (MkNRGBA 0 128 64 255)
          (MkNRGBA 48 48 48 255) (MkNRGBA 64 64 64 255) (MkNRGBA 96 96 0 255).

Definition black : NRGBA := MkNRGBA 0 0 0 255.
Definition red : NRGBA := MkNRGBA 255 0 0 255.
Definition white : NRGBA := MkNRGBA 255 255 255 255.

(** ** The recorded operations *)

Inductive TextStyle := H6 | Body1 | Body2.

Inductive Op :=
| FillShape (r : Rect) (c : NRGBA)                    (** [paint.FillShape(ops, c, r.Op())] *)
| Offset (p : Point)                                  (** [op.Offset(p).Add(ops)] *)
| ColorOp (c : NRGBA)                                 (** [paint.ColorOp{Color: c}.Add(ops)] *)
| Text (size : Z) (s : string)                        (** [widget.Label{}.Layout(..., unit.Sp(size), s)] *)
| Label (style : TextStyle) (s : string) (c : option NRGBA)  (** [material.H6/Body1/Body2(th, s)] *)
| ButtonOp (s : string)                               (** [material.Button(th, &b, s)] *)
| SliderOp (lo hi : Z) (value : Float32.float32).     (** [material.Slider(th, &s, lo, hi)] *)

(** ** Drawing helpers *)

(** [func paintRect(gtx, size image.Point, col color.NRGBA)] *)
Definition paintRect (size : Point) (col : NRGBA) : list Op :=
  [FillShape (MkRect origin size) col].

(** [func drawBorder(gtx, size image.Point, col color.NRGBA, width float32)]:
    the top, bottom, left and right bands. *)
Definition drawBorder (size : Point) (col : NRGBA) (width : Float32.float32) : list Op :=
  let w := Float32.to_int width in
  [FillShape (MkRect (MkPoint 0 0) (MkPoint (X size) w)) col;
   FillShape (MkRect (MkPoint 0 (Y size - w)) (MkPoint (X size) (Y size))) col;
   FillShape (MkRect (MkPoint 0 0) (MkPoint w (Y size))) col;
   FillShape (MkRect (MkPoint (X size - w) 0) (MkPoint (X size) (Y size))) col].

(** The text colour of a card: red for hearts and diamonds. *)
Definition cardTextColor (card : Deck.Card) : NRGBA :=
  if bool_decide (Deck.CardSuit card = Deck.Hearts) || bool_decide (Deck.CardSuit card = Deck.Diamonds)
  then red else black.

(** [func (ui *GameUI) drawCard(gtx, card game.Card)]: an 80x120 card. *)
Definition drawCard (th : Theme) (card : Deck.Card) : list Op :=
  let size := MkPoint 80 120 in
  [FillShape (MkRect origin size) (CardFront th)] ++
  drawBorder size black (Float32.of_int 2) ++
  [Offset (MkPoint 10 30); ColorOp (cardTextColor card); Text 20 (Deck.Card_String card)].

(** [func (ui *GameUI) drawEmptyCard(gtx)] *)
Definition drawEmptyCard : list Op :=
  [FillShape (MkRect origin (MkPoint 80 120)) (MkNRGBA 200 200 200 100)].

(** [func drawSmallCard(gtx, card game.Card, theme *Theme)]: a 40x60 card. *)
Definition drawSmallCard (th : Theme) (card : Deck.Card) : list Op :=
  let size := MkPoint 40 60 in
  [FillShape (MkRect origin size) (CardFront th)] ++
  drawBorder size black (Float32.of_int 1) ++
  [Offset (MkPoint 5 15); ColorOp (cardTextColor card); Text 12 (Deck.Card_String card)].

(** [func drawSmallEmptyCard(gtx, theme *Theme)] *)
Definition drawSmallEmptyCard : list Op :=
  [FillShape (MkRect origin (MkPoint 40 60)) (MkNRGBA 200 200 200 100)].

(** ** [string(rune(n))] *)

(** [rune(n)]: an [int] converted to [int32] keeps its low 32 bits. *)
Definition go_rune (n : Z) : Z :=
  let m := n mod 2 ^ 32 in if decide (2 ^ 31 <= m) then m - 2 ^ 32 else m.

(** [utf8.EncodeRune]: a negative rune, a surrogate or a value beyond
    U+10FFFF is encoded as U+FFFD. *)
Definition utf8_encode (r : Z) : list Z :=
  let cont k := Z.lor 128 (Z.land (Z.shiftr r k) 63) in
  if decide (0 <= r <= 127) then [r]
  else if decide (0 <= r <= 2047) then [Z.lor 192 (Z.shiftr r 6); cont 0]
  else if decide (r < 0 \/ 1114111 < r \/ 55296 <= r <= 57343) then [239; 191; 189]
  else if decide (r <= 65535) then [Z.lor 224 (Z.shiftr r 12); cont 6; cont 0]
  else [Z.lor 240 (Z.shiftr r 18); cont 12; cont 6; cont 0].

Definition string_of_bytes (bs : list Z) : string :=
  String.string_of_list_ascii ((fun b => Ascii.ascii_of_N (Z.to_N b)) <$> bs).

(** [string(rune(n))] *)
Definition string_rune (n : Z) : string := string_of_bytes (utf8_encode (go_rune n)).

(** ** Widgets and the UI state *)

(** [widget.Clickable]: the clicks not yet reported. *)
Record Clickable := MkClickable { pending : nat }.

(** [b.Clicked()]: reports and removes the earliest pending click. *)
Definition Clicked (b : Clickable) : bool * Clickable :=
  match pending b with
  | O => (false, b)
  | S n => (true, MkClickable n)
  end.

(** [type GameUI struct]; [betSlider] is the slider's [Value]; the
    [cardImages] map is never read and is left out. *)
Record GameUI := MkGameUI {
  theme : Theme;
  gameState : loc;
  foldButton : Clickable;
  checkButton : Clickable;
  callButton : Clickable;
  betButton : Clickable;
  raiseButton : Clickable;
  allInButton : Clickable;
  betSlider : Float32.float32;
  betAmount : Z;
  windowSize : Point
}.

Definition set_foldButton v ui :=
  MkGameUI (theme ui) (gameState ui) v (checkButton ui) (callButton ui) (betButton ui)
    (raiseButton ui) (allInButton ui) (betSlider ui) (betAmount ui) (windowSize ui).
Definition set_checkButton v ui :=
  MkGameUI (theme ui) (gameState ui) (foldButton ui) v (callButton ui) (betButton ui)
    (raiseButton ui) (allInButton ui) (betSlider ui) (betAmount ui) (windowSize ui).
Definition set_callButton v ui :=
  MkGameUI (theme ui) (gameState ui) (foldButton ui) (checkButton ui) v (betButton ui)
    (raiseButton ui) (allInButton ui) (betSlider ui) (betAmount ui) (windowSize ui).
Definition set_betButton v ui :=
  MkGameUI (theme ui) (gameState ui) (foldButton ui) (checkButton ui) (callButton ui) v
    (raiseButton ui) (allInButton ui) (betSlider ui) (betAmount ui) (windowSize ui).
Definition set_raiseButton v ui :=
  MkGameUI (theme ui) (gameState ui) (foldButton ui) (checkButton ui) (callButton ui)
    (betButton ui) v (allInButton ui) (betSlider ui) (betAmount ui) (windowSize ui).
Definition set_allInButton v ui :=
  MkGameUI (theme ui) (gameState ui) (foldButton ui) (checkButton ui) (callButton ui)
    (betButton ui) (raiseButton ui) v (betSlider ui) (betAmount ui) (windowSize ui).
Definition set_betAmount v ui :=
  MkGameUI (theme ui) (gameState ui) (foldButton ui) (checkButton ui) (callButton ui)
    (betButton ui) (raiseButton ui) (allInButton ui) (betSlider ui) v (windowSize ui).
Definition set_windowSize v ui :=
  MkGameUI (theme ui) (gameState ui) (foldButton ui) (checkButton ui) (callButton ui)
    (betButton ui) (raiseButton ui) (allInButton ui) (betSlider ui) (betAmount ui) v.

(** [func NewGameUI(theme *Theme, gameState *game.GameState) *GameUI]:
    [betAmount: gameState.BigBlind] dereferences the pointer. *)
Definition NewGameUI (th : Theme) (l : loc) (h : Heap) : option GameUI :=
  g ← h !! l;
  Some (MkGameUI th l (MkClickable 0) (MkClickable 0) (MkClickable 0) (MkClickable 0)
          (MkClickable 0) (MkClickable 0) 0 (BigBlind g) origin).

(** [func (ui *GameUI) SetWindowSize(size image.Point)] *)
Definition SetWindowSize (size : Point) (ui : GameUI) : GameUI := set_windowSize size ui.

(** ** Drawing the table *)

(** [func (ui *GameUI) layoutCommunityCards(gtx)]: five slots, slot [i]
    showing [CommunityCards[i]] when [len(CommunityCards) > i]. *)
Definition communitySlot (th : Theme) (cc : list Deck.Card) (i : nat) : list Op :=
  if decide (i < length cc)%nat then drawCard th (cc !!! i) else drawEmptyCard.

Definition layoutCommunityCards (th : Theme) (g : GameState) : list Op :=
  communitySlot th (CommunityCards g) 0 ++ communitySlot th (CommunityCards g) 1 ++
  communitySlot th (CommunityCards g) 2 ++ communitySlot th (CommunityCards g) 3 ++
  communitySlot th (CommunityCards g) 4.

(** [func (ui *GameUI) layoutGameArea(gtx)]: the community cards inside an inset. *)
Definition layoutGameArea (th : Theme) (g : GameState) : list Op := layoutCommunityCards th g.

(** [func (ui *GameUI) layoutPlayerInfo(gtx)]: four labels about the
    player [GetCurrentPlayer()] returns; its index panics out of range. *)
Definition layoutPlayerInfo (th : Theme) (g : GameState) : option (list Op) :=
  player ← GetCurrentPlayer g;
  Some [Label H6 ("Player: " +:+ Player.Name player) None;
        Label Body1 ("Chips: " +:+ string_rune (Player.Chips player)) None;
        Label Body1 ("Current Bet: " +:+ string_rune (Player.Bet player)) None;
        Label Body1 ("Pot: " +:+ string_rune (Pot g)) None].

(** [func (ui *GameUI) layoutActionButtons(gtx)] *)
Definition layoutActionButtons : list Op := [ButtonOp "Fold"; ButtonOp "Check"; ButtonOp "Call"].

(** [func (ui *GameUI) layoutBetSlider(gtx)] *)
Definition layoutBetSlider (ui : GameUI) : list Op :=
  [SliderOp 0 1 (betSlider ui); ButtonOp "Bet"; ButtonOp "Raise"; ButtonOp "All In"].

(** [func (ui *GameUI) layoutControls(gtx)] *)
Definition layoutControls (ui : GameUI) (g : GameState) : option (list Op) :=
  info ← layoutPlayerInfo (theme ui) g;
  Some (info ++ layoutActionButtons ++ layoutBetSlider ui).

(** ** Handling the buttons *)

(** [if btn.Clicked() { ui.gameState.ProcessAction(action, amount) }];
    the boolean result is dropped. *)
Definition press (btn : GameUI -> Clickable) (set_btn : Clickable -> GameUI -> GameUI)
    (action : Z) (amount : GameUI -> Z) (st : Heap * GameUI) : option (Heap * GameUI) :=
  let '(h, ui) := st in
  let '(clicked, b) := Clicked (btn ui) in
  let ui := set_btn b ui in
  if clicked then
    '(_, h) ← ProcessAction_at h (gameState ui) action (amount ui);
    Some (h, ui)
  else Some (h, ui).

(** The last statements of [handleButtonClicks]: the bet amount is the
    slider's share of the acting player's stack, at least the big blind. *)
Definition updateBetAmount (st : Heap * GameUI) : option (Heap * GameUI) :=
  let '(h, ui) := st in
  g ← h !! gameState ui;
  player ← GetCurrentPlayer g;
  let amount := Float32.to_int (Float32.mul (betSlider ui) (Float32.of_int (Player.Chips player))) in
  let amount := if decide (amount < BigBlind g) then BigBlind g else amount in
  Some (h, set_betAmount amount ui).

(** [func (ui *GameUI) handleButtonClicks()] *)
Definition handleButtonClicks (h : Heap) (ui : GameUI) : option (Heap * GameUI) :=
  st ← press foldButton set_foldButton Action.Fold (fun _ => 0) (h, ui);
  st ← press checkButton set_checkButton Action.Check (fun _ => 0) st;
  st ← press callButton set_callButton Action.Call (fun _ => 0) st;
  st ← press betButton set_betButton Action.Bet betAmount st;
  st ← press raiseButton set_raiseButton Action.Raise betAmount st;
  st ← press allInButton set_allInButton Action.AllIn (fun _ => 0) st;
  updateBetAmount st.

(** [func (ui *GameUI) Layout(gtx)]: the table background, the game
    area and the controls are drawn from the state before the clicks are
    handled; [max] is [gtx.Constraints.Max]. *)
Definition Layout (max : Point) (h : Heap) (ui : GameUI) : option (list Op * (Heap * GameUI)) :=
  g ← h !! gameState ui;
  controls ← layoutControls ui g;
  st ← handleButtonClicks h ui;
  Some (paintRect max (TableColor (theme ui)) ++ layoutGameArea (theme ui) g ++ controls, st).

(** ** One seat: [PlayerUI] *)

(** [type PlayerUI struct]: the player is read when the seat is drawn. *)
Record PlayerUI := MkPlayerUI {
  player : Player.Player;
  position : Point;
  isActive : bool;
  puTheme : Theme
}.

(** [func NewPlayerUI(player *game.Player, position image.Point, theme *Theme) *PlayerUI] *)
Definition NewPlayerUI (p : Player.Player) (pos : Point) (th : Theme) : PlayerUI :=
  MkPlayerUI p pos false th.

(** [func (p *PlayerUI) SetActive(active bool)] *)
Definition SetActive (active : bool) (pu : PlayerUI) : PlayerUI :=
  MkPlayerUI (player pu) (position pu) active (puTheme pu).

(** [func (p *PlayerUI) layoutPlayerCards(gtx)]: two small cards. *)
Definition layoutPlayerCards (pu : PlayerUI) : list Op :=
  let cs := Player.Cards (player pu) in
  (if decide (0 < length cs)%nat then drawSmallCard (puTheme pu) (cs !!! 0%nat) else drawSmallEmptyCard) ++
  (if decide (1 < length cs)%nat then drawSmallCard (puTheme pu) (cs !!! 1%nat) else drawSmallEmptyCard).

(** [func (p *PlayerUI) Layout(gtx)]: a 150x100 panel, highlighted when
    the seat is active, with the name, stack, bet and hole cards. *)
Definition PlayerUI_Layout (pu : PlayerUI) : list Op :=
  let bgColor := if isActive pu then ActivePlayer (puTheme pu) else PlayerColor (puTheme pu) in
  [Offset (position pu); FillShape (MkRect origin (MkPoint 150 100)) bgColor;
   Label Body1 (Player.Name (player pu)) (Some white);
   Label Body2 ("Chips: " +:+ string_rune (Player.Chips (player pu))) (Some white);
   Label Body2 ("Bet: " +:+ string_rune (Player.Bet (player pu))) (Some white)] ++
  layoutPlayerCards pu.

(** The card faces a list of operations prints. *)
Definition texts (ops : list Op) : list string :=
  omap (fun o => match o with Text _ s => Some s | _ => None end) ops.

(** The rectangle [r] lies inside the box [(0,0)-(size)]. *)
Definition inside (size : Point) (r : Rect) : Prop :=
  0 <= X (Min r) /\ X (Min r) <= X (Max r) /\ X (Max r) <= X size /\
  0 <= Y (Min r) /\ Y (Min r) <= Y (Max r) /\ Y (Max r) <= Y size.

(** The point [p] lies in [r]; a [clip.Rect] is half-open. *)
Definition in_rect (r : Rect) (p : Point) : Prop :=
  X (Min r) <= X p < X (Max r) /\ Y (Min r) <= Y p < Y (Max r).

(** Some [paint.FillShape] of [ops] in the colour [col] covers [p]. *)
Definition filled (ops : list Op) (col : NRGBA) (p : Point) : Prop :=
  exists r, FillShape r col ∈ ops /\ in_rect r p.

(** The pending clicks of the six buttons, in the order they are handled. *)
Definition pendings (ui : GameUI) : list nat :=
  pending <$> [foldButton ui; checkButton ui; callButton ui; betButton ui; raiseButton ui; allInButton ui].

(** ** Lemmas: drawing *)

Section Drawing.

Lemma texts_app ops1 ops2 : texts (ops1 ++ ops2) = texts ops1 ++ texts ops2.
Proof. apply omap_app. Qed.

(** A card slot prints the card at index [i] when there is one. *)
Lemma texts_slot (draw : Deck.Card -> list Op) (empty : list Op) (cs : list Deck.Card) (i : nat) :
  (forall c, texts (draw c) = [Deck.Card_String c]) -> texts empty = [] ->
  texts (if decide (i < length cs)%nat then draw (cs !!! i) else empty) =
  Deck.Card_String <$> option_list (cs !! i).
Proof.
  intros Hd He. case_decide.
  - by rewrite Hd, (list_lookup_lookup_total_lt cs i).
  - by rewrite He, lookup_ge_None_2 by lia.
Qed.

Lemma texts_drawCard th c : texts (drawCard th c) = [Deck.Card_String c].
Proof. reflexivity. Qed.

Lemma take_lookups {T} (l : list T) :
  take 5 l = option_list (l !! 0%nat) ++ option_list (l !! 1%nat) ++ option_list (l !! 2%nat) ++
             option_list (l !! 3%nat) ++ option_list (l !! 4%nat) /\
  take 2 l = option_list (l !! 0%nat) ++ option_list (l !! 1%nat).
Proof. by destruct l as [|? [|? [|? [|? [|? l]]]]]. Qed.

End Drawing.

(** ** Lemmas: the buttons *)

Lemma Clicked_pending b : pending (Clicked b).2 = pred (pending b).
Proof. by destruct b as [[|n]]. Qed.

Section Press.
Context (btn : GameUI -> Clickable) (set_btn : Clickable -> GameUI -> GameUI)
        (action : Z) (amount : GameUI -> Z).
Hypothesis set_btn_gameState : forall b ui, gameState (set_btn b ui) = gameState ui.

Lemma press_inv st st' :
  press btn set_btn action amount st = Some st' ->
  st'.2 = set_btn (Clicked (btn st.2)).2 st.2 /\
  (forall l, l <> gameState st.2 -> st'.1 !! l = st.1 !! l) /\
  (pending (btn st.2) = 0%nat -> st'.1 = st.1) /\
  (pending (btn st.2) <> 0%nat ->
     exists ok, ProcessAction_at st.1 (gameState st.2) action (amount (set_btn (Clicked (btn st.2)).2 st.2))
                = Some (ok, st'.1)).
Proof.
  destruct st as [h ui]. unfold press. simpl.
  destruct (Clicked (btn ui)) as [clicked b] eqn:Hc.
  destruct clicked.
  - intros ([ok h1] & Hp & [= <-])%bind_Some. simpl.
    rewrite set_btn_gameState in Hp. split; [done|]. split.
    + intros l Hl. by apply (ProcessAction_at_frame _ _ _ _ _ _ _ Hp).
    + destruct (btn ui) as [[|n]]; simplify_eq/=. split; [done|]. intros _. eauto.
  - intros [= <-]. simpl. split; [done|]. split; [done|]. split; [done|].
    destruct (btn ui) as [[|n]]; simplify_eq/=. done.
Qed.

End Press.

Lemma updateBetAmount_inv h ui st' :
  updateBetAmount (h, ui) = Some st' ->
  exists g p, h !! gameState ui = Some g /\ GetCurrentPlayer g = Some p /\
  st' = (h, set_betAmount
              (let amount := Float32.to_int (Float32.mul (betSlider ui) (Float32.of_int (Player.Chips p))) in
               if decide (amount < BigBlind g) then BigBlind g else amount) ui).
Proof.
  unfold updateBetAmount. intros (g & Hg & (p & Hp & [= <-])%bind_Some)%bind_Some. eauto 10.
Qed.

(** Opens the seven steps of [handleButtonClicks] in [H]. *)
Ltac intros_handleButtonClicks H :=
  unfold handleButtonClicks; intros H;
  apply bind_Some in H as ([h1 ui1] & H1 & H);
  apply bind_Some in H as ([h2 ui2] & H2 & H);
  apply bind_Some in H as ([h3 ui3] & H3 & H);
  apply bind_Some in H as ([h4 ui4] & H4 & H);
  apply bind_Some in H as ([h5 ui5] & H5 & H);
  apply bind_Some in H as ([h6 ui6] & H6 & H);
  apply press_inv in H1 as (E1 & F1 & U1 & P1); [|done];
  apply press_inv in H2 as (E2 & F2 & U2 & P2); [|done];
  apply press_inv in H3 as (E3 & F3 & U3 & P3); [|done];
  apply press_inv in H4 as (E4 & F4 & U4 & P4); [|done];
  apply press_inv in H5 as (E5 & F5 & U5 & P5); [|done];
  apply press_inv in H6 as (E6 & F6 & U6 & P6); [|done];
  simpl in E1, E2, E3, E4, E5, E6, F1, F2, F3, F4, F5, F6, U1, U2, U3, U4, U5, U6, P1, P2, P3, P4, P5, P6;
  subst ui1 ui2 ui3 ui4 ui5 ui6;
  apply updateBetAmount_inv in H as (g & p & Hg & Hp & [= -> ->]).

(** A frame keeps the UI on its table. *)
Lemma handleButtonClicks_gameState h ui h' ui' :
  handleButtonClicks h ui = Some (h', ui') -> gameState ui' = gameState ui.
Proof. intros_handleButtonClicks H. done. Qed.

(** ** Lemmas: UTF-8 bytes and decimal text *)

Section Text.

Lemma lor_add a b k : 0 <= k -> 0 <= b < 2 ^ k -> a mod 2 ^ k = 0 -> Z.lor a b = a + b.
Proof.
  intros Hk Hb Ha. rewrite <-Z.lxor_lor, <-Z.add_nocarry_lxor; [done| |];
    apply Z.bits_inj'; intros n Hn; rewrite Z.land_spec, Z.bits_0;
    (destruct (Z.lt_ge_cases n k);
     [rewrite <-(Z.mod_pow2_bits_low a k n), Ha, Z.bits_0 by lia; done
     |rewrite <-(Z.mod_small b (2 ^ k)), Z.mod_pow2_bits_high by lia; apply andb_false_r]).
Qed.

(** The lead byte of a multi-byte sequence: a prefix [c] whose low [j]
    bits are clear, or-ed with the top bits of the rune. *)
Lemma lead_byte c k j r :
  0 <= k -> 0 <= j -> c mod 2 ^ j = 0 -> 0 <= r -> r / 2 ^ k < 2 ^ j ->
  Z.lor c (Z.shiftr r k) = c + r / 2 ^ k /\ 0 <= r / 2 ^ k.
Proof.
  intros Hk Hj Hc Hr Hlt. rewrite Z.shiftr_div_pow2 by done.
  assert (0 <= r / 2 ^ k) by (apply Z.div_pos; [done | apply Z.pow_pos_nonneg; lia]).
  split; [apply (lor_add _ _ j)|]; lia.
Qed.

(** A rune is one ASCII byte, itself, or a sequence of at most four
    bytes whose first byte is at least 0xC0. *)
Lemma utf8_encode_cases r :
  (0 <= r <= 127 /\ utf8_encode r = [r]) \/
  exists b bs, utf8_encode r = b :: bs /\ 192 <= b < 256 /\ (length bs <= 3)%nat.
Proof.
  unfold utf8_encode. case_decide; [by left|right]. case_decide as H2; [|case_decide; [|case_decide as H4]].
  - assert (r / 2 ^ 6 < 32) by (apply Z.div_lt_upper_bound; lia).
    destruct (lead_byte 192 6 6 r) as [-> ?]; [lia|lia|reflexivity|lia|lia|]. eexists _, _. split; [done|]. simpl; lia.
  - eexists _, _. split; [done|]. simpl; lia.
  - assert (r / 2 ^ 12 < 16) by (apply Z.div_lt_upper_bound; lia).
    destruct (lead_byte 224 12 5 r) as [-> ?]; [lia|lia|reflexivity|lia|lia|]. eexists _, _. split; [done|]. simpl; lia.
  - assert (r / 2 ^ 18 < 5) by (apply Z.div_lt_upper_bound; lia).
    destruct (lead_byte 240 18 3 r) as [-> ?]; [lia|lia|reflexivity|lia|lia|]. eexists _, _. split; [done|]. simpl; lia.
Qed.

Lemma go_rune_small n : 0 <= n < 2 ^ 31 -> go_rune n = n.
Proof. intros Hn. unfold go_rune. rewrite Z.mod_small by lia. case_decide; lia. Qed.

Definition is_digit (c : Ascii.ascii) : bool := bool_decide (48 <= Ascii.N_of_ascii c <= 57)%N.

Lemma pretty_N_char_digit x : is_digit (pretty_N_char x) = true.
Proof. unfold pretty_N_char. repeat case_match; reflexivity. Qed.

Lemma pretty_N_go_digits x s :
  Forall (fun c => is_digit c = true) (String.list_ascii_of_string s) ->
  Forall (fun c => is_digit c = true) (String.list_ascii_of_string (pretty_N_go x s)).
Proof.
  revert s. induction (N.lt_wf_0 x) as [x _ IH]; intros s Hs.
  destruct (decide (x = 0)%N) as [->|Hx]; [by rewrite pretty_N_go_0|].
  rewrite pretty_N_go_step by lia. apply IH; [apply N.div_lt; lia|].
  constructor; [apply pretty_N_char_digit | done].
Qed.

Lemma pretty_N_go_length x s : (String.length s <= String.length (pretty_N_go x s))%nat.
Proof.
  revert s. induction (N.lt_wf_0 x) as [x _ IH]; intros s.
  destruct (decide (x = 0)%N) as [->|Hx]; [by rewrite pretty_N_go_0|].
  rewrite pretty_N_go_step by lia. etrans; [|apply IH; apply N.div_lt; lia]. simpl; lia.
Qed.

Lemma pretty_N_go_min_length x :
  (0 < x)%N -> (1 <= String.length (pretty_N_go x ""))%nat /\
               ((10 <= x)%N -> (2 <= String.length (pretty_N_go x ""))%nat).
Proof.
  intros Hx. rewrite pretty_N_go_step by done.
  split; [etrans; [|apply pretty_N_go_length]; simpl; lia|].
  intros H10. rewrite pretty_N_go_step by (apply N.div_str_pos; lia).
  etrans; [|apply pretty_N_go_length]. simpl; lia.
Qed.

(** [strconv.Itoa]'s text of a positive number: a digit, then more
    characters from 10 on. *)
Lemma pretty_pos_shape n :
  0 < n -> exists c s, pretty n = String.String c s /\ is_digit c = true /\
  (10 <= n -> (1 <= String.length s)%nat).
Proof.
  intros Hn. destruct n as [|p|p]; try lia.
  change (pretty (Z.pos p)) with (if decide (N.pos p = 0%N) then "0" else pretty_N_go (N.pos p) "").
  rewrite decide_False by done.
  pose proof (pretty_N_go_digits (N.pos p) "" ltac:(constructor)) as Hd.
  destruct (pretty_N_go_min_length (N.pos p)) as [H1 H2]; [lia|].
  destruct (pretty_N_go _ _) as [|c s]; [simpl in H1; lia|].
  exists c, s. split; [done|]. split; [by inversion Hd|]. intros. simpl in H2. lia.
Qed.

(** A prefix cancels. *)
Lemma append_cancel_l (pre a b : string) : pre +:+ a = pre +:+ b -> a = b.
Proof. induction pre as [|c pre IH]; simpl; [done|]. intros [= H]. auto. Qed.

(** [string(rune(n))] is never the decimal numeral of [n >= 0]. *)
Lemma string_rune_not_decimal n : 0 <= n -> string_rune n <> pretty n.
Proof.
  intros Hn. destruct (decide (n = 0)) as [->|Hn0]; [intros H; vm_compute in H; discriminate H|].
  destruct (pretty_pos_shape n) as (c & s & -> & Hc & Hlen); [lia|].
  unfold string_rune. unfold is_digit in Hc. apply bool_decide_eq_true in Hc.
  destruct (utf8_encode_cases (go_rune n)) as [[Hr ->] | (b & bs & -> & Hb & _)];
    cbn [string_of_bytes fmap list_fmap String.string_of_list_ascii]; intros [= Hcb Hs].
  - destruct (decide (10 <= n)) as [H10|H10].
    + specialize (Hlen H10). subst s. simpl in Hlen. lia.
    + rewrite go_rune_small in Hcb by lia. subst c.
      rewrite Ascii.N_ascii_embedding in Hc by lia. lia.
  - subst c. rewrite Ascii.N_ascii_embedding in Hc by lia. lia.
Qed.

End Text.

(** ** Properties: drawing *)

(** C30: the table shows the community cards as they are dealt: the card
    faces of [layoutCommunityCards] are the texts of the first five
    community cards, in order, and the remaining slots are drawn empty. *)
Theorem layoutCommunityCards_texts th g :
  texts (layoutCommunityCards th g) = Deck.Card_String <$> take 5 (CommunityCards g).
Proof.
  unfold layoutCommunityCards, communitySlot. rewrite !texts_app, !texts_slot by done.
  by rewrite (proj1 (take_lookups _)), !fmap_app.
Qed.

(** A seat shows its hole cards: the card faces of [PlayerUI.Layout]
    are the texts of the player's first two cards. *)
Theorem PlayerUI_Layout_texts pu :
  texts (PlayerUI_Layout pu) = Deck.Card_String <$> take 2 (Player.Cards (player pu)).
Proof.
  unfold PlayerUI_Layout, layoutPlayerCards. rewrite !texts_app, !texts_slot by done.
  by rewrite (proj2 (take_lookups _)), !fmap_app.
Qed.

(** C29: the card border: [drawBorder] fills, in the border colour,
    exactly the points of the card that lie within [int(width)] of one of
    its four sides; for a width between 0 and both sides of the card
    every band it fills lies inside the card. *)
Theorem drawBorder_frame size col width p :
  in_rect (MkRect origin size) p ->
  (filled (drawBorder size col width) col p <->
     Y p < Float32.to_int width \/ Y size - Float32.to_int width <= Y p \/
     X p < Float32.to_int width \/ X size - Float32.to_int width <= X p) /\
  (0 <= Float32.to_int width <= X size -> Float32.to_int width <= Y size ->
   Forall (fun o => exists r, o = FillShape r col /\ inside size r) (drawBorder size col width)).
Proof.
  unfold drawBorder, filled, in_rect, inside. set (w := Float32.to_int width). simpl.
  intros Hp. split; [split|].
  - intros (r & Hin & Hr). rewrite !elem_of_cons, elem_of_nil in Hin.
    destruct Hin as [Hin|[Hin|[Hin|[Hin|[]]]]]; injection Hin as ->; simpl in Hr; lia.
  - intros [H|[H|[H|H]]].
    + exists (MkRect (MkPoint 0 0) (MkPoint (X size) w)). split; [by left|simpl; lia].
    + exists (MkRect (MkPoint 0 (Y size - w)) (MkPoint (X size) (Y size))).
      split; [by right; left|simpl; lia].
    + exists (MkRect (MkPoint 0 0) (MkPoint w (Y size))). split; [by do 2 right; left|simpl; lia].
    + exists (MkRect (MkPoint (X size - w) 0) (MkPoint (X size) (Y size))).
      split; [by do 3 right; left|simpl; lia].
  - intros Hx Hy. repeat constructor; eexists; (split; [reflexivity|]); simpl; lia.
Qed.

(** C9: a frame's click handling writes only the table the UI points to,
    keeps pointing to it, and takes exactly one pending click from each
    button that has one: one [ProcessAction] per click, at most one per
    button and frame. *)
Theorem handleButtonClicks_frame h ui h' ui' :
  handleButtonClicks h ui = Some (h', ui') ->
  (forall l, l <> gameState ui -> h' !! l = h !! l) /\ gameState ui' = gameState ui /\
  pendings ui' = pred <$> pendings ui.
Proof.
  intros_handleButtonClicks H. split; [|split; [done|]].
  - intros l Hl. by rewrite F6, F5, F4, F3, F2, F1.
  - unfold pendings. cbn. by rewrite !Clicked_pending.
Qed.

(** C25: bounds of the bet amount: after a frame it is at least the big
    blind; for a slider value in [[0, 1]] and a non-negative stack it is
    at most the larger of the big blind and the stack as [float32]
    rounds it, which is the stack itself up to [2^24] chips.  Above
    [2^24] the rounding can exceed the stack (see the witness). *)
Theorem handleButtonClicks_betAmount h ui h' ui' :
  handleButtonClicks h ui = Some (h', ui') ->
  exists g p, h' !! gameState ui = Some g /\ GetCurrentPlayer g = Some p /\
  BigBlind g <= betAmount ui' /\
  (0 <= betSlider ui <= Float32.one -> 0 <= Player.Chips p ->
   betAmount ui' <= Z.max (BigBlind g) (Float32.to_int (Float32.of_int (Player.Chips p))) /\
   (Player.Chips p <= 2 ^ 24 -> betAmount ui' <= Z.max (BigBlind g) (Player.Chips p))).
Proof.
  intros_handleButtonClicks H. exists g, p. split; [done|]. split; [done|].
  cbn [betAmount set_betAmount betSlider]. split; [case_decide; lia|]. intros Hv Hc.
  pose proof (Float32.to_int_mono _ _ (Float32.mul_unit_le _ _ Hv Hc)) as Hm.
  split; [case_decide; lia|]. intros H24.
  rewrite Float32.to_int_of_int_exact in Hm by lia. case_decide; lia.
Qed.

(** C26: a Bet click sends the amount computed at the end of the previous
    frame, from the slider and the stack of the player who was acting
    then: when it is the only pending click, the frame is one
    [ProcessAction(Bet, betAmount)] on the table. *)
Theorem handleButtonClicks_bet h ui h' ui' k :
  pendings ui = [0; 0; 0; S k; 0; 0]%nat ->
  handleButtonClicks h ui = Some (h', ui') ->
  exists ok, ProcessAction_at h (gameState ui) Action.Bet (betAmount ui) = Some (ok, h').
Proof.
  intros Hpend. intros_handleButtonClicks H. unfold pendings in Hpend. simplify_eq/=.
  rewrite U6, U5 by (by rewrite ?Clicked_pending; lia).
  destruct P4 as [ok Hok]; [lia|]. rewrite U3, U2, U1 in Hok by done. eauto.
Qed.

(** ** Properties: the labels *)

(** C27: the chips, bet and pot labels of [layoutPlayerInfo] print
    [string(rune(n))], the character whose code point is [n]: for no
    non-negative count is its label the decimal numeral
    [strconv.Itoa(n)] the code means to show. *)
Theorem layoutPlayerInfo_not_decimal th g ops p :
  layoutPlayerInfo th g = Some ops -> GetCurrentPlayer g = Some p ->
  (0 <= Player.Chips p -> Label Body1 ("Chips: " +:+ pretty (Player.Chips p)) None ∉ ops) /\
  (0 <= Player.Bet p -> Label Body1 ("Current Bet: " +:+ pretty (Player.Bet p)) None ∉ ops) /\
  (0 <= Pot g -> Label Body1 ("Pot: " +:+ pretty (Pot g)) None ∉ ops).
Proof.
  unfold layoutPlayerInfo. intros Hops Hp. rewrite Hp in Hops. injection Hops as <-.
  split_and!; intros Hn Hin; rewrite !elem_of_cons, elem_of_nil in Hin;
    destruct Hin as [Hin|[Hin|[Hin|[Hin|[]]]]]; injection Hin as Hin; try discriminate Hin;
    apply append_cancel_l in Hin; by apply (string_rune_not_decimal _ Hn).
Qed.

(** ** Witnesses *)

(** The UI of [run] on the first hand, its slider at one half. *)
Definition ui_heap : Heap := {[1%positive := sample_hand]}.

Definition idle_ui : GameUI :=
  MkGameUI NewTheme 1%positive (MkClickable 0) (MkClickable 0) (MkClickable 0) (MkClickable 0)
    (MkClickable 0) (MkClickable 0) (2 ^ 148) 10 origin.

Definition fold_ui : GameUI := set_foldButton (MkClickable 1) idle_ui.

Definition bet_ui : GameUI := set_betButton (MkClickable 1) idle_ui.

(** The first hand of [run] with a stack of 16777219 chips for the
    acting player, and a UI whose slider is at 1. *)
Definition rich_hand : GameState :=
  match GetCurrentPlayer sample_hand with
  | Some p => set_player (CurrentPos sample_hand) (Player.set_Chips 16777219 p) sample_hand
  | None => sample_hand
  end.

Definition rich_heap : Heap := {[1%positive := rich_hand]}.

Definition full_ui : GameUI :=
  MkGameUI NewTheme 1%positive (MkClickable 0) (MkClickable 0) (MkClickable 0) (MkClickable 0)
    (MkClickable 0) (MkClickable 0) Float32.one 10 origin.


(** The top band of a card drawn by [drawCard]. *)
Lemma drawBorder_frame_witness :
  in_rect (MkRect origin (MkPoint 80 120)) (MkPoint 40 1) /\
  filled (drawBorder (MkPoint 80 120) black (Float32.of_int 2)) black (MkPoint 40 1).
Proof.
  assert (Hp : in_rect (MkRect origin (MkPoint 80 120)) (MkPoint 40 1)) by (unfold in_rect; simpl; lia).
  split; [exact Hp|]. apply (drawBorder_frame _ _ _ _ Hp). left. vm_compute. reflexivity.
Defined.

Lemma layoutPlayerInfo_not_decimal_witness :
  exists ops p, layoutPlayerInfo NewTheme sample_hand = Some ops /\ GetCurrentPlayer sample_hand = Some p /\
  (0 <= Player.Chips p -> Label Body1 ("Chips: " +:+ pretty (Player.Chips p)) None ∉ ops) /\
  (0 <= Player.Bet p -> Label Body1 ("Current Bet: " +:+ pretty (Player.Bet p)) None ∉ ops) /\
  (0 <= Pot sample_hand -> Label Body1 ("Pot: " +:+ pretty (Pot sample_hand)) None ∉ ops).
Proof.
  obtain E1 (layoutPlayerInfo NewTheme sample_hand). obtain E2 (GetCurrentPlayer sample_hand).
  exists x, x0. split; [reflexivity|]. split; [reflexivity|].
  exact (layoutPlayerInfo_not_decimal _ _ _ _ E1 E2).
Defined.

(** A frame in which the acting seat's Fold button was clicked once. *)
Lemma handleButtonClicks_frame_witness :
  exists h' ui', handleButtonClicks ui_heap fold_ui = Some (h', ui') /\
  (forall l, l <> gameState fold_ui -> h' !! l = ui_heap !! l) /\ gameState ui' = gameState fold_ui /\
  pendings ui' = pred <$> pendings fold_ui.
Proof.
  destruct (handleButtonClicks ui_heap fold_ui) as [[h' ui']|] eqn:E; [|vm_compute in E; discriminate E].
  exists h', ui'. split; [reflexivity|]. exact (handleButtonClicks_frame _ _ _ _ E).
Defined.

(** A stack of 16777219 chips, the slider at 1: [float32(16777219)] is
    16777220, and so is the bet amount, one chip above the stack. *)
Lemma handleButtonClicks_betAmount_witness :
  exists h' ui', handleButtonClicks rich_heap full_ui = Some (h', ui') /\
  (exists g p, h' !! gameState full_ui = Some g /\ GetCurrentPlayer g = Some p /\
   BigBlind g <= betAmount ui' /\
   (0 <= betSlider full_ui <= Float32.one -> 0 <= Player.Chips p ->
    betAmount ui' <= Z.max (BigBlind g) (Float32.to_int (Float32.of_int (Player.Chips p))) /\
    (Player.Chips p <= 2 ^ 24 -> betAmount ui' <= Z.max (BigBlind g) (Player.Chips p)))) /\
  betAmount ui' = 16777220 /\ Player.Chips <$> GetCurrentPlayer rich_hand = Some 16777219.
Proof.
  destruct (handleButtonClicks rich_heap full_ui) as [[h' ui']|] eqn:E; [|vm_compute in E; discriminate E].
  exists h', ui'. split; [reflexivity|]. split; [exact (handleButtonClicks_betAmount _ _ _ _ E)|].
  split; [revert E; vm_compute; intros [= _ <-]; reflexivity|vm_compute; reflexivity].
Defined.

(** The acting seat bets the 10 chips the previous frame computed. *)
Lemma handleButtonClicks_bet_witness :
  pendings bet_ui = [0; 0; 0; 1; 0; 0]%nat /\
  exists h' ui', handleButtonClicks ui_heap bet_ui = Some (h', ui') /\
  exists ok, ProcessAction_at ui_heap (gameState bet_ui) Action.Bet (betAmount bet_ui) = Some (ok, h').
Proof.
  assert (Hp : pendings bet_ui = [0; 0; 0; 1; 0; 0]%nat) by reflexivity.
  split; [exact Hp|].
  destruct (handleButtonClicks ui_heap bet_ui) as [[h' ui']|] eqn:E; [|vm_compute in E; discriminate E].
  exists h', ui'. split; [reflexivity|]. exact (handleButtonClicks_bet _ _ _ _ 0 Hp E).
Defined.

End UI.
