(* ===== verification/App.v ===== *)
(** * The application: [main] and [run] ([src/cmd/poker/main.go])

    [main] creates the mock database and connects to it; [run] builds
    the sample table, starts its first hand, saves the table pointer
    under "game-1", creates the UI on the same pointer and then handles
    window events until the window is destroyed: each frame event sets
    the window size and lays out the UI, which handles the clicks.

    The window system is an input to the model: a [FrameEvent] carries
    the size of the frame and the input Gio routes to the widgets (new
    clicks per button, in the order of [pendings], and the slider's
    value).  The JavaScript callback [startNewGame] only logs and is not
    modelled. *)

From stdpp Require Import gmap.
From S2P Require Import Prelude Float32 Card Player Hand Game Betting Store DB UI.

Module App.
Import Game Store DB UI.
Open Scope Z_scope.

(** ** Data *)

(** [system.DestroyEvent] and [system.FrameEvent] with their input. *)
Inductive WindowEvent :=
| DestroyEvent (err : option string)
| FrameEvent (size : Point) (clicks : list nat) (slider : Float32.float32).

(** The program's state: the heap, the database and the UI. *)
Record AppState := MkAppState { heap : Heap; mockDB : MockSpaceTimeDB; gameUI : GameUI }.

(** ** Operations *)

(** Gio delivers a frame's input to the widgets before [Layout] runs. *)
Definition deliver (clicks : list nat) (slider : Float32.float32) (ui : GameUI) : GameUI :=
  let add (b : Clickable) (i : nat) := MkClickable (pending b + default 0 (clicks !! i))%nat in
  MkGameUI (theme ui) (gameState ui) (add (foldButton ui) 0%nat) (add (checkButton ui) 1%nat)
    (add (callButton ui) 2%nat) (add (betButton ui) 3%nat) (add (raiseButton ui) 4%nat)
    (add (allInButton ui) 5%nat) slider (betAmount ui) (windowSize ui).

(** The statements of [run] before its event loop, [rnd] being the
    shuffle's random source. *)
Definition run_setup (rnd : nat -> nat) (db : MockSpaceTimeDB) : option AppState :=
  let players := [Player.NewPlayer "1" "Player 1" 1000 0; Player.NewPlayer "2" "Player 2" 1000 1;
                  Player.NewPlayer "3" "Player 3" 1000 2; Player.NewPlayer "4" "Player 4" 1000 3] in
  let '(gameState, h) := alloc ∅ (NewGameState players 5 10) in
  h ← StartNewHand_at rnd h gameState;
  let gameID := "game-1" in
  let '(db, _) := SaveGameState gameID gameState db in
  let theme := NewTheme in
  gameUI ← NewGameUI theme gameState h;
  Some (MkAppState h db gameUI).

(** One event of the loop: [None] is a panic; [inl err] is the loop's
    [return e.Err], [inr st] the state for the next event. *)
Definition run_event (st : AppState) (e : WindowEvent) : option (option string + AppState) :=
  match e with
  | DestroyEvent err => Some (inl err)
  | FrameEvent size clicks slider =>
      let ui := SetWindowSize size (deliver clicks slider (gameUI st)) in
      '(_, (h, ui)) ← Layout size (heap st) ui;
      Some (inr (MkAppState h (mockDB st) ui))
  end.

(** The event loop [for { e := <-w.Events(); switch ... }] over the
    events the window delivers: the result is the error [run] returns,
    or the state when the events run out. *)
Fixpoint run_loop (st : AppState) (es : list WindowEvent) : option (option string + AppState) :=
  match es with
  | [] => Some (inr st)
  | e :: es =>
      r ← run_event st e;
      match r with
      | inl err => Some (inl err)
      | inr st => run_loop st es
      end
  end.

(** [func main()]: the database, [Connect] ([log.Fatalf] on an error),
    then [run]. *)
Definition main (rnd : nat -> nat) (es : list WindowEvent) : option (option string + AppState) :=
  let mockDB := NewMockSpaceTimeDB in
  match Connect mockDB with
  | Err _ => None
  | Ok _ => st ← run_setup rnd mockDB; run_loop st es
  end.

(** ** Invariant *)

(** The database's "game-1" is the table the UI plays on. *)
Definition snapshot_is_live (st : AppState) : Prop :=
  LoadGameState "game-1" (mockDB st) = Ok (gameState (gameUI st)).

(** ** Lemmas *)

Lemma run_event_live st e st' :
  snapshot_is_live st -> run_event st e = Some (inr st') -> snapshot_is_live st'.
Proof.
  unfold snapshot_is_live. destruct e as [err|size clicks slider]; simpl; [done|].
  intros Hl ([ops [h ui]] & HL & [= <-])%bind_Some. simpl.
  unfold Layout in HL. apply bind_Some in HL as (g & _ & HL).
  apply bind_Some in HL as (c & _ & HL). apply bind_Some in HL as ([h1 ui1] & Hh & [= _ <- <-]).
  apply handleButtonClicks_gameState in Hh as ->. exact Hl.
Qed.

Lemma run_loop_live st es st' :
  snapshot_is_live st -> run_loop st es = Some (inr st') -> snapshot_is_live st'.
Proof.
  revert st. induction es as [|e es IH]; intros st Hl; simpl; [by intros [= <-]|].
  intros (r & Hr & H)%bind_Some. destruct r as [err|st1]; [done|].
  apply (IH st1); [by apply (run_event_live st e)|done].
Qed.

Lemma run_setup_live rnd db st : run_setup rnd db = Some st -> snapshot_is_live st.
Proof.
  unfold run_setup. destruct (alloc _ _) as [l h]. intros (h1 & _ & H)%bind_Some.
  destruct (SaveGameState _ _ _) as [db1 r] eqn:Hs.
  apply bind_Some in H as (ui & Hui & [= <-]). unfold snapshot_is_live. simpl.
  unfold NewGameUI in Hui. apply bind_Some in Hui as (g & _ & [= <-]). simpl.
  unfold SaveGameState in Hs. injection Hs as <- _. unfold LoadGameState. simpl.
  by rewrite lookup_insert_eq.
Qed.

(** ** Properties *)

(** C10: the saved game is the live table: after [run]'s setup and any
    frames the window delivers, [LoadGameState("game-1")] returns the
    very pointer the UI plays on, so what the database holds is the
    table as it is now, never the snapshot saved before the first hand
    was played. *)
Theorem main_snapshot_is_live rnd es st :
  main rnd es = Some (inr st) -> LoadGameState "game-1" (mockDB st) = Ok (gameState (gameUI st)).
Proof.
  unfold main. simpl. intros (st0 & H0 & H)%bind_Some.
  exact (run_loop_live st0 es st (run_setup_live _ _ _ H0) H).
Qed.

(** C31: the loop ends at the first [DestroyEvent] and returns its error:
    the frames before it are handled, the events after it never are. *)
Theorem run_loop_destroy st frames err rest :
  run_loop st (frames ++ DestroyEvent err :: rest) = run_loop st (frames ++ [DestroyEvent err]).
Proof.
  revert st. induction frames as [|e frames IH]; intros st; simpl; [done|].
  destruct (run_event st e) as [[?|st1]|]; simpl; auto.
Qed.

(** ** Witnesses *)

(** A fold click on the first frame: the database's game is the table
    after the fold. *)
Definition sample_events : list WindowEvent :=
  [FrameEvent (MkPoint 800 600) [1; 0; 0; 0; 0; 0]%nat (2 ^ 148);
   FrameEvent (MkPoint 800 600) [0; 0; 0; 0; 0; 0]%nat (2 ^ 148)].

Lemma main_snapshot_is_live_witness :
  exists st, main (fun _ => 0%nat) sample_events = Some (inr st) /\
  LoadGameState "game-1" (mockDB st) = Ok (gameState (gameUI st)) /\
  load_snapshot (heap st) "game-1" (mockDB st) <> Some sample_hand.
Proof.
  destruct (main (fun _ => 0%nat) sample_events) as [[err|st]|] eqn:E;
    [vm_compute in E; discriminate E| |vm_compute in E; discriminate E].
  exists st. split; [reflexivity|]. split; [exact (main_snapshot_is_live _ _ _ E)|].
  revert E. vm_compute. intros [= <-]. discriminate.
Defined.

End App.
