(* ===== verification/Lifecycle.v ===== *)
(** * The life of a table: reachable states and the cards in play

    A table is created by [NewGameState] with players holding no cards;
    after that it changes only by [StartNewHand] and [ProcessAction]
    ([advancePhase] and the deals run inside [ProcessAction]).  The
    reachable tables are the closure of those steps ([reachable]).

    The spec's dealing property (section 8: no card is in two players'
    hole cards or in the community cards at once) is an invariant of
    every reachable table: the cards of the deck, the board and the
    hands together form a sub-multiset of the 52 cards of [NewDeck], so
    they are pairwise distinct ([reachable_cards_unique]).  Burnt cards
    leave the table, which is why the invariant is [⊆+] and not [≡ₚ]. *)

From S2P Require Import Prelude Card Player Hand Game Betting.

Module Lifecycle.
Import Game Betting.
Open Scope Z_scope.

(** ** Data *)

(** The hole cards of every seat, in seat order. *)
Definition hole_cards (ps : list Player.Player) : list Deck.Card := ps ≫= Player.Cards.

(** Every card the table holds: the deck, the board and the hands. *)
Definition table_cards (g : GameState) : list Deck.Card :=
  Deck.Cards (Deck g) ++ CommunityCards g ++ hole_cards (Players g).

(** The steps a table takes after its creation. *)
Inductive step : GameState -> GameState -> Prop :=
| step_hand rnd g g' : StartNewHand rnd g = Some g' -> step g g'
| step_action action amount g b g' : ProcessAction action amount g = Some (b, g') -> step g g'.

(** The tables of the program: created empty-handed, then stepped. *)
Inductive reachable : GameState -> Prop :=
| reach_new players smallBlind bigBlind :
    Forall (fun p => Player.Cards p = []) players ->
    reachable (NewGameState players smallBlind bigBlind)
| reach_step g g' : reachable g -> step g g' -> reachable g'.

(** ** Lemmas: what each operation does to the cards *)

Section Cards.

Lemma hole_cards_app ps qs : hole_cards (ps ++ qs) = hole_cards ps ++ hole_cards qs.
Proof. apply bind_app. Qed.

Lemma hole_cards_store ps i p p' :
  ps.[i] = Some p -> Player.Cards p' = Player.Cards p -> hole_cards (ps.[i := p']) = hole_cards ps.
Proof.
  intros (_ & Hl)%go_index_Some Hc. unfold go_store, hole_cards.
  revert ps Hl. induction (Z.to_nat i) as [|n IH]; intros [|q ps] Hl; simplify_eq/=; [by rewrite Hc|].
  by rewrite IH.
Qed.

(** The switch of [ProcessAction] changes stacks, bets and statuses,
    never cards. *)
Lemma applyAction_cards action amount g p g1 :
  (Players g).[CurrentPos g] = Some p ->
  applyAction action amount g p = Some g1 -> table_cards g1 = table_cards g.
Proof.
  intros Hp. unfold applyAction, table_cards.
  repeat case_decide; repeat destruct_PlaceBet; destruct_or?; destruct_and?; simplify_eq/=;
    intros; simplify_eq/=; unfold set_player; simpl; do 2 f_equal; apply (hole_cards_store _ _ p);
    rewrite ?Player.PlaceBet_Cards; auto.
Qed.

Lemma burn_cards g : table_cards (burn g) ⊆+ table_cards g.
Proof.
  unfold burn, table_cards. simpl. destruct (Deck.DrawOne (Deck g)) as [[c ok] d] eqn:E.
  simpl. apply Deck.DrawOne_cases in E as [(_ & ->)|(_ & _ & -> & _)]; [|done].
  by apply submseteq_cons.
Qed.

Lemma drawCommunity_cards g : table_cards (drawCommunity g) ≡ₚ table_cards g.
Proof.
  unfold drawCommunity, table_cards. destruct (Deck.DrawOne (Deck g)) as [[c ok] d] eqn:E.
  apply Deck.DrawOne_cases in E as [(-> & ->)|(-> & _ & -> & _)]; simpl; [|done].
  rewrite <-app_assoc. simpl. solve_Permutation.
Qed.

Lemma iter_drawCommunity_cards k g : table_cards (Nat.iter k drawCommunity g) ≡ₚ table_cards g.
Proof. induction k as [|k IH]; simpl; [done|]. by rewrite drawCommunity_cards. Qed.

Lemma openStreet_cards phase g g' : openStreet phase g = Some g' -> table_cards g' = table_cards g.
Proof. unfold openStreet. by intros (pos & _ & [= <-])%bind_Some. Qed.

(** A street burns one card and turns [k] more. *)
Lemma street_cards k to g g' :
  openStreet to (Nat.iter k drawCommunity (burn g)) = Some g' -> table_cards g' ⊆+ table_cards g.
Proof.
  intros ->%openStreet_cards. rewrite iter_drawCommunity_cards. apply burn_cards.
Qed.

Lemma advancePhase_cards g g' : advancePhase g = Some g' -> table_cards g' ⊆+ table_cards g.
Proof.
  unfold advancePhase, DealFlop, DealTurn, DealRiver.
  repeat case_decide; intros Hadv; simplify_eq; try done;
    [apply (street_cards 3 _ _ _ Hadv)|apply (street_cards 1 _ _ _ Hadv)..].
Qed.

Lemma ProcessAction_cards action amount g b g' :
  ProcessAction action amount g = Some (b, g') -> table_cards g' ⊆+ table_cards g.
Proof.
  intros (p & Hp & [(_ & -> & _)|(_ & g1 & pos & Ha & _ & Hcl)])%ProcessAction_cases; [done|].
  rewrite <-(applyAction_cards _ _ _ _ _ Hp Ha).
  destruct (closes g1 pos); [|by subst].
  by apply advancePhase_cards in Hcl.
Qed.

(** One dealing pass moves cards from the deck to the hands. *)
Lemma dealPass_cards d ps :
  Deck.Cards (dealPass d ps).1 ++ hole_cards (dealPass d ps).2 ≡ₚ Deck.Cards d ++ hole_cards ps.
Proof.
  revert d. induction ps as [|p ps IH]; intros d; simpl; [done|].
  destruct (Player.IsActive p || _).
  - destruct (Deck.DrawOne d) as [[c ok] d1] eqn:E.
    specialize (IH d1). destruct (dealPass d1 ps) as [d2 ps2]. simpl in *.
    unfold hole_cards at 1. simpl.
    apply Deck.DrawOne_cases in E as [(-> & Hd)|(-> & Hd & -> & _)]; rewrite Hd; simpl.
    + unfold hole_cards in *. simpl.
      transitivity (c :: Player.Cards p ++ (Deck.Cards d2 ++ (ps2 ≫= Player.Cards))); [solve_Permutation|].
      rewrite IH. solve_Permutation.
    + unfold hole_cards in *. rewrite Hd in IH. simpl in *.
      transitivity (Player.Cards p ++ (Deck.Cards d2 ++ (ps2 ≫= Player.Cards))); [solve_Permutation|].
      by rewrite IH.
  - specialize (IH d). destruct (dealPass d ps) as [d2 ps2]. simpl in *.
    unfold hole_cards in *. simpl.
    transitivity (Player.Cards p ++ (Deck.Cards d2 ++ (ps2 ≫= Player.Cards))); [solve_Permutation|].
    rewrite IH. solve_Permutation.
Qed.

Lemma dealHoleCards_cards g : table_cards (dealHoleCards g) ≡ₚ table_cards g.
Proof.
  unfold dealHoleCards, table_cards. simpl.
  pose proof (dealPass_cards (Deck g) (Players g)) as H1.
  destruct (dealPass (Deck g) (Players g)) as [d1 ps1]. simpl in *.
  pose proof (dealPass_cards d1 ps1) as H2. destruct (dealPass d1 ps1) as [d2 ps2]. simpl in *.
  transitivity (CommunityCards g ++ (Deck.Cards d2 ++ hole_cards ps2)); [solve_Permutation|].
  rewrite H2, H1. solve_Permutation.
Qed.

Lemma postBlind_cards i amount g g' : postBlind i amount g = Some g' -> table_cards g' = table_cards g.
Proof.
  intros (p & Hp & ->)%postBlind_inv. unfold table_cards, set_player. simpl.
  do 2 f_equal. apply (hole_cards_store _ _ p); [done|apply Player.PlaceBet_Cards].
Qed.

Lemma resetHand_cards deck g : table_cards (resetHand deck g) = Deck.Cards deck.
Proof.
  unfold table_cards. cbn [resetHand Deck CommunityCards Players set_Players set_MinRaise
    set_LastRaisePos set_CurrentBet set_Pot set_CurrentPhase set_CommunityCards set_Deck].
  assert (hole_cards (Player.ResetForNewHand <$> Players g) = []) as ->; [|by rewrite !app_nil_r].
  unfold hole_cards. induction (Players g) as [|p ps IH]; [done|].
  rewrite fmap_cons, bind_cons, IH, app_nil_r. unfold Player.ResetForNewHand. by case_decide.
Qed.

Lemma table_cards_set_CurrentBet v g : table_cards (set_CurrentBet v g) = table_cards g.
Proof. reflexivity. Qed.

Lemma table_cards_set_DealerPos v g : table_cards (set_DealerPos v g) = table_cards g.
Proof. reflexivity. Qed.

(** A new hand collects the 52 cards of a fresh shuffled deck. *)
Lemma StartNewHand_cards rnd g g' :
  StartNewHand rnd g = Some g' -> table_cards g' ≡ₚ Deck.Cards Deck.NewDeck.
Proof.
  unfold StartNewHand. generalize Deck.NewDeck as fresh_deck. intros fresh_deck.
  remember (Deck.Shuffle rnd fresh_deck) as deck eqn:Hdeck. intros H.
  apply bind_Some in H as (dealer & _ & H); apply bind_Some in H as (sbPos & _ & H);
  apply bind_Some in H as (g1 & Hsb & H); apply bind_Some in H as (bbPos & _ & H);
  apply bind_Some in H as (g2 & Hbb & H); apply bind_Some in H as (pos & _ & [= <-]).
  unfold table_cards at 1. cbn [Deck CommunityCards Players set_CurrentPos].
  fold (table_cards (dealHoleCards (set_CurrentBet (BigBlind g2) g2))).
  rewrite dealHoleCards_cards, table_cards_set_CurrentBet.
  rewrite (postBlind_cards _ _ _ _ Hbb), (postBlind_cards _ _ _ _ Hsb), table_cards_set_DealerPos.
  rewrite resetHand_cards, Hdeck. apply Deck.fisher_yates_perm.
Qed.

(** Every step keeps the table's cards among those of [NewDeck]. *)
Lemma step_cards g g' :
  step g g' -> table_cards g ⊆+ Deck.Cards Deck.NewDeck -> table_cards g' ⊆+ Deck.Cards Deck.NewDeck.
Proof.
  intros [rnd ? ? H|? ? ? ? ? H] Hg.
  - by rewrite (StartNewHand_cards _ _ _ H).
  - by etrans; [apply (ProcessAction_cards _ _ _ _ _ H)|].
Qed.

Lemma submseteq_NoDup' (l k : list Deck.Card) : l ⊆+ k -> NoDup k -> NoDup l.
Proof.
  intros (r & Hk)%submseteq_Permutation Hnd. rewrite Hk in Hnd.
  by apply NoDup_app in Hnd as [? _].
Qed.

End Cards.

(** ** Properties *)

(** C2: the dealing invariant (spec, section 8): in every table the program
    can reach, the cards of the deck, the community cards and the hole
    cards of all seats are pairwise distinct and all come from the 52 of
    [NewDeck]; in particular no card is in two hands or in a hand and on
    the board at once. *)
Theorem reachable_cards_unique g :
  reachable g -> table_cards g ⊆+ Deck.Cards Deck.NewDeck /\ NoDup (table_cards g).
Proof.
  intros Hr. assert (Hsub : table_cards g ⊆+ Deck.Cards Deck.NewDeck).
  { induction Hr as [players sb bb Hnone|g g' Hr IH Hs]; [|by apply (step_cards g g')].
    - unfold table_cards, NewGameState. cbn [Deck CommunityCards Players]. rewrite app_nil_l.
      assert (hole_cards players = []) as ->.
      { unfold hole_cards. induction Hnone as [|p ps Hp _ IH]; [done|]. by rewrite bind_cons, Hp, IH. }
      by rewrite app_nil_r. }
  split; [done|]. eapply submseteq_NoDup'; [done|apply Deck.NewDeck_NoDup].
Qed.

(** ** Witnesses *)

Lemma sample_players_empty_handed : Forall (fun p => Player.Cards p = []) sample_players.
Proof. repeat constructor. Qed.

(** The first hand of [run], then the first action of its acting seat. *)
Lemma reachable_cards_unique_witness :
  exists g', ProcessAction Action.Call 0 sample_hand = Some (true, g') /\
  reachable g' /\ table_cards g' ⊆+ Deck.Cards Deck.NewDeck /\ NoDup (table_cards g').
Proof.
  assert (R0 : reachable sample_game) by exact (reach_new _ _ _ sample_players_empty_handed).
  assert (E0 : StartNewHand (fun _ => 0%nat) sample_game = Some sample_hand) by (vm_compute; reflexivity).
  assert (R1 : reachable sample_hand) by exact (reach_step _ _ R0 (step_hand _ _ _ E0)).
  destruct (ProcessAction Action.Call 0 sample_hand) as [[b g']|] eqn:E; [|vm_compute in E; discriminate E].
  assert (Hb : b = true) by (revert E; vm_compute; intros [= <- _]; reflexivity). subst b.
  assert (R2 : reachable g') by exact (reach_step _ _ R1 (step_action _ _ _ _ _ E)).
  exists g'. split; [reflexivity|]. split; [exact R2|]. exact (reachable_cards_unique _ R2).
Defined.

End Lifecycle.
