(* ===== verification/Server.v ===== *)
(** * The static file server ([src/cmd/server/main.go])

    The server serves the files of [web/] and, for a path ending in
    ".wasm", first sets the header [Content-Type: application/wasm] so
    that browsers accept the module.  The model is the handler of "/":
    [strings.HasSuffix] as Go defines it on bytes, the header map the
    handler writes and the path handed to [http.FileServer].  Opening
    the file and writing the bytes is [net/http] and is not modelled. *)

From Stdlib Require Import String.
From stdpp Require Import base list.
From S2P Require Import Prelude.

Module Server.
Local Open Scope string_scope.

(** ** Operations *)

(** [strings.HasSuffix(s, suffix)] of the standard library, written out
    so that the handler's test evaluates:
    [len(s) >= len(suffix) && s[len(s)-len(suffix):] == suffix]. *)
Definition HasSuffix (s suffix : string) : bool :=
  let n := String.length s in
  let m := String.length suffix in
  bool_decide (m <= n)%nat && String.eqb (String.substring (n - m) m s) suffix.

(** What the handler hands to [net/http]: the header it set and the
    request path the file server then serves. *)
Record Response := MkResponse { headers : list (string * string); served : string }.

(** The handler of "/": [w.Header().Set] for a wasm file, then
    [fs.ServeHTTP(w, r)]. *)
Definition handle (path : string) : Response :=
  let hdrs := if HasSuffix path ".wasm" then [("Content-Type", "application/wasm")] else [] in
  MkResponse hdrs path.

(** ** Lemmas on [String.substring] *)

Section Substring.

Lemma substring_0_length s : String.substring 0 (String.length s) s = s.
Proof. induction s as [|a s IH]; simpl; [done|by rewrite IH]. Qed.

Lemma substring_append_r p q :
  String.substring (String.length p) (String.length q) (p ++ q) = q.
Proof. induction p as [|a p IH]; simpl; [apply substring_0_length|done]. Qed.

Lemma append_length p q : String.length (p ++ q) = (String.length p + String.length q)%nat.
Proof. induction p as [|a p IH]; simpl; auto. Qed.

(** A string is its first [k] bytes followed by the rest. *)
Lemma substring_split s k :
  (k <= String.length s)%nat ->
  s = String.substring 0 k s ++ String.substring k (String.length s - k) s.
Proof.
  revert k. induction s as [|a s IH]; intros [|k] Hk; simpl in *; try done.
  - by rewrite substring_0_length.
  - change (String a s = String a (String.substring 0 k s ++ String.substring k (String.length s - k) s)). f_equal. apply IH. lia.
Qed.

End Substring.

(** [strings.HasSuffix] is the suffix test: it holds exactly when the
    string is some prefix followed by the suffix. *)
Lemma HasSuffix_spec s suffix :
  HasSuffix s suffix = true <-> exists p, s = p ++ suffix.
Proof.
  unfold HasSuffix. rewrite andb_true_iff, bool_decide_eq_true, String.eqb_eq. split.
  - intros [Hle Hs]. set (k := (String.length s - String.length suffix)%nat) in Hs.
    exists (String.substring 0 k s). rewrite <-Hs.
    assert (Hm : String.length suffix = (String.length s - k)%nat) by (subst k; lia).
    rewrite Hm. apply substring_split. subst k. lia.
  - intros [p ->]. rewrite append_length. split; [lia|].
    replace (String.length p + String.length suffix - String.length suffix)%nat
      with (String.length p) by lia.
    apply substring_append_r.
Qed.

(** ** Properties *)

(** C33: the handler serves every path as requested and labels it
    [application/wasm] exactly when the path ends in ".wasm"; no other
    header is set. *)
Theorem handle_wasm_header path :
  served (handle path) = path /\
  (headers (handle path) = [("Content-Type", "application/wasm")] <-> exists p, path = p ++ ".wasm") /\
  ((exists p, path = p ++ ".wasm") \/ headers (handle path) = []).
Proof.
  unfold handle. simpl. rewrite <-HasSuffix_spec.
  destruct (HasSuffix path ".wasm"); simpl; split_and!; try done; auto.
Qed.

End Server.
